(** * Trade Expert Pro: indicator pipeline and signal engine

    A shallow embedding of [python_backtest/indicators.py] and
    [python_backtest/strategy.py], of the preparation of the frame in
    [python_backtest/run_backtest.py] and of [get_symbol] in
    [python_backtest/data_fetcher.py], with the properties of the
    specification stated and settled against it.

    Numbers.  The Python code computes on IEEE doubles (numpy [float64]).
    They are modelled by [float] below: an exact rational, or one of the
    three special values [+inf], [-inf] and [NaN], with the IEEE rules for
    the special values (a comparison with [NaN] is false, [x/0] is an
    infinity or [NaN], [inf - inf] is [NaN]).  Neither rounding nor
    overflow is modelled, and the two zeros are identified. *)

From Stdlib Require Import String.
From Stdlib Require Import ZArith QArith Qcanon Qround List Bool Lia Lqa.
Import ListNotations.

(* ================================================================== *)
(** ** Extended rationals standing for doubles *)

Module Float.

Inductive float : Type :=
| Fin (q : Qc)
| PInf
| NInf
| NaN.

Definition of_Z (z : Z) : float := Fin (Q2Qc (inject_Z z)).
Definition of_Q (q : Q) : float := Fin (Q2Qc q).

Definition zero : float := of_Z 0.

Definition Qc_ltb (a b : Qc) : bool :=
  match (a ?= b)%Qc with Lt => true | _ => false end.
Definition Qc_leb (a b : Qc) : bool :=
  match (a ?= b)%Qc with Gt => false | _ => true end.
Definition Qc_eqb (a b : Qc) : bool :=
  match (a ?= b)%Qc with Eq => true | _ => false end.

(** [x < y] on doubles: false as soon as one side is [NaN]. *)
Definition ltb (x y : float) : bool :=
  match x, y with
  | NaN, _ | _, NaN => false
  | Fin a, Fin b => Qc_ltb a b
  | NInf, NInf => false
  | NInf, _ => true
  | _, NInf => false
  | PInf, _ => false
  | Fin _, PInf => true
  end.

(** [x == y] on doubles. *)
Definition eqb (x y : float) : bool :=
  match x, y with
  | Fin a, Fin b => Qc_eqb a b
  | PInf, PInf => true
  | NInf, NInf => true
  | _, _ => false
  end.

Definition leb (x y : float) : bool := ltb x y || eqb x y.
Definition gtb (x y : float) : bool := ltb y x.
Definition geb (x y : float) : bool := leb y x.

Definition isnan (x : float) : bool :=
  match x with NaN => true | _ => false end.
Definition isinf (x : float) : bool :=
  match x with PInf | NInf => true | _ => false end.
Definition isfinite (x : float) : bool :=
  match x with Fin _ => true | _ => false end.

Definition neg (x : float) : float :=
  match x with
  | Fin a => Fin (- a)%Qc
  | PInf => NInf
  | NInf => PInf
  | NaN => NaN
  end.

Definition add (x y : float) : float :=
  match x, y with
  | NaN, _ | _, NaN => NaN
  | Fin a, Fin b => Fin (a + b)%Qc
  | PInf, NInf | NInf, PInf => NaN
  | PInf, _ | _, PInf => PInf
  | NInf, _ | _, NInf => NInf
  end.

Definition sub (x y : float) : float := add x (neg y).

(** Sign of a rational as an infinity, [NaN] for zero: the value of
    [inf * q]. *)
Definition inf_times (pos : bool) (q : Qc) : float :=
  match (q ?= 0)%Qc with
  | Eq => NaN
  | Gt => if pos then PInf else NInf
  | Lt => if pos then NInf else PInf
  end.

Definition mul (x y : float) : float :=
  match x, y with
  | NaN, _ | _, NaN => NaN
  | Fin a, Fin b => Fin (a * b)%Qc
  | PInf, Fin b => inf_times true b
  | NInf, Fin b => inf_times false b
  | Fin a, PInf => inf_times true a
  | Fin a, NInf => inf_times false a
  | PInf, PInf | NInf, NInf => PInf
  | PInf, NInf | NInf, PInf => NInf
  end.

(** Division.  A finite non-zero value over zero is an infinity with the
    sign of the numerator (the zero taken as [+0.0]), [0/0] is [NaN], a
    finite value over an infinity is zero. *)
Definition div (x y : float) : float :=
  match x, y with
  | NaN, _ | _, NaN => NaN
  | Fin a, Fin b =>
      if Qc_eqb b 0 then
        match (a ?= 0)%Qc with Eq => NaN | Gt => PInf | Lt => NInf end
      else Fin (a / b)%Qc
  | Fin _, PInf | Fin _, NInf => zero
  | PInf, Fin b => if Qc_ltb b 0 then NInf else PInf
  | NInf, Fin b => if Qc_ltb b 0 then PInf else NInf
  | _, _ => NaN
  end.

Definition abs (x : float) : float :=
  match x with
  | Fin a => if Qc_ltb a 0 then Fin (- a)%Qc else Fin a
  | PInf | NInf => PInf
  | NaN => NaN
  end.

(** Python's builtin [min(a, b)]: the first argument unless the second
    compares strictly below it. *)
Definition py_min2 (a b : float) : float := if ltb b a then b else a.

(** Python's builtin [max(a, b)]. *)
Definition py_max2 (a b : float) : float := if gtb b a then b else a.

End Float.

Export Float.

Declare Scope float_scope.
Delimit Scope float_scope with fl.
Bind Scope float_scope with float.
Infix "+" := Float.add : float_scope.
Infix "-" := Float.sub : float_scope.
Infix "*" := Float.mul : float_scope.
Infix "/" := Float.div : float_scope.
Notation "- x" := (Float.neg x) : float_scope.
Infix "<?" := Float.ltb : float_scope.
Infix "<=?" := Float.leb : float_scope.
Infix ">?" := Float.gtb : float_scope.
Infix ">=?" := Float.geb : float_scope.

(* ================================================================== *)
(** ** Exceptions *)

Inductive exn : Type :=
| ValueError
| IndexError
| OverflowError.

Inductive result (A : Type) : Type :=
| Ok (a : A)
| Raise (e : exn).

Arguments Ok {A} a.
Arguments Raise {A} e.

Definition bind {A B : Type} (m : result A) (k : A -> result B) : result B :=
  match m with
  | Ok a => k a
  | Raise e => Raise e
  end.

Notation "x <- m ;; k" := (bind m (fun x => k))
  (at level 61, m at next level, right associativity).
Notation "' p <- m ;; k" := (bind m (fun q => let p := q in k))
  (at level 61, p pattern, m at next level, right associativity).

(* ================================================================== *)
(** ** The pandas operations the indicators use

    A [Series] is the list of its values in row order.  The series that
    meet in one expression are columns of the same frame, so they share
    their index and every elementwise operation is positional. *)

Module Pandas.

Definition Series := list float.

Fixpoint zip_with {A B C : Type} (f : A -> B -> C) (xs : list A) (ys : list B)
  : list C :=
  match xs, ys with
  | x :: xs', y :: ys' => f x y :: zip_with f xs' ys'
  | _, _ => []
  end.

(** [s.shift(1)]. *)
Definition shift1 (s : Series) : Series :=
  match s with
  | [] => []
  | _ :: _ => NaN :: removelast s
  end.

(** [s.diff()]. *)
Definition diff (s : Series) : Series := zip_with Float.sub s (shift1 s).

(** [s.where(cond, other)]: keep the value where the condition holds. *)
Definition where_ (s : Series) (cond : float -> bool) (other : float) : Series :=
  map (fun x => if cond x then x else other) s.

(** [s[mask] = v] with the mask computed from the value itself. *)
Definition set_where (s : Series) (mask : float -> bool) (v : float) : Series :=
  map (fun x => if mask x then v else x) s.

(** The rolling windows see infinities as missing values. *)
Definition finite_values (w : list float) : option (list Qc) :=
  fold_right (fun x acc =>
                match x, acc with
                | Fin q, Some qs => Some (q :: qs)
                | _, _ => None
                end) (Some []) w.

(** The window of [n] values ending at row [i], when [i + 1 >= n]. *)
Definition window (n i : nat) (s : Series) : option (list float) :=
  if (n <=? S i)%nat then Some (firstn n (skipn (S i - n) s)) else None.

(** [s.rolling(window=n)] followed by an aggregation: the aggregate of the
    last [n] values, and [NaN] while fewer than [n] rows are available
    ([min_periods] defaults to the window) or when a value of the window
    is missing. *)
Definition rolling_agg (agg : list Qc -> float) (n : nat) (s : Series) : Series :=
  map (fun i =>
         match window n i s with
         | Some w =>
             match finite_values w with
             | Some qs => agg qs
             | None => NaN
             end
         | None => NaN
         end) (seq 0 (length s)).

Definition Qc_sum (qs : list Qc) : Qc := fold_right Qcplus 0%Qc qs.

Definition Qc_of_nat (n : nat) : Qc := Q2Qc (inject_Z (Z.of_nat n)).

Definition mean (qs : list Qc) : float :=
  match qs with
  | [] => NaN
  | _ => Fin (Qc_sum qs / Qc_of_nat (length qs))%Qc
  end.

Definition Qc_max (a b : Qc) : Qc := if Qc_ltb a b then b else a.
Definition Qc_min (a b : Qc) : Qc := if Qc_ltb b a then b else a.

Definition maximum (qs : list Qc) : float :=
  match qs with
  | [] => NaN
  | q :: qs' => Fin (fold_left Qc_max qs' q)
  end.

Definition minimum (qs : list Qc) : float :=
  match qs with
  | [] => NaN
  | q :: qs' => Fin (fold_left Qc_min qs' q)
  end.

(** [s.rolling(window=n).mean()]; a negative window is refused. *)
Definition rolling_mean (n : Z) (s : Series) : result Series :=
  if (n <? 0)%Z then Raise ValueError
  else Ok (rolling_agg mean (Z.to_nat n) s).

Definition rolling_max (n : Z) (s : Series) : result Series :=
  if (n <? 0)%Z then Raise ValueError
  else Ok (rolling_agg maximum (Z.to_nat n) s).

Definition rolling_min (n : Z) (s : Series) : result Series :=
  if (n <? 0)%Z then Raise ValueError
  else Ok (rolling_agg minimum (Z.to_nat n) s).

(** One step of the exponentially weighted mean with [adjust=False] and
    [ignore_na=False]: [weighted] is the running mean, [old_wt] the weight it
    carries.  A missing value leaves the mean as it is and ages its weight;
    the first value seen after a missing start seeds the mean. *)
Definition ewm_step (alpha : Qc) (weighted : float) (old_wt : Qc) (cur : float)
  : float * Qc :=
  if negb (isnan weighted) then
    let old_wt := (old_wt * (1 - alpha))%Qc in
    if negb (isnan cur) then
      ((if Float.eqb weighted cur then weighted
        else (Fin old_wt * weighted + Fin alpha * cur) / Fin (old_wt + alpha)%Qc)%fl,
       1%Qc)
    else (weighted, old_wt)
  else if negb (isnan cur) then (cur, old_wt)
  else (weighted, old_wt).

Fixpoint ewm_loop (alpha : Qc) (weighted : float) (old_wt : Qc) (vals : Series)
  : Series :=
  match vals with
  | [] => []
  | cur :: rest =>
      let '(w, o) := ewm_step alpha weighted old_wt cur in
      w :: ewm_loop alpha w o rest
  end.

(** [s.ewm(span=span, adjust=False).mean()]; [alpha = 2 / (span + 1)], and a
    span below 1 is refused. *)
Definition ewm_mean (span : Z) (s : Series) : result Series :=
  if (span <? 1)%Z then Raise ValueError
  else
    let alpha := (Q2Qc 2 / Q2Qc (inject_Z (span + 1)))%Qc in
    match s with
    | [] => Ok []
    | x :: rest => Ok (x :: ewm_loop alpha x 1%Qc rest)
    end.

(** Row-wise [max(axis=1)] / [min(axis=1)] over a few columns: missing
    values are skipped, a row of missing values only gives [NaN]. *)
Definition nan_fold (pick : float -> float -> float) (xs : list float) : float :=
  match filter (fun x => negb (isnan x)) xs with
  | [] => NaN
  | x :: rest => fold_left pick rest x
  end.

Definition fmax2 (a b : float) : float := if Float.ltb a b then b else a.
Definition fmin2 (a b : float) : float := if Float.ltb b a then b else a.

Definition row_max3 (a b c : Series) : Series :=
  zip_with (fun x yz => nan_fold fmax2 [x; fst yz; snd yz]) a (zip_with pair b c).

Definition row_max2 (a b : Series) : Series :=
  zip_with (fun x y => nan_fold fmax2 [x; y]) a b.

Definition row_min2 (a b : Series) : Series :=
  zip_with (fun x y => nan_fold fmin2 [x; y]) a b.

(** [s.cumsum()]: the running sum skips missing values and leaves them
    missing in the output. *)
Fixpoint cumsum_from (acc : float) (s : Series) : Series :=
  match s with
  | [] => []
  | x :: rest =>
      if isnan x then NaN :: cumsum_from acc rest
      else let acc' := (acc + x)%fl in acc' :: cumsum_from acc' rest
  end.

Definition cumsum (s : Series) : Series := cumsum_from zero s.

(** Shift of a boolean column: the first row has no value. *)
Definition shift1_bool (s : list bool) : list (option bool) :=
  match s with
  | [] => []
  | _ :: _ => None :: map Some (removelast s)
  end.

(** [a & b] where [b] may hold missing values: they count as [False]. *)
Definition and_na (a : bool) (b : option bool) : bool :=
  a && match b with Some v => v | None => false end.

End Pandas.

Export Pandas.

(* ================================================================== *)
(** ** indicators.py *)

Module Indicators.

Open Scope float_scope.

Definition smap2 (f : float -> float -> float) (a b : Series) : Series :=
  zip_with f a b.

(** Exponential Moving Average. *)
Definition ema (series : Series) (length : Z) : result Series :=
  ewm_mean length series.

(** Simple Moving Average. *)
Definition sma (series : Series) (length : Z) : result Series :=
  rolling_mean length series.

(** Relative Strength Index ([length] defaults to 14). *)
Definition rsi (series : Series) (length : Z) : result Series :=
  let delta := diff series in
  gain <- rolling_mean length (where_ delta (fun d => d >? zero) zero) ;;
  loss <- rolling_mean length (map Float.neg (where_ delta (fun d => d <? zero) zero)) ;;
  let rs := smap2 Float.div gain loss in
  Ok (map (fun r => of_Z 100 - (of_Z 100 / (of_Z 1 + r))) rs).

(** Average True Range ([length] defaults to 14). *)
Definition atr (high low close : Series) (length : Z) : result Series :=
  let tr1 := smap2 Float.sub high low in
  let tr2 := map Float.abs (smap2 Float.sub high (shift1 close)) in
  let tr3 := map Float.abs (smap2 Float.sub low (shift1 close)) in
  let tr := row_max3 tr1 tr2 tr3 in
  rolling_mean length tr.

(** MACD: line, signal line and histogram (defaults 12, 26, 9). *)
Definition macd (series : Series) (fast slow signal : Z)
  : result (Series * Series * Series) :=
  ema_fast <- ewm_mean fast series ;;
  ema_slow <- ewm_mean slow series ;;
  let macd_line := smap2 Float.sub ema_fast ema_slow in
  signal_line <- ewm_mean signal macd_line ;;
  let histogram := smap2 Float.sub macd_line signal_line in
  Ok (macd_line, signal_line, histogram).

(** The two bands of SuperTrend:
    [hl2 + multiplier * atr_val] and [hl2 - multiplier * atr_val]. *)
Definition hl2 (high low : Series) : Series :=
  map (fun x => x / of_Z 2) (smap2 Float.add high low).

Definition upper_band (high low atr_val : Series) (multiplier : float) : Series :=
  smap2 Float.add (hl2 high low) (map (Float.mul multiplier) atr_val).

Definition lower_band (high low atr_val : Series) (multiplier : float) : Series :=
  smap2 Float.sub (hl2 high low) (map (Float.mul multiplier) atr_val).

(** The body of the loop of [supertrend] at row [i]: from the close and the
    band of row [i-1] and the close and the two bands of row [i], the band
    and the direction of row [i]. *)
Definition supertrend_step (close_prev st_prev close_i upper_i lower_i : float)
  : float * Z :=
  if close_prev <=? st_prev then
    (* In downtrend *)
    let st := upper_i in
    if close_i >? st then (lower_i, 1%Z)  (* Switch to uptrend *)
    else (py_min2 st st_prev, (-1)%Z)
  else
    (* In uptrend *)
    let st := lower_i in
    if close_i <? st then (upper_i, (-1)%Z)  (* Switch to downtrend *)
    else (py_max2 st st_prev, 1%Z).

(** [for i in range(1, len(close))], the rows given as
    [(close[i], (upper_band[i], lower_band[i]))]. *)
Fixpoint supertrend_loop (close_prev st_prev : float)
  (rows : list (float * (float * float))) : list (float * Z) :=
  match rows with
  | [] => []
  | (close_i, (upper_i, lower_i)) :: rest =>
      let r := supertrend_step close_prev st_prev close_i upper_i lower_i in
      r :: supertrend_loop close_i (fst r) rest
  end.

(** SuperTrend indicator (defaults: length 10, multiplier 3.0): the band and
    the direction.  Row 0 is read and written with [.iloc[0]], which fails on
    an empty series. *)
Definition supertrend (high low close : Series) (length : Z) (multiplier : float)
  : result (Series * list Z) :=
  atr_val <- atr high low close length ;;
  let upper := upper_band high low atr_val multiplier in
  let lower := lower_band high low atr_val multiplier in
  match zip_with pair close (zip_with pair upper lower) with
  | [] => Raise IndexError
  | (close_0, (upper_0, _)) :: rest =>
      let st_0 := upper_0 in
      let dir_0 := 1%Z in
      let out := (st_0, dir_0) :: supertrend_loop close_0 st_0 rest in
      Ok (map fst out, map snd out)
  end.

(** ADX - Average Directional Index: [+DI], [-DI] and ADX. *)
Definition adx (high low close : Series) (length : Z)
  : result (Series * Series * Series) :=
  let plus_dm := diff high in
  let minus_dm := map Float.neg (diff low) in
  let plus_dm := set_where plus_dm (fun x => x <? zero) zero in
  let minus_dm := set_where minus_dm (fun x => x <? zero) zero in
  (* When +DM > -DM, -DM = 0 and vice versa *)
  let mask := zip_with Float.gtb plus_dm minus_dm in
  let minus_dm := zip_with (fun (m : bool) x => if m then zero else x) mask minus_dm in
  let plus_dm := zip_with (fun (m : bool) x => if m then x else zero) mask plus_dm in
  atr_val <- atr high low close length ;;
  plus_mean <- rolling_mean length plus_dm ;;
  let plus_di := map (Float.mul (of_Z 100)) (smap2 Float.div plus_mean atr_val) in
  minus_mean <- rolling_mean length minus_dm ;;
  let minus_di := map (Float.mul (of_Z 100)) (smap2 Float.div minus_mean atr_val) in
  let dx :=
    smap2 Float.div
      (map (fun d => of_Z 100 * Float.abs d) (smap2 Float.sub plus_di minus_di))
      (smap2 Float.add plus_di minus_di) in
  adx_val <- rolling_mean length dx ;;
  Ok (plus_di, minus_di, adx_val).

(** Volume Weighted Average Price.  The volume is read as a column of
    doubles; a column of 64-bit integers, whose running sum can wrap, is
    not modelled. *)
Definition vwap (high low close volume : Series) : Series :=
  let typical_price :=
    map (fun x => x / of_Z 3) (smap2 Float.add (smap2 Float.add high low) close) in
  let cumulative_tp_vol := cumsum (smap2 Float.mul typical_price volume) in
  let cumulative_vol := cumsum volume in
  smap2 Float.div cumulative_tp_vol cumulative_vol.

(** The configuration dictionary. *)
Record Config : Type := {
  ema9 : Z;
  ema21 : Z;
  ema50 : Z;
  ema200 : Z;
  st_length : Z;
  st_mult : float;
  atr_period : Z;
  rsi_period : Z;
  macd_fast : Z;
  macd_slow : Z;
  macd_signal : Z;
  vol_sma : Z;
  vol_mult : float
}.

(** Get default indicator configuration. *)
Definition get_default_config : Config := {|
  ema9 := 9;
  ema21 := 21;
  ema50 := 50;
  ema200 := 200;
  st_length := 10;
  st_mult := of_Z 3;
  atr_period := 14;
  rsi_period := 14;
  macd_fast := 12;
  macd_slow := 26;
  macd_signal := 9;
  vol_sma := 20;
  vol_mult := of_Q (13 # 10)
|}.

(** One row of the input frame: its index label and the OHLCV values. *)
Record Bar : Type := {
  timestamp : Z;
  open : float;
  high : float;
  low : float;
  close : float;
  volume : float
}.

Inductive VolStateT : Type := ULTRA_LOW | LOW | NORMAL | HIGH | EXTREME.
Inductive BiasT : Type := BULLISH | BEARISH | NEUTRAL.

(** The volatility bucket of one row: ['NORMAL'], then the four masked
    assignments in the order of the source, a later one overriding. *)
Definition vol_state (vol_ratio : float) : VolStateT :=
  let s := NORMAL in
  let s := if vol_ratio <? of_Q (4 # 10) then ULTRA_LOW else s in
  let s := if (vol_ratio >=? of_Q (4 # 10)) && (vol_ratio <? of_Q (7 # 10))
           then LOW else s in
  let s := if vol_ratio >? of_Q (15 # 10) then HIGH else s in
  let s := if vol_ratio >? of_Q (25 # 10) then EXTREME else s in
  s.

(** MTF Bias Score of one row. *)
Definition mtf_score (bullish_stack bearish_stack st_bullish st_bearish : bool) : Z :=
  let s := 0%Z in
  let s := if bullish_stack then (s + 25)%Z else s in
  let s := if bearish_stack then (s - 25)%Z else s in
  let s := if st_bullish then (s + 15)%Z else s in
  let s := if st_bearish then (s - 15)%Z else s in
  s.

(** Bias of one row. *)
Definition bias_of (score : Z) : BiasT :=
  let b := NEUTRAL in
  let b := if (score >=? 30)%Z then BULLISH else b in
  let b := if (score <=? -30)%Z then BEARISH else b in
  b.

(** The frame [add_all_indicators] returns: the input columns and one
    column per indicator, each a list in row order. *)
Record Frame : Type := {
  index : list Z;
  Open : Series;
  High : Series;
  Low : Series;
  Close : Series;
  Volume : Series;
  EMA9 : Series;
  EMA21 : Series;
  EMA50 : Series;
  EMA200 : Series;
  BullishStack : list bool;
  BearishStack : list bool;
  SuperTrend : Series;
  ST_Direction : list Z;
  ST_Bullish : list bool;
  ST_Bearish : list bool;
  ATR : Series;
  ATR_SMA : Series;
  VolRatio : Series;
  VolState : list VolStateT;
  RSI : Series;
  MACD : Series;
  MACD_Signal : Series;
  MACD_Hist : Series;
  ADX : Series;
  DI_Plus : Series;
  DI_Minus : Series;
  VolumeSMA : Series;
  VolumeSpike : list bool;
  RelativeVolume : Series;
  VWAP : Series;
  PDH : Series;
  PDL : Series;
  PDC : Series;
  Pivot : Series;
  R1 : Series;
  R2 : Series;
  S1 : Series;
  S2 : Series;
  BodySize : Series;
  TotalRange : Series;
  UpperWick : Series;
  LowerWick : Series;
  BullishCandle : list bool;
  BearishCandle : list bool;
  BullishEngulfing : list bool;
  BearishEngulfing : list bool;
  Hammer : list bool;
  ShootingStar : list bool;
  BreakAbove : list bool;
  BreakBelow : list bool;
  MTFScore : list Z;
  Bias : list BiasT
}.

Definition band3 (a b c : list bool) : list bool :=
  zip_with andb (zip_with andb a b) c.

Definition scale (k : float) (s : Series) : Series := map (fun x => x * k) s.

(** Add all Trade Expert Pro indicators to the frame [df]; [config] is the
    optional configuration, [None] standing for the default one. *)
Definition add_all_indicators (df : list Bar) (config : option Config)
  : result Frame :=
  let config := match config with None => get_default_config | Some c => c end in
  let c_open := map open df in
  let c_high := map high df in
  let c_low := map low df in
  let c_close := map close df in
  let c_volume := map volume df in
  (* EMAs *)
  c_ema9 <- ema c_close (ema9 config) ;;
  c_ema21 <- ema c_close (ema21 config) ;;
  c_ema50 <- ema c_close (ema50 config) ;;
  c_ema200 <- ema c_close (ema200 config) ;;
  (* EMA Stack Analysis *)
  let bullish_stack :=
    band3 (zip_with Float.gtb c_ema9 c_ema21) (zip_with Float.gtb c_ema21 c_ema50)
          (zip_with Float.gtb c_close c_ema200) in
  let bearish_stack :=
    band3 (zip_with Float.ltb c_ema9 c_ema21) (zip_with Float.ltb c_ema21 c_ema50)
          (zip_with Float.ltb c_close c_ema200) in
  (* SuperTrend *)
  '(st, st_dir) <- supertrend c_high c_low c_close (st_length config) (st_mult config) ;;
  let st_bullish := map (fun d => (d =? 1)%Z) st_dir in
  let st_bearish := map (fun d => (d =? -1)%Z) st_dir in
  (* ATR *)
  c_atr <- atr c_high c_low c_close (atr_period config) ;;
  c_atr_sma <- sma c_atr 50 ;;
  (* Volatility State *)
  let vol_ratio := smap2 Float.div c_atr c_atr_sma in
  let c_vol_state := map vol_state vol_ratio in
  (* RSI *)
  c_rsi <- rsi c_close (rsi_period config) ;;
  (* MACD *)
  '(macd_line, signal_line, hist) <-
     macd c_close (macd_fast config) (macd_slow config) (macd_signal config) ;;
  (* ADX & DMI *)
  '(plus_di, minus_di, adx_val) <- adx c_high c_low c_close 14 ;;
  (* Volume Analysis *)
  volume_sma <- sma c_volume (vol_sma config) ;;
  let volume_spike :=
    zip_with Float.gtb c_volume (scale (vol_mult config) volume_sma) in
  let relative_volume := smap2 Float.div c_volume volume_sma in
  (* VWAP *)
  let c_vwap := vwap c_high c_low c_close c_volume in
  (* Previous Day High/Low *)
  let pdh := shift1 c_high in
  let pdl := shift1 c_low in
  let pdc := shift1 c_close in
  (* Pivot Points *)
  let pivot := map (fun x => x / of_Z 3) (smap2 Float.add (smap2 Float.add pdh pdl) pdc) in
  let two_pivot := map (Float.mul (of_Z 2)) pivot in
  let r1 := smap2 Float.sub two_pivot pdl in
  let r2 := smap2 Float.add pivot (smap2 Float.sub pdh pdl) in
  let s1 := smap2 Float.sub two_pivot pdh in
  let s2 := smap2 Float.sub pivot (smap2 Float.sub pdh pdl) in
  (* Candlestick Analysis *)
  let body_size := map Float.abs (smap2 Float.sub c_close c_open) in
  let total_range := smap2 Float.sub c_high c_low in
  let upper_wick := smap2 Float.sub c_high (row_max2 c_open c_close) in
  let lower_wick := smap2 Float.sub (row_min2 c_open c_close) c_low in
  let bullish_candle := zip_with Float.gtb c_close c_open in
  let bearish_candle := zip_with Float.ltb c_close c_open in
  (* Engulfing Patterns *)
  let bullish_engulfing :=
    band3 (zip_with and_na bullish_candle (shift1_bool bearish_candle))
          (zip_with Float.gtb c_close (shift1 c_open))
          (zip_with Float.ltb c_open (shift1 c_close)) in
  let bearish_engulfing :=
    band3 (zip_with and_na bearish_candle (shift1_bool bullish_candle))
          (zip_with Float.ltb c_close (shift1 c_open))
          (zip_with Float.gtb c_open (shift1 c_close)) in
  (* Hammer & Shooting Star *)
  let hammer :=
    zip_with andb (zip_with Float.gtb lower_wick (scale (of_Z 2) body_size))
                  (zip_with Float.ltb upper_wick (scale (of_Q (1 # 2)) body_size)) in
  let shooting_star :=
    zip_with andb (zip_with Float.gtb upper_wick (scale (of_Z 2) body_size))
                  (zip_with Float.ltb lower_wick (scale (of_Q (1 # 2)) body_size)) in
  (* Structure Breaks *)
  high_max5 <- rolling_max 5 c_high ;;
  let break_above := zip_with Float.gtb c_close (shift1 high_max5) in
  low_min5 <- rolling_min 5 c_low ;;
  let break_below := zip_with Float.ltb c_close (shift1 low_min5) in
  (* MTF Bias Score *)
  let c_mtf :=
    zip_with (fun (st : bool * bool) (sd : bool * bool) =>
                mtf_score (fst st) (snd st) (fst sd) (snd sd))
             (zip_with pair bullish_stack bearish_stack)
             (zip_with pair st_bullish st_bearish) in
  (* Bias *)
  let c_bias := map bias_of c_mtf in
  Ok {|
    index := map timestamp df;
    Open := c_open; High := c_high; Low := c_low; Close := c_close;
    Volume := c_volume;
    EMA9 := c_ema9; EMA21 := c_ema21; EMA50 := c_ema50; EMA200 := c_ema200;
    BullishStack := bullish_stack; BearishStack := bearish_stack;
    SuperTrend := st; ST_Direction := st_dir;
    ST_Bullish := st_bullish; ST_Bearish := st_bearish;
    ATR := c_atr; ATR_SMA := c_atr_sma;
    VolRatio := vol_ratio; VolState := c_vol_state;
    RSI := c_rsi;
    MACD := macd_line; MACD_Signal := signal_line; MACD_Hist := hist;
    ADX := adx_val; DI_Plus := plus_di; DI_Minus := minus_di;
    VolumeSMA := volume_sma; VolumeSpike := volume_spike;
    RelativeVolume := relative_volume;
    VWAP := c_vwap;
    PDH := pdh; PDL := pdl; PDC := pdc;
    Pivot := pivot; R1 := r1; R2 := r2; S1 := s1; S2 := s2;
    BodySize := body_size; TotalRange := total_range;
    UpperWick := upper_wick; LowerWick := lower_wick;
    BullishCandle := bullish_candle; BearishCandle := bearish_candle;
    BullishEngulfing := bullish_engulfing; BearishEngulfing := bearish_engulfing;
    Hammer := hammer; ShootingStar := shooting_star;
    BreakAbove := break_above; BreakBelow := break_below;
    MTFScore := c_mtf; Bias := c_bias
  |}.

End Indicators.

Export Indicators.

(* ================================================================== *)
(** ** strategy.py *)

Module Strategy.

Open Scope float_scope.

(** What [self.data] shows of one bar: the columns the strategy reads.
    [MTFScore] is [None] when the frame has no such column
    ([hasattr(self.data, 'MTFScore')] is false). *)
Record Row : Type := {
  Close : float;
  High : float;
  Low : float;
  ATR : float;
  RSI : float;
  MACD : float;
  MACD_Signal : float;
  MTFScore : option Z;
  BullishStack : bool;
  BearishStack : bool;
  ST_Bullish : bool;
  ST_Bearish : bool;
  VolumeSpike : bool;
  BullishEngulfing : bool;
  BearishEngulfing : bool;
  Hammer : bool;
  ShootingStar : bool;
  BreakAbove : bool;
  BreakBelow : bool;
  VolState : VolStateT;
  Bias : BiasT
}.

(** The strategy object: its parameters (class attributes, which an
    optimisation run may override), the bars seen so far, oldest first, and
    whether a position is open (the truth value of [self.position]). *)
Record TradeExpertPro : Type := {
  min_quality : Z;
  a_grade_min : Z;
  a_plus_min : Z;
  min_rr : float;
  tp1_rr : float;
  tp2_rr : float;
  tp3_rr : float;
  sl_buffer : float;
  risk_per_trade : float;
  data : list Row;
  position : bool
}.

(** The class attributes as written in the source. *)
Definition default_strategy (data : list Row) (position : bool) : TradeExpertPro := {|
  min_quality := 50;
  a_grade_min := 65;
  a_plus_min := 80;
  min_rr := of_Q (15 # 10);
  tp1_rr := of_Z 1;
  tp2_rr := of_Z 2;
  tp3_rr := of_Z 3;
  sl_buffer := of_Q (2 # 10);
  risk_per_trade := of_Q (1 # 100);
  data := data;
  position := position
|}.

(** What a call of [next] does that can be seen from outside: the methods
    it runs and the orders it places, in order. *)
Inductive Event : Type :=
| CheckVeto
| QualityScore
| SlTp (is_long : bool)
| Buy (size sl tp : float)
| Sell (size sl tp : float).

(** Computations that may raise and that log events. *)
Definition M (A : Type) : Type := result (A * list Event).

Definition ret {A : Type} (a : A) : M A := Ok (a, []).

Definition bindM {A B : Type} (m : M A) (k : A -> M B) : M B :=
  match m with
  | Raise e => Raise e
  | Ok (a, l1) =>
      match k a with
      | Raise e => Raise e
      | Ok (b, l2) => Ok (b, l1 ++ l2)
      end
  end.

Definition tell (e : Event) : M unit := Ok (tt, [e]).

Definition lift {A : Type} (r : result A) : M A :=
  match r with
  | Ok a => Ok (a, [])
  | Raise e => Raise e
  end.

Notation "x <-- m ;; k" := (bindM m (fun x => k))
  (at level 61, m at next level, right associativity).
Notation "' p <-- m ;; k" := (bindM m (fun q => let p := q in k))
  (at level 61, p pattern, m at next level, right associativity).
Notation "m ;;; k" := (bindM m (fun _ => k))
  (at level 61, right associativity).

(** [self.data.X[-1]] reads column [X] at the last bar; on a frame without
    rows every such read fails alike. *)
Definition last_row (self : TradeExpertPro) : result Row :=
  match rev (data self) with
  | [] => Raise IndexError
  | r :: _ => Ok r
  end.

(** [self.data.X[-5:]]: the last five rows, fewer when there are fewer. *)
Definition last5 (self : TradeExpertPro) : list Row :=
  skipn (List.length (data self) - 5) (data self).

(** Python's [min] and [max] over a sequence; an empty one is refused. *)
Definition py_min (xs : list float) : result float :=
  match xs with
  | [] => Raise ValueError
  | x :: rest => Ok (fold_left py_min2 rest x)
  end.

Definition py_max (xs : list float) : result float :=
  match xs with
  | [] => Raise ValueError
  | x :: rest => Ok (fold_left py_max2 rest x)
  end.

(** [int(x)]: truncation toward zero; [NaN] and the infinities are
    refused. *)
Definition py_int (x : float) : result Z :=
  match x with
  | Fin q => Ok (Z.quot (Qnum (this q)) (Zpos (Qden (this q))))
  | PInf | NInf => Raise OverflowError
  | NaN => Raise ValueError
  end.

Definition bias_eqb (a b : BiasT) : bool :=
  match a, b with
  | BULLISH, BULLISH | BEARISH, BEARISH | NEUTRAL, NEUTRAL => true
  | _, _ => false
  end.

(** The RSI test of the quality score. *)
Definition rsi_score_test (bias : BiasT) (rsi : float) : bool :=
  (bias_eqb bias BULLISH && ((of_Z 30 <? rsi) && (rsi <? of_Z 70)))
  || (bias_eqb bias BEARISH && ((of_Z 30 <? rsi) && (rsi <? of_Z 70))).

(** The RSI tests of the confirmation counts. *)
Definition rsi_confirms_bullish (rsi : float) : bool :=
  (rsi >? of_Z 40) && (rsi <? of_Z 70).

Definition rsi_confirms_bearish (rsi : float) : bool :=
  (rsi <? of_Z 60) && (rsi >? of_Z 30).

(** The nine terms of the quality score, in the order of the source. *)
Definition term_mtf (r : Row) : float :=
  let mtf_score := match MTFScore r with Some m => Z.abs m | None => 0%Z end in
  py_min2 (of_Z 20) (of_Z mtf_score / of_Z 100 * of_Z 20).

Definition fires_stack (r : Row) : bool := BullishStack r || BearishStack r.

Definition fires_supertrend (r : Row) : bool :=
  (bias_eqb (Bias r) BULLISH && ST_Bullish r)
  || (bias_eqb (Bias r) BEARISH && ST_Bearish r).

Definition fires_rsi (r : Row) : bool := rsi_score_test (Bias r) (RSI r).

Definition fires_macd (r : Row) : bool :=
  (bias_eqb (Bias r) BULLISH && (MACD r >? MACD_Signal r))
  || (bias_eqb (Bias r) BEARISH && (MACD r <? MACD_Signal r)).

Definition fires_volume (r : Row) : bool := VolumeSpike r.

Definition fires_candle (r : Row) : bool :=
  (bias_eqb (Bias r) BULLISH && (BullishEngulfing r || Hammer r))
  || (bias_eqb (Bias r) BEARISH && (BearishEngulfing r || ShootingStar r)).

Definition fires_break (r : Row) : bool :=
  (bias_eqb (Bias r) BULLISH && BreakAbove r)
  || (bias_eqb (Bias r) BEARISH && BreakBelow r).

Definition fires_normal_vol (r : Row) : bool :=
  match VolState r with NORMAL => true | _ => false end.

(** [if cond: score += points]. *)
Definition add_if (cond : bool) (points : Z) (score : float) : float :=
  if cond then score + of_Z points else score.

(** The running [score] of [get_quality_score] just before [int(score)]. *)
Definition raw_score (r : Row) : float :=
  let score := of_Z 0 in
  (* MTF Score contribution (20%) *)
  let score := score + term_mtf r in
  (* EMA Stack (15%) *)
  let score := add_if (fires_stack r) 15 score in
  (* SuperTrend alignment (10%) *)
  let score := add_if (fires_supertrend r) 10 score in
  (* RSI confirmation (10%) *)
  let score := add_if (fires_rsi r) 10 score in
  (* MACD confirmation (10%) *)
  let score := add_if (fires_macd r) 10 score in
  (* Volume spike (10%) *)
  let score := add_if (fires_volume r) 10 score in
  (* Candlestick pattern (10%) *)
  let score := add_if (fires_candle r) 10 score in
  (* Structure break (10%) *)
  let score := add_if (fires_break r) 10 score in
  (* Normal volatility (5%) *)
  let score := add_if (fires_normal_vol r) 5 score in
  score.

(** Calculate trade quality score (0-100). *)
Definition get_quality_score (self : TradeExpertPro) : M Z :=
  tell QualityScore ;;;
  r <-- lift (last_row self) ;;
  n <-- lift (py_int (raw_score r)) ;;
  ret (Z.min 100 n).

(** Calculate Stop Loss and Take Profit levels. *)
Definition get_sl_tp (self : TradeExpertPro) (is_long : bool)
  : M (float * float * float * float) :=
  tell (SlTp is_long) ;;;
  r <-- lift (last_row self) ;;
  let atr := ATR r in
  let close := Close r in
  if is_long then
    (* Use recent swing low or ATR-based *)
    recent_low <-- lift (py_min (map Low (last5 self))) ;;
    let sl := py_min2 (recent_low - atr * sl_buffer self) (close - atr * of_Q (12 # 10)) in
    let risk := close - sl in
    let tp1 := close + risk * tp1_rr self in
    let tp2 := close + risk * tp2_rr self in
    let tp3 := close + risk * tp3_rr self in
    ret (sl, tp1, tp2, tp3)
  else
    (* Short position *)
    recent_high <-- lift (py_max (map High (last5 self))) ;;
    let sl := py_max2 (recent_high + atr * sl_buffer self) (close + atr * of_Q (12 # 10)) in
    let risk := sl - close in
    let tp1 := close - risk * tp1_rr self in
    let tp2 := close - risk * tp2_rr self in
    let tp3 := close - risk * tp3_rr self in
    ret (sl, tp1, tp2, tp3).

Definition vol_state_name (v : VolStateT) : string :=
  match v with
  | ULTRA_LOW => "ULTRA_LOW"
  | LOW => "LOW"
  | NORMAL => "NORMAL"
  | HIGH => "HIGH"
  | EXTREME => "EXTREME"
  end.

(** Check if any veto conditions are active. *)
Definition check_veto_conditions (self : TradeExpertPro) : M (bool * string) :=
  tell CheckVeto ;;;
  r <-- lift (last_row self) ;;
  (* Extreme volatility *)
  match VolState r with
  | ULTRA_LOW | EXTREME =>
      ret (true, ("Volatility: " ++ vol_state_name (VolState r))%string)
  | _ =>
      (* No clear bias *)
      match Bias r with
      | NEUTRAL => ret (true, "No MTF Confluence"%string)
      | _ => ret (false, ""%string)
      end
  end.

(** The confirmation counts of the two branches of [next]. *)
Definition count_true (bs : list bool) : Z :=
  fold_left (fun n (b : bool) => if b then (n + 1)%Z else n) bs 0%Z.

Definition bullish_confirmations (r : Row) : Z :=
  count_true [BullishStack r; ST_Bullish r; MACD r >? MACD_Signal r;
              rsi_confirms_bullish (RSI r); VolumeSpike r].

Definition bearish_confirmations (r : Row) : Z :=
  count_true [BearishStack r; ST_Bearish r; MACD r <? MACD_Signal r;
              rsi_confirms_bearish (RSI r); VolumeSpike r].

(** Reward:risk of a long entry:
    [(tp2 - close) / (close - sl) if (close - sl) > 0 else 0]. *)
Definition reward_risk_long (close sl tp2 : float) : float :=
  if (close - sl) >? zero then (tp2 - close) / (close - sl) else zero.

(** Reward:risk of a short entry:
    [(close - tp2) / (sl - close) if (sl - close) > 0 else 0]. *)
Definition reward_risk_short (close sl tp2 : float) : float :=
  if (sl - close) >? zero then (close - tp2) / (sl - close) else zero.

(** Main strategy logic - called on each bar. *)
Definition next (self : TradeExpertPro) : M unit :=
  (* Skip if we already have a position *)
  if position self then ret tt else
  (* Check veto conditions *)
  '(vetoed, reason) <-- check_veto_conditions self ;;
  if (vetoed : bool) then ret tt else
  (* Get quality score *)
  quality <-- get_quality_score self ;;
  if (quality <? min_quality self)%Z then ret tt else
  r <-- lift (last_row self) ;;
  match Bias r with
  | BULLISH =>
      (* Check confirmations *)
      let confirmations := bullish_confirmations r in
      if (confirmations >=? 3)%Z then
        '(sl, tp1, tp2, tp3) <-- get_sl_tp self true ;;
        let rr := reward_risk_long (Close r) sl tp2 in
        if rr >=? min_rr self then tell (Buy (of_Q (1 # 2)) sl tp2) else ret tt
      else ret tt
  | BEARISH =>
      (* Check confirmations *)
      let confirmations := bearish_confirmations r in
      if (confirmations >=? 3)%Z then
        '(sl, tp1, tp2, tp3) <-- get_sl_tp self false ;;
        let rr := reward_risk_short (Close r) sl tp2 in
        if rr >=? min_rr self then tell (Sell (of_Q (1 # 2)) sl tp2) else ret tt
      else ret tt
  | NEUTRAL => ret tt
  end.

(** The decision a bar's log amounts to. *)
Inductive Action : Type := HOLD | ENTER_LONG | ENTER_SHORT.

Fixpoint action_of (log : list Event) : Action :=
  match log with
  | [] => HOLD
  | Buy _ _ _ :: _ => ENTER_LONG
  | Sell _ _ _ :: _ => ENTER_SHORT
  | _ :: rest => action_of rest
  end.

Definition scored (log : list Event) : bool :=
  existsb (fun e => match e with QualityScore => true | _ => false end) log.

End Strategy.

Export Strategy.

(* ================================================================== *)
(** ** python_backtest/strategy.py: [TradeExpertProSimple] *)

Module Simple.

Open Scope float_scope.

(** What [self.data] shows of one bar to the simplified strategy. *)
Record Row : Type := {
  EMA9 : float;
  EMA21 : float;
  ST_Bullish : bool;
  ST_Bearish : bool;
  Close : float;
  ATR : float
}.

Record TradeExpertProSimple : Type := {
  data : list Row;
  position : bool
}.

(** The arguments of [self.buy(sl=sl, tp=tp)] and of
    [self.sell(sl=sl, tp=tp)]. *)
Inductive Order : Type :=
| Buy (sl tp : float)
| Sell (sl tp : float).

(** [xs[-1]]. *)
Definition last_of {A : Type} (xs : list A) : result A :=
  match rev xs with
  | [] => Raise IndexError
  | x :: _ => Ok x
  end.

(** [backtesting.lib.crossover]:
    [series1[-2] < series2[-2] and series1[-1] > series2[-1]], and [False]
    when a read fails with [IndexError]. *)
Definition crossover (series1 series2 : Series) : bool :=
  match rev series1, rev series2 with
  | a1 :: a2 :: _, b1 :: b2 :: _ => (a2 <? b2) && (a1 >? b1)
  | _, _ => false
  end.

(** [next], returning the orders it has placed on the current bar.
    [self.buy] and [self.sell] belong to the backtesting library: they hand
    the order to its broker, which may refuse it with an exception.  They
    are the parameter [place], of which nothing is assumed; an exception of
    [place] leaves [next] as it leaves the Python method. *)
Definition next (place : Order -> result unit) (self : TradeExpertProSimple)
  : result (list Order) :=
  if position self then Ok [] else
  (* Simple crossover strategy *)
  if crossover (map EMA9 (data self)) (map EMA21 (data self)) then
    st_bullish <- last_of (map ST_Bullish (data self)) ;;
    if (st_bullish : bool) then
      close <- last_of (map Close (data self)) ;;
      atr <- last_of (map ATR (data self)) ;;
      let sl := close - atr * of_Q (15 # 10) in
      let tp := close + atr * of_Z 3 in
      _ <- place (Buy sl tp) ;;
      Ok [Buy sl tp]
    else Ok []
  else if crossover (map EMA21 (data self)) (map EMA9 (data self)) then
    st_bearish <- last_of (map ST_Bearish (data self)) ;;
    if (st_bearish : bool) then
      close <- last_of (map Close (data self)) ;;
      atr <- last_of (map ATR (data self)) ;;
      let sl := close + atr * of_Q (15 # 10) in
      let tp := close - atr * of_Z 3 in
      _ <- place (Sell sl tp) ;;
      Ok [Sell sl tp]
    else Ok []
  else Ok [].

(** A broker that takes every order. *)
Definition accept (o : Order) : result unit := Ok tt.

End Simple.

(* ================================================================== *)
(** ** python_backtest/data_fetcher.py: symbol names *)

Module DataFetcher.

Open Scope string_scope.

(** Common Indian Market Symbols *)
Definition SYMBOLS : list (string * string) := [
  ("NIFTY50", "^NSEI");
  ("BANKNIFTY", "^NSEBANK");
  ("NIFTYIT", "^CNXIT");
  ("SENSEX", "^BSESN");
  (* Commodities *)
  ("GOLD", "GC=F");
  ("SILVER", "SI=F");
  ("XAGUSD", "XAGUSD=X");
  ("XAUUSD", "XAUUSD=X");
  (* Forex *)
  ("USDINR", "INR=X");
  ("EURUSD", "EURUSD=X");
  ("GBPUSD", "GBPUSD=X");
  (* Crypto *)
  ("BTCUSD", "BTC-USD");
  ("ETHUSD", "ETH-USD")
].

(** [str.upper] on ASCII text: the letters a to z are moved to A to Z. *)
Definition upper_char (c : Ascii.ascii) : Ascii.ascii :=
  let n := Ascii.nat_of_ascii c in
  if ((97 <=? n) && (n <=? 122))%nat then Ascii.ascii_of_nat (n - 32) else c.

Fixpoint upper (s : string) : string :=
  match s with
  | EmptyString => EmptyString
  | String c rest => String (upper_char c) (upper rest)
  end.

(** The strings [upper] is a model of [str.upper] on. *)
Fixpoint is_ascii (s : string) : bool :=
  match s with
  | EmptyString => true
  | String c rest => (Ascii.nat_of_ascii c <? 128)%nat && is_ascii rest
  end.

(** [d.get(key, default)]. *)
Fixpoint dict_get (d : list (string * string)) (key default : string) : string :=
  match d with
  | [] => default
  | (k, v) :: rest => if String.eqb k key then v else dict_get rest key default
  end.

(** Get Yahoo Finance symbol from common name. *)
Definition get_symbol (name : string) : string :=
  dict_get SYMBOLS (upper name) name.

End DataFetcher.

(* ================================================================== *)
(** ** python_backtest/run_backtest.py: the frame handed to the backtest *)

(** The columns of a frame that hold doubles and may hold [NaN]. *)
Definition float_columns (fr : Frame) : list Series :=
  [
    Indicators.Open fr; Indicators.High fr; Indicators.Low fr;
    Indicators.Close fr; Indicators.Volume fr; Indicators.EMA9 fr;
    Indicators.EMA21 fr; Indicators.EMA50 fr; Indicators.EMA200 fr;
    Indicators.SuperTrend fr; Indicators.ATR fr; Indicators.ATR_SMA fr;
    Indicators.VolRatio fr; Indicators.RSI fr; Indicators.MACD fr;
    Indicators.MACD_Signal fr; Indicators.MACD_Hist fr; Indicators.ADX fr;
    Indicators.DI_Plus fr; Indicators.DI_Minus fr; Indicators.VolumeSMA fr;
    Indicators.RelativeVolume fr; Indicators.VWAP fr; Indicators.PDH fr;
    Indicators.PDL fr; Indicators.PDC fr; Indicators.Pivot fr;
    Indicators.R1 fr; Indicators.R2 fr; Indicators.S1 fr; Indicators.S2 fr;
    Indicators.BodySize fr; Indicators.TotalRange fr;
    Indicators.UpperWick fr; Indicators.LowerWick fr
  ].

(** A row without any missing value. *)
Definition row_complete (fr : Frame) (i : nat) : bool :=
  forallb (fun col => negb (isnan (nth i col NaN))) (float_columns fr).

(** The values of a column on the rows a mask keeps. *)
Definition keep_rows {A : Type} (mask : list bool) (col : list A) : list A :=
  map snd (filter fst (zip_with pair mask col)).

(** [df.dropna()]: the rows that hold a missing value are dropped, in every
    column alike. *)
Definition dropna (fr : Frame) : Frame :=
  let mask := map (row_complete fr) (seq 0 (List.length (Indicators.index fr))) in
  {|
    Indicators.index := keep_rows mask (Indicators.index fr);
    Indicators.Open := keep_rows mask (Indicators.Open fr);
    Indicators.High := keep_rows mask (Indicators.High fr);
    Indicators.Low := keep_rows mask (Indicators.Low fr);
    Indicators.Close := keep_rows mask (Indicators.Close fr);
    Indicators.Volume := keep_rows mask (Indicators.Volume fr);
    Indicators.EMA9 := keep_rows mask (Indicators.EMA9 fr);
    Indicators.EMA21 := keep_rows mask (Indicators.EMA21 fr);
    Indicators.EMA50 := keep_rows mask (Indicators.EMA50 fr);
    Indicators.EMA200 := keep_rows mask (Indicators.EMA200 fr);
    Indicators.BullishStack := keep_rows mask (Indicators.BullishStack fr);
    Indicators.BearishStack := keep_rows mask (Indicators.BearishStack fr);
    Indicators.SuperTrend := keep_rows mask (Indicators.SuperTrend fr);
    Indicators.ST_Direction := keep_rows mask (Indicators.ST_Direction fr);
    Indicators.ST_Bullish := keep_rows mask (Indicators.ST_Bullish fr);
    Indicators.ST_Bearish := keep_rows mask (Indicators.ST_Bearish fr);
    Indicators.ATR := keep_rows mask (Indicators.ATR fr);
    Indicators.ATR_SMA := keep_rows mask (Indicators.ATR_SMA fr);
    Indicators.VolRatio := keep_rows mask (Indicators.VolRatio fr);
    Indicators.VolState := keep_rows mask (Indicators.VolState fr);
    Indicators.RSI := keep_rows mask (Indicators.RSI fr);
    Indicators.MACD := keep_rows mask (Indicators.MACD fr);
    Indicators.MACD_Signal := keep_rows mask (Indicators.MACD_Signal fr);
    Indicators.MACD_Hist := keep_rows mask (Indicators.MACD_Hist fr);
    Indicators.ADX := keep_rows mask (Indicators.ADX fr);
    Indicators.DI_Plus := keep_rows mask (Indicators.DI_Plus fr);
    Indicators.DI_Minus := keep_rows mask (Indicators.DI_Minus fr);
    Indicators.VolumeSMA := keep_rows mask (Indicators.VolumeSMA fr);
    Indicators.VolumeSpike := keep_rows mask (Indicators.VolumeSpike fr);
    Indicators.RelativeVolume := keep_rows mask (Indicators.RelativeVolume fr);
    Indicators.VWAP := keep_rows mask (Indicators.VWAP fr);
    Indicators.PDH := keep_rows mask (Indicators.PDH fr);
    Indicators.PDL := keep_rows mask (Indicators.PDL fr);
    Indicators.PDC := keep_rows mask (Indicators.PDC fr);
    Indicators.Pivot := keep_rows mask (Indicators.Pivot fr);
    Indicators.R1 := keep_rows mask (Indicators.R1 fr);
    Indicators.R2 := keep_rows mask (Indicators.R2 fr);
    Indicators.S1 := keep_rows mask (Indicators.S1 fr);
    Indicators.S2 := keep_rows mask (Indicators.S2 fr);
    Indicators.BodySize := keep_rows mask (Indicators.BodySize fr);
    Indicators.TotalRange := keep_rows mask (Indicators.TotalRange fr);
    Indicators.UpperWick := keep_rows mask (Indicators.UpperWick fr);
    Indicators.LowerWick := keep_rows mask (Indicators.LowerWick fr);
    Indicators.BullishCandle := keep_rows mask (Indicators.BullishCandle fr);
    Indicators.BearishCandle := keep_rows mask (Indicators.BearishCandle fr);
    Indicators.BullishEngulfing := keep_rows mask (Indicators.BullishEngulfing fr);
    Indicators.BearishEngulfing := keep_rows mask (Indicators.BearishEngulfing fr);
    Indicators.Hammer := keep_rows mask (Indicators.Hammer fr);
    Indicators.ShootingStar := keep_rows mask (Indicators.ShootingStar fr);
    Indicators.BreakAbove := keep_rows mask (Indicators.BreakAbove fr);
    Indicators.BreakBelow := keep_rows mask (Indicators.BreakBelow fr);
    Indicators.MTFScore := keep_rows mask (Indicators.MTFScore fr);
    Indicators.Bias := keep_rows mask (Indicators.Bias fr)
  |}.

(** What [run_backtest] and [optimize_strategy] do between fetching the
    bars and building the backtest:
    [df = add_all_indicators(df); df = df.dropna()]. *)
Definition prepare (df : list Bar) : result Frame :=
  fr <- add_all_indicators df None ;;
  Ok (dropna fr).


(* ================================================================== *)
(** ** Notions used in the statements *)

(** The value [100 - 100 / (1 + gain / loss)] on two averages that are not
    negative. *)
Definition rsi_value (gain loss : Qc) : float :=
  (of_Z 100 - (of_Z 100 / (of_Z 1 + Fin gain / Fin loss)))%fl.

(** What the two masked series of [rsi] hold for one delta: the delta where
    it is positive (its opposite where it is negative), zero elsewhere and
    for the missing delta of row 0. *)
Definition gain_part (d : float) : Qc :=
  match d with
  | Fin q => if Qc_ltb 0 q then q else 0%Qc
  | _ => 0%Qc
  end.

Definition loss_part (d : float) : Qc :=
  match d with
  | Fin q => if Qc_ltb q 0 then (- q)%Qc else (- 0)%Qc
  | _ => (- 0)%Qc
  end.

Definition some_gain (w : list float) : bool := existsb (fun d => (d >? zero)%fl) w.
Definition some_loss (w : list float) : bool := existsb (fun d => (d <? zero)%fl) w.

(** The configuration a run uses: the given one, else the default. *)
Definition config_or_default (config : option Config) : Config :=
  match config with None => get_default_config | Some c => c end.

(** The same bars under other index labels. *)
Definition retime (ts : list Z) (df : list Bar) : list Bar :=
  zip_with (fun t b =>
              {| timestamp := t; open := open b; high := high b; low := low b;
                 close := close b; volume := volume b |}) ts df.

(** The same columns under another index. *)
Definition with_index (ts : list Z) (fr : Frame) : Frame := {|
  Indicators.index := ts;
  Indicators.Open := Indicators.Open fr; Indicators.High := Indicators.High fr;
  Indicators.Low := Indicators.Low fr; Indicators.Close := Indicators.Close fr;
  Indicators.Volume := Indicators.Volume fr;
  EMA9 := EMA9 fr; EMA21 := EMA21 fr; EMA50 := EMA50 fr; EMA200 := EMA200 fr;
  Indicators.BullishStack := Indicators.BullishStack fr;
  Indicators.BearishStack := Indicators.BearishStack fr;
  SuperTrend := SuperTrend fr; ST_Direction := ST_Direction fr;
  Indicators.ST_Bullish := Indicators.ST_Bullish fr;
  Indicators.ST_Bearish := Indicators.ST_Bearish fr;
  Indicators.ATR := Indicators.ATR fr; ATR_SMA := ATR_SMA fr;
  VolRatio := VolRatio fr; Indicators.VolState := Indicators.VolState fr;
  Indicators.RSI := Indicators.RSI fr;
  Indicators.MACD := Indicators.MACD fr;
  Indicators.MACD_Signal := Indicators.MACD_Signal fr;
  MACD_Hist := MACD_Hist fr;
  ADX := ADX fr; DI_Plus := DI_Plus fr; DI_Minus := DI_Minus fr;
  VolumeSMA := VolumeSMA fr; Indicators.VolumeSpike := Indicators.VolumeSpike fr;
  RelativeVolume := RelativeVolume fr;
  VWAP := VWAP fr;
  PDH := PDH fr; PDL := PDL fr; PDC := PDC fr;
  Pivot := Pivot fr; R1 := R1 fr; R2 := R2 fr; S1 := S1 fr; S2 := S2 fr;
  BodySize := BodySize fr; TotalRange := TotalRange fr;
  UpperWick := UpperWick fr; LowerWick := LowerWick fr;
  BullishCandle := BullishCandle fr; BearishCandle := BearishCandle fr;
  Indicators.BullishEngulfing := Indicators.BullishEngulfing fr;
  Indicators.BearishEngulfing := Indicators.BearishEngulfing fr;
  Indicators.Hammer := Indicators.Hammer fr;
  Indicators.ShootingStar := Indicators.ShootingStar fr;
  Indicators.BreakAbove := Indicators.BreakAbove fr;
  Indicators.BreakBelow := Indicators.BreakBelow fr;
  Indicators.MTFScore := Indicators.MTFScore fr;
  Indicators.Bias := Indicators.Bias fr
|}.

(** The value of a run that returns, transformed; a failure is kept. *)
Definition result_map {A B : Type} (f : A -> B) (r : result A) : result B :=
  match r with
  | Ok a => Ok (f a)
  | Raise e => Raise e
  end.

(** Index labels in strictly increasing order: sorted and without
    duplicates. *)
Fixpoint strictly_increasing (ts : list Z) : bool :=
  match ts with
  | [] => true
  | t :: rest =>
      match rest with
      | [] => true
      | t' :: _ => (t <? t')%Z && strictly_increasing rest
      end
  end.

(** The lengths a run accepts: spans of at least 1 for the exponential
    means, windows that are not negative for the rolling ones. *)
Definition valid_config (c : Config) : Prop :=
  (1 <= ema9 c /\ 1 <= ema21 c /\ 1 <= ema50 c /\ 1 <= ema200 c /\
   0 <= st_length c /\ 0 <= atr_period c /\ 0 <= rsi_period c /\
   1 <= macd_fast c /\ 1 <= macd_slow c /\ 1 <= macd_signal c /\
   0 <= vol_sma c)%Z.

(** The points a term adds to the score. *)
Definition points (fires : bool) (cap : Z) : Z := if fires then cap else 0%Z.

(** The row [r] with another RSI value. *)
Definition with_RSI (x : float) (r : Row) : Row := {|
  Strategy.Close := Strategy.Close r; Strategy.High := Strategy.High r;
  Strategy.Low := Strategy.Low r; Strategy.ATR := Strategy.ATR r;
  Strategy.RSI := x;
  Strategy.MACD := Strategy.MACD r; Strategy.MACD_Signal := Strategy.MACD_Signal r;
  Strategy.MTFScore := Strategy.MTFScore r;
  Strategy.BullishStack := Strategy.BullishStack r;
  Strategy.BearishStack := Strategy.BearishStack r;
  Strategy.ST_Bullish := Strategy.ST_Bullish r;
  Strategy.ST_Bearish := Strategy.ST_Bearish r;
  Strategy.VolumeSpike := Strategy.VolumeSpike r;
  Strategy.BullishEngulfing := Strategy.BullishEngulfing r;
  Strategy.BearishEngulfing := Strategy.BearishEngulfing r;
  Strategy.Hammer := Strategy.Hammer r;
  Strategy.ShootingStar := Strategy.ShootingStar r;
  Strategy.BreakAbove := Strategy.BreakAbove r;
  Strategy.BreakBelow := Strategy.BreakBelow r;
  Strategy.VolState := Strategy.VolState r;
  Strategy.Bias := Strategy.Bias r
|}.

(** The confirmations of each side that do not read the RSI. *)
Definition bullish_others (r : Row) : Z :=
  count_true [Strategy.BullishStack r; Strategy.ST_Bullish r;
              (Strategy.MACD r >? Strategy.MACD_Signal r)%fl;
              Strategy.VolumeSpike r].

Definition bearish_others (r : Row) : Z :=
  count_true [Strategy.BearishStack r; Strategy.ST_Bearish r;
              (Strategy.MACD r <? Strategy.MACD_Signal r)%fl;
              Strategy.VolumeSpike r].


(* ================================================================== *)
(** ** Sample bars *)

(** A bar with integer prices. *)
Definition bar (t o h l c v : Z) : Bar :=
  {| timestamp := t; open := of_Z o; high := of_Z h; low := of_Z l;
     close := of_Z c; volume := of_Z v |}.

(** A frame of one bar, and one of three rising bars. *)
Definition one_bar : list Bar := [bar 0 10 12 9 11 100].

Definition three_bars : list Bar :=
  [bar 1 10 12 9 11 100; bar 2 11 13 10 12 120; bar 3 12 14 11 13 90].

(** Fifteen equal closes. *)
Definition flat_closes : list Qc := repeat (Q2Qc 5) 15.

(** A bullish bar on which every term of the score is at its cap. *)
Definition full_row : Row := {|
  Strategy.Close := of_Z 100; Strategy.High := of_Z 101; Strategy.Low := of_Z 99;
  Strategy.ATR := of_Z 2; Strategy.RSI := of_Z 55;
  Strategy.MACD := of_Z 1; Strategy.MACD_Signal := of_Z 0;
  Strategy.MTFScore := Some 100%Z;
  Strategy.BullishStack := true; Strategy.BearishStack := false;
  Strategy.ST_Bullish := true; Strategy.ST_Bearish := false;
  Strategy.VolumeSpike := true;
  Strategy.BullishEngulfing := true; Strategy.BearishEngulfing := false;
  Strategy.Hammer := false; Strategy.ShootingStar := false;
  Strategy.BreakAbove := true; Strategy.BreakBelow := false;
  Strategy.VolState := NORMAL; Strategy.Bias := BULLISH
|}.

(** A bullish bar of a flat market: no range at all, so the stop of a long
    entry falls on the close. *)
Definition flat_row : Row := {|
  Strategy.Close := of_Z 10; Strategy.High := of_Z 10; Strategy.Low := of_Z 10;
  Strategy.ATR := of_Z 0; Strategy.RSI := of_Z 55;
  Strategy.MACD := of_Z 1; Strategy.MACD_Signal := of_Z 0;
  Strategy.MTFScore := Some 40%Z;
  Strategy.BullishStack := true; Strategy.BearishStack := false;
  Strategy.ST_Bullish := true; Strategy.ST_Bearish := false;
  Strategy.VolumeSpike := true;
  Strategy.BullishEngulfing := false; Strategy.BearishEngulfing := false;
  Strategy.Hammer := false; Strategy.ShootingStar := false;
  Strategy.BreakAbove := false; Strategy.BreakBelow := false;
  Strategy.VolState := NORMAL; Strategy.Bias := BULLISH
|}.

(** A bullish bar under an extreme volatility state. *)
Definition extreme_row : Row := {|
  Strategy.Close := of_Z 100; Strategy.High := of_Z 101; Strategy.Low := of_Z 99;
  Strategy.ATR := of_Z 2; Strategy.RSI := of_Z 55;
  Strategy.MACD := of_Z 1; Strategy.MACD_Signal := of_Z 0;
  Strategy.MTFScore := Some 40%Z;
  Strategy.BullishStack := true; Strategy.BearishStack := false;
  Strategy.ST_Bullish := true; Strategy.ST_Bearish := false;
  Strategy.VolumeSpike := true;
  Strategy.BullishEngulfing := true; Strategy.BearishEngulfing := false;
  Strategy.Hammer := false; Strategy.ShootingStar := false;
  Strategy.BreakAbove := true; Strategy.BreakBelow := false;
  Strategy.VolState := EXTREME; Strategy.Bias := BULLISH
|}.

(* ================================================================== *)
(** ** Further notions used in the statements *)

(** The smoothing factor of a span: [2 / (span + 1)]. *)
Definition alpha_of (span : Z) : Qc := (Q2Qc 2 / Q2Qc (inject_Z (span + 1)))%Qc.


(** The textbook recurrence of the exponential mean on numbers:
    [e = alpha * q + (1 - alpha) * e_prev], row after row. *)
Fixpoint ewm_rec (alpha prev : Qc) (qs : list Qc) : list Qc :=
  match qs with
  | [] => []
  | q :: rest =>
      let e := (alpha * q + (1 - alpha) * prev)%Qc in
      e :: ewm_rec alpha e rest
  end.

(** The exponential mean of a whole series of numbers. *)
Definition ema_rec (span : Z) (qs : list Qc) : list Qc :=
  match qs with
  | [] => []
  | q :: rest => q :: ewm_rec (alpha_of span) q rest
  end.

(** A bar of numbers whose high is not below its low. *)
Definition well_formed_bar (b : Bar) : bool :=
  match high b, low b, close b with
  | Fin h, Fin l, Fin _ => Qc_leb l h
  | _, _, _ => false
  end.

Section FrameOf.

Local Open Scope float_scope.

(** The frame [add_all_indicators] assembles once the indicator functions
    have returned: the columns computed from the raw bars and from the
    results of [ema], [supertrend], [atr], [sma], [rsi], [macd], [adx] and
    the two rolling extremes. *)
Definition frame_of (df : list Bar) (config : Config)
  (c_ema9 c_ema21 c_ema50 c_ema200 st : Series) (st_dir : list Z)
  (c_atr c_atr_sma c_rsi macd_line signal_line hist : Series)
  (plus_di minus_di adx_val volume_sma high_max5 low_min5 : Series) : Frame :=
  let c_open := map open df in
  let c_high := map high df in
  let c_low := map low df in
  let c_close := map close df in
  let c_volume := map volume df in
  let bullish_stack :=
    band3 (zip_with Float.gtb c_ema9 c_ema21) (zip_with Float.gtb c_ema21 c_ema50)
          (zip_with Float.gtb c_close c_ema200) in
  let bearish_stack :=
    band3 (zip_with Float.ltb c_ema9 c_ema21) (zip_with Float.ltb c_ema21 c_ema50)
          (zip_with Float.ltb c_close c_ema200) in
  let st_bullish := map (fun d => (d =? 1)%Z) st_dir in
  let st_bearish := map (fun d => (d =? -1)%Z) st_dir in
  let vol_ratio := smap2 Float.div c_atr c_atr_sma in
  let c_vol_state := map vol_state vol_ratio in
  let volume_spike :=
    zip_with Float.gtb c_volume (scale (vol_mult config) volume_sma) in
  let relative_volume := smap2 Float.div c_volume volume_sma in
  let c_vwap := vwap c_high c_low c_close c_volume in
  let pdh := shift1 c_high in
  let pdl := shift1 c_low in
  let pdc := shift1 c_close in
  let pivot := map (fun x => x / of_Z 3) (smap2 Float.add (smap2 Float.add pdh pdl) pdc) in
  let two_pivot := map (Float.mul (of_Z 2)) pivot in
  let r1 := smap2 Float.sub two_pivot pdl in
  let r2 := smap2 Float.add pivot (smap2 Float.sub pdh pdl) in
  let s1 := smap2 Float.sub two_pivot pdh in
  let s2 := smap2 Float.sub pivot (smap2 Float.sub pdh pdl) in
  let body_size := map Float.abs (smap2 Float.sub c_close c_open) in
  let total_range := smap2 Float.sub c_high c_low in
  let upper_wick := smap2 Float.sub c_high (row_max2 c_open c_close) in
  let lower_wick := smap2 Float.sub (row_min2 c_open c_close) c_low in
  let bullish_candle := zip_with Float.gtb c_close c_open in
  let bearish_candle := zip_with Float.ltb c_close c_open in
  let bullish_engulfing :=
    band3 (zip_with and_na bullish_candle (shift1_bool bearish_candle))
          (zip_with Float.gtb c_close (shift1 c_open))
          (zip_with Float.ltb c_open (shift1 c_close)) in
  let bearish_engulfing :=
    band3 (zip_with and_na bearish_candle (shift1_bool bullish_candle))
          (zip_with Float.ltb c_close (shift1 c_open))
          (zip_with Float.gtb c_open (shift1 c_close)) in
  let hammer :=
    zip_with andb (zip_with Float.gtb lower_wick (scale (of_Z 2) body_size))
                  (zip_with Float.ltb upper_wick (scale (of_Q (1 # 2)) body_size)) in
  let shooting_star :=
    zip_with andb (zip_with Float.gtb upper_wick (scale (of_Z 2) body_size))
                  (zip_with Float.ltb lower_wick (scale (of_Q (1 # 2)) body_size)) in
  let break_above := zip_with Float.gtb c_close (shift1 high_max5) in
  let break_below := zip_with Float.ltb c_close (shift1 low_min5) in
  let c_mtf :=
    zip_with (fun (st : bool * bool) (sd : bool * bool) =>
                mtf_score (fst st) (snd st) (fst sd) (snd sd))
             (zip_with pair bullish_stack bearish_stack)
             (zip_with pair st_bullish st_bearish) in
  let c_bias := map bias_of c_mtf in
  {|
    Indicators.index := map timestamp df;
    Open := c_open; Indicators.High := c_high; Indicators.Low := c_low; Indicators.Close := c_close;
    Volume := c_volume;
    EMA9 := c_ema9; EMA21 := c_ema21; EMA50 := c_ema50; EMA200 := c_ema200;
    Indicators.BullishStack := bullish_stack; Indicators.BearishStack := bearish_stack;
    SuperTrend := st; ST_Direction := st_dir;
    Indicators.ST_Bullish := st_bullish; Indicators.ST_Bearish := st_bearish;
    Indicators.ATR := c_atr; ATR_SMA := c_atr_sma;
    VolRatio := vol_ratio; Indicators.VolState := c_vol_state;
    Indicators.RSI := c_rsi;
    Indicators.MACD := macd_line; Indicators.MACD_Signal := signal_line; MACD_Hist := hist;
    ADX := adx_val; DI_Plus := plus_di; DI_Minus := minus_di;
    VolumeSMA := volume_sma; Indicators.VolumeSpike := volume_spike;
    RelativeVolume := relative_volume;
    VWAP := c_vwap;
    PDH := pdh; PDL := pdl; PDC := pdc;
    Pivot := pivot; R1 := r1; R2 := r2; S1 := s1; S2 := s2;
    BodySize := body_size; TotalRange := total_range;
    UpperWick := upper_wick; LowerWick := lower_wick;
    BullishCandle := bullish_candle; BearishCandle := bearish_candle;
    Indicators.BullishEngulfing := bullish_engulfing; Indicators.BearishEngulfing := bearish_engulfing;
    Indicators.Hammer := hammer; Indicators.ShootingStar := shooting_star;
    Indicators.BreakAbove := break_above; Indicators.BreakBelow := break_below;
    Indicators.MTFScore := c_mtf; Indicators.Bias := c_bias
  |}.

End FrameOf.

(** The number of rows of every column of a frame, the index first. *)
Definition column_lengths (fr : Frame) : list nat :=
  [
    List.length (Indicators.index fr); List.length (Indicators.Open fr);
    List.length (Indicators.High fr); List.length (Indicators.Low fr);
    List.length (Indicators.Close fr); List.length (Indicators.Volume fr);
    List.length (Indicators.EMA9 fr); List.length (Indicators.EMA21 fr);
    List.length (Indicators.EMA50 fr); List.length (Indicators.EMA200 fr);
    List.length (Indicators.BullishStack fr);
    List.length (Indicators.BearishStack fr);
    List.length (Indicators.SuperTrend fr);
    List.length (Indicators.ST_Direction fr);
    List.length (Indicators.ST_Bullish fr);
    List.length (Indicators.ST_Bearish fr); List.length (Indicators.ATR fr);
    List.length (Indicators.ATR_SMA fr);
    List.length (Indicators.VolRatio fr);
    List.length (Indicators.VolState fr); List.length (Indicators.RSI fr);
    List.length (Indicators.MACD fr);
    List.length (Indicators.MACD_Signal fr);
    List.length (Indicators.MACD_Hist fr); List.length (Indicators.ADX fr);
    List.length (Indicators.DI_Plus fr);
    List.length (Indicators.DI_Minus fr);
    List.length (Indicators.VolumeSMA fr);
    List.length (Indicators.VolumeSpike fr);
    List.length (Indicators.RelativeVolume fr);
    List.length (Indicators.VWAP fr); List.length (Indicators.PDH fr);
    List.length (Indicators.PDL fr); List.length (Indicators.PDC fr);
    List.length (Indicators.Pivot fr); List.length (Indicators.R1 fr);
    List.length (Indicators.R2 fr); List.length (Indicators.S1 fr);
    List.length (Indicators.S2 fr); List.length (Indicators.BodySize fr);
    List.length (Indicators.TotalRange fr);
    List.length (Indicators.UpperWick fr);
    List.length (Indicators.LowerWick fr);
    List.length (Indicators.BullishCandle fr);
    List.length (Indicators.BearishCandle fr);
    List.length (Indicators.BullishEngulfing fr);
    List.length (Indicators.BearishEngulfing fr);
    List.length (Indicators.Hammer fr);
    List.length (Indicators.ShootingStar fr);
    List.length (Indicators.BreakAbove fr);
    List.length (Indicators.BreakBelow fr);
    List.length (Indicators.MTFScore fr); List.length (Indicators.Bias fr)
  ].

(** The orders among the events of a bar. *)
Definition is_order (e : Event) : bool :=
  match e with
  | Buy _ _ _ | Sell _ _ _ => true
  | _ => false
  end.

(** The integer the MTF term adds to the quality score, and the points of
    the eight flags. *)
Definition mtf_points (r : Row) : Z :=
  match Strategy.MTFScore r with
  | Some m => Z.min 20 (Z.abs m / 5)
  | None => 0%Z
  end.

Definition flag_points (r : Row) : Z :=
  (points (fires_stack r) 15 + points (fires_supertrend r) 10
   + points (fires_rsi r) 10 + points (fires_macd r) 10
   + points (fires_volume r) 10 + points (fires_candle r) 10
   + points (fires_break r) 10 + points (fires_normal_vol r) 5)%Z.

(** The rows whose low and high are numbers. *)
Definition finite_range (r : Row) : bool :=
  isfinite (Strategy.Low r) && isfinite (Strategy.High r).

(** The reward:risk [next] computes for the side it considers. *)
Definition reward_risk (is_long : bool) (close sl tp2 : float) : float :=
  if is_long then reward_risk_long close sl tp2 else reward_risk_short close sl tp2.

(** What an order has gone through when [next] places it: no position is
    open, the volatility state is not vetoed, the score is at least
    [min_quality], the order is on the side of the bias with at least three
    confirmations of that side, it risks half of the equity, its stop and
    target are the stop and the second target of [get_sl_tp], and their
    reward:risk is at least [min_rr]. *)
Definition gated (self : TradeExpertPro) (e : Event) : Prop :=
  position self = false /\
  exists (r : Row) (q : Z) (is_long : bool) (sl tp1 tp2 tp3 : float),
    last_row self = Ok r /\
    Strategy.VolState r <> ULTRA_LOW /\ Strategy.VolState r <> EXTREME /\
    get_quality_score self = Ok (q, [QualityScore]) /\
    (min_quality self <= q)%Z /\
    Strategy.Bias r = (if is_long then BULLISH else BEARISH) /\
    (3 <= (if is_long then bullish_confirmations r
           else bearish_confirmations r))%Z /\
    get_sl_tp self is_long = Ok ((sl, tp1, tp2, tp3), [SlTp is_long]) /\
    (reward_risk is_long (Strategy.Close r) sl tp2 >=? min_rr self)%fl = true /\
    e = (if is_long then Buy (of_Q (1 # 2)) sl tp2
         else Sell (of_Q (1 # 2)) sl tp2).

(** A value that is missing or a number that is not negative, and the
    same with [+inf] allowed. *)
Definition missing_or_nonneg (x : float) : Prop :=
  x = NaN \/ exists q, x = Fin q /\ (0 <= q)%Qc.

Definition missing_inf_or_nonneg (x : float) : Prop :=
  x = NaN \/ x = PInf \/ exists q, x = Fin q /\ (0 <= q)%Qc.

(* ================================================================== *)
(** ** Further sample bars *)

(** Six rising bars. *)
Definition six_bars : list Bar :=
  [bar 1 10 12 9 11 100; bar 2 11 13 10 12 120; bar 3 12 14 11 13 90;
   bar 4 13 15 12 14 150; bar 5 14 16 13 15 80; bar 6 15 17 14 18 200].

(** Two bars on which EMA9 crosses above EMA21 in an uptrend. *)
Definition crossing_rows : list Simple.Row := [
  {| Simple.EMA9 := of_Z 98; Simple.EMA21 := of_Z 99;
     Simple.ST_Bullish := true; Simple.ST_Bearish := false;
     Simple.Close := of_Z 99; Simple.ATR := of_Z 2 |};
  {| Simple.EMA9 := of_Z 100; Simple.EMA21 := of_Z 99;
     Simple.ST_Bullish := true; Simple.ST_Bearish := false;
     Simple.Close := of_Z 100; Simple.ATR := of_Z 2 |}
].

(* ================================================================== *)
(** * Properties *)

(** ** Rational arithmetic behind the doubles *)

Section QcFacts.

Lemma this_Q2Qc (q : Q) : (this (Q2Qc q) == q)%Q.
Proof. simpl. apply Qred_correct. Qed.

Lemma this_plus (a b : Qc) : (this (a + b)%Qc == this a + this b)%Q.
Proof. unfold Qcplus. apply this_Q2Qc. Qed.

Lemma this_mult (a b : Qc) : (this (a * b)%Qc == this a * this b)%Q.
Proof. unfold Qcmult. apply this_Q2Qc. Qed.

Lemma this_opp (a : Qc) : (this (- a)%Qc == - this a)%Q.
Proof. unfold Qcopp. apply this_Q2Qc. Qed.

Lemma this_inv (a : Qc) : (this (/ a)%Qc == / this a)%Q.
Proof. unfold Qcinv. apply this_Q2Qc. Qed.

Lemma this_minus (a b : Qc) : (this (a - b)%Qc == this a - this b)%Q.
Proof. unfold Qcminus. rewrite this_plus, this_opp. reflexivity. Qed.

Lemma this_div (a b : Qc) : (this (a / b)%Qc == this a / this b)%Q.
Proof. unfold Qcdiv. rewrite this_mult, this_inv. reflexivity. Qed.

Lemma Qc_ltb_lt (a b : Qc) : Qc_ltb a b = true <-> (a < b)%Qc.
Proof.
  unfold Qc_ltb. rewrite Qclt_alt.
  destruct (a ?= b)%Qc; split; congruence.
Qed.

Lemma Qc_ltb_ge (a b : Qc) : Qc_ltb a b = false <-> (b <= a)%Qc.
Proof.
  split; intro H.
  - apply Qcnot_lt_le. intro L. apply Qc_ltb_lt in L. congruence.
  - destruct (Qc_ltb a b) eqn:E; [|reflexivity].
    apply Qc_ltb_lt in E. exfalso. exact (Qcle_not_lt _ _ H E).
Qed.

Lemma Qc_eqb_eq (a b : Qc) : Qc_eqb a b = true <-> a = b.
Proof.
  unfold Qc_eqb. rewrite Qceq_alt.
  destruct (a ?= b)%Qc; split; congruence.
Qed.

Lemma Qc_eqb_neq (a b : Qc) : Qc_eqb a b = false <-> a <> b.
Proof.
  split; intro H.
  - intro E. apply Qc_eqb_eq in E. congruence.
  - destruct (Qc_eqb a b) eqn:E; [|reflexivity].
    apply Qc_eqb_eq in E. contradiction.
Qed.

End QcFacts.

(** Moves an order statement on [Qc] to [Q], where [lra] applies. *)
Ltac qc2q :=
  unfold Qcle, Qclt in *;
  repeat (rewrite ?this_plus, ?this_minus, ?this_mult, ?this_div,
            ?this_opp, ?this_inv, ?this_Q2Qc in * ).

(** ** Length-1 smoothing *)

Section LengthOne.

Lemma alpha_span_1 : (Q2Qc 2 / Q2Qc (inject_Z (1 + 1)))%Qc = 1%Qc.
Proof. apply Qc_is_canon. reflexivity. Qed.

Lemma ewm_step_alpha_1 (w c : Qc) :
  ewm_step 1%Qc (Fin w) 1%Qc (Fin c) = (Fin c, 1%Qc).
Proof.
  assert (Hne : (1 * (1 - 1) + 1)%Qc <> 0%Qc).
  { intro H. apply (f_equal this) in H. discriminate H. }
  unfold ewm_step. cbn [isnan negb Float.eqb].
  destruct (Qc_eqb w c) eqn:E.
  - apply Qc_eqb_eq in E. now subst.
  - cbn [Float.mul Float.add Float.div].
    apply Qc_eqb_neq in Hne as ->.
    do 2 f_equal. now field.
Qed.

Lemma ewm_loop_alpha_1 (qs : list Qc) (w : Qc) :
  ewm_loop 1%Qc (Fin w) 1%Qc (map Fin qs) = map Fin qs.
Proof.
  revert w. induction qs as [|q qs IH]; intro w; [reflexivity|].
  cbn [map ewm_loop]. rewrite ewm_step_alpha_1. now rewrite IH.
Qed.

Lemma ema_length_1 (qs : list Qc) : ema (map Fin qs) 1 = Ok (map Fin qs).
Proof.
  unfold ema, ewm_mean. cbn [Z.ltb Z.compare].
  rewrite alpha_span_1.
  destruct qs as [|q qs]; [reflexivity|].
  cbn [map]. now rewrite ewm_loop_alpha_1.
Qed.

Lemma mean_singleton (q : Qc) : mean [q] = Fin q.
Proof.
  unfold mean, Qc_sum. cbn [fold_right List.length].
  f_equal. unfold Qc_of_nat.
  change (Q2Qc (inject_Z (Z.of_nat 1))) with 1%Qc.
  field. intro H. apply (f_equal this) in H. discriminate H.
Qed.

Lemma rolling_agg_window_1 (agg : list Qc -> float) (s : Series) :
  rolling_agg agg 1 s =
  map (fun x => match finite_values [x] with Some qs => agg qs | None => NaN end) s.
Proof.
  unfold rolling_agg.
  induction s as [|x s IH]; [reflexivity|].
  cbn [List.length seq map]. f_equal.
  rewrite <- seq_shift, map_map. rewrite <- IH.
  apply map_ext. intro i. unfold window. cbn [Nat.leb].
  replace (S (S i) - 1)%nat with (S i) by lia.
  replace (S i - 1)%nat with i by lia. reflexivity.
Qed.

Lemma sma_length_1 (qs : list Qc) : sma (map Fin qs) 1 = Ok (map Fin qs).
Proof.
  unfold sma, rolling_mean. cbn [Z.ltb Z.compare].
  change (Z.to_nat 1) with 1%nat.
  rewrite rolling_agg_window_1, map_map. f_equal.
  apply map_ext. intro q. cbn [finite_values fold_right].
  apply mean_singleton.
Qed.

End LengthOne.

(** C9.  For every series of (finite) values, [ema(series, 1)] and
    [sma(series, 1)] both return the input series, value for value. *)
Theorem C9_length_one_smoothing_is_identity (qs : list Qc) :
  ema (map Fin qs) 1 = Ok (map Fin qs) /\ sma (map Fin qs) 1 = Ok (map Fin qs).
Proof. split; [apply ema_length_1 | apply sma_length_1]. Qed.

(** ** Lists: lengths and positions *)

Section ListFacts.

Context {A B C : Type}.

Lemma zip_with_length (f : A -> B -> C) (xs : list A) (ys : list B) :
  List.length (zip_with f xs ys) = Nat.min (List.length xs) (List.length ys).
Proof.
  revert ys. induction xs as [|x xs IH]; intros [|y ys]; cbn; auto.
Qed.

Lemma zip_with_nth_error (f : A -> B -> C) (xs : list A) (ys : list B) (i : nat) :
  nth_error (zip_with f xs ys) i =
  match nth_error xs i, nth_error ys i with
  | Some x, Some y => Some (f x y)
  | _, _ => None
  end.
Proof.
  revert ys i. induction xs as [|x xs IH]; intros [|y ys] [|i]; cbn; auto;
    now destruct (nth_error xs i).
Qed.

Lemma zip_with_nth (f : A -> B -> C) (xs : list A) (ys : list B) (i : nat)
  (da : A) (db : B) (dc : C) :
  (i < List.length xs)%nat -> (i < List.length ys)%nat ->
  nth i (zip_with f xs ys) dc = f (nth i xs da) (nth i ys db).
Proof.
  revert ys i. induction xs as [|x xs IH]; intros [|y ys] [|i]; cbn; intros; try lia; auto.
  apply IH; lia.
Qed.

End ListFacts.

Lemma shift1_length (s : Series) : List.length (shift1 s) = List.length s.
Proof.
  destruct s as [|x s]; [reflexivity|].
  unfold shift1. cbn [List.length]. f_equal.
  rewrite removelast_firstn_len, length_firstn. cbn [List.length]. lia.
Qed.

Lemma rolling_agg_length (agg : list Qc -> float) (n : nat) (s : Series) :
  List.length (rolling_agg agg n s) = List.length s.
Proof. unfold rolling_agg. now rewrite length_map, length_seq. Qed.

Lemma rolling_mean_ok (n : Z) (s : Series) :
  (0 <= n)%Z -> rolling_mean n s = Ok (rolling_agg mean (Z.to_nat n) s).
Proof.
  intro H. unfold rolling_mean.
  destruct (n <? 0)%Z eqn:E; [apply Z.ltb_lt in E; lia | reflexivity].
Qed.

(** ** SuperTrend *)

Section SuperTrendFacts.

Variable df : list Bar.
Variable length : Z.
Variable multiplier : float.

Let highs := map high df.
Let lows := map low df.
Let closes := map close df.

Lemma atr_ok :
  (0 <= length)%Z ->
  exists atr_val,
    atr highs lows closes length = Ok atr_val /\
    List.length atr_val = List.length df.
Proof.
  intro H. unfold atr. rewrite rolling_mean_ok by exact H.
  eexists; split; [reflexivity|].
  rewrite rolling_agg_length. unfold row_max3, smap2.
  rewrite !zip_with_length, !length_map, !zip_with_length, shift1_length.
  subst highs lows closes. rewrite !length_map. lia.
Qed.

Lemma bands_length (atr_val : Series) :
  List.length atr_val = List.length df ->
  List.length (upper_band highs lows atr_val multiplier) = List.length df /\
  List.length (lower_band highs lows atr_val multiplier) = List.length df.
Proof.
  intro H. unfold upper_band, lower_band, hl2, smap2.
  rewrite !zip_with_length, !length_map, !zip_with_length, H.
  subst highs lows. rewrite !length_map. lia.
Qed.

End SuperTrendFacts.

(** The loop of [supertrend], row by row: row [i+1] of the output is the
    step applied to the close and the band of row [i]. *)
Lemma supertrend_loop_row (rest : list (float * (float * float))) :
  forall (c0 s0 : float) (d0 : Z) (i : nat) (ci ui li : float),
    nth_error rest i = Some (ci, (ui, li)) ->
    exists cp sp dp,
      nth_error (c0 :: map fst rest) i = Some cp /\
      nth_error ((s0, d0) :: supertrend_loop c0 s0 rest) i = Some (sp, dp) /\
      nth_error ((s0, d0) :: supertrend_loop c0 s0 rest) (S i) =
        Some (supertrend_step cp sp ci ui li).
Proof.
  induction rest as [|[c1 [u1 l1]] rest IH]; intros c0 s0 d0 i ci ui li H.
  - destruct i; discriminate H.
  - destruct i as [|i].
    + cbn in H. injection H as -> -> ->.
      exists c0, s0, d0. cbn. auto.
    + cbn [nth_error] in H.
      cbn [supertrend_loop map fst].
      set (r := supertrend_step c0 s0 c1 u1 l1).
      destruct (IH c1 (fst r) (snd r) i ci ui li H) as (cp & sp & dp & Hc & Hs & Hn).
      exists cp, sp, dp.
      rewrite <- surjective_pairing in Hs, Hn.
      cbn [nth_error]. auto.
Qed.

Lemma rows_nth_error (cs us ls : Series) (i : nat) (c u l : float) :
  nth_error (zip_with pair cs (zip_with pair us ls)) i = Some (c, (u, l)) ->
  nth_error cs i = Some c /\ nth_error us i = Some u /\ nth_error ls i = Some l.
Proof.
  rewrite !zip_with_nth_error.
  destruct (nth_error cs i), (nth_error us i), (nth_error ls i); try discriminate.
  intro H. injection H as -> -> ->. auto.
Qed.

Section SuperTrendRun.

Variable df : list Bar.
Variable length : Z.
Variable multiplier : float.
Hypothesis length_nonneg : (0 <= length)%Z.

Let highs := map high df.
Let lows := map low df.
Let closes := map close df.

(** On a frame with at least one row [supertrend] returns, and its output
    is the seed row followed by the rows of the loop. *)
Lemma supertrend_ok :
  df <> [] ->
  exists atr_val c0 u0 l0 rest,
    atr highs lows closes length = Ok atr_val /\
    zip_with pair closes
      (zip_with pair (upper_band highs lows atr_val multiplier)
                     (lower_band highs lows atr_val multiplier))
      = (c0, (u0, l0)) :: rest /\
    List.length rest = pred (List.length df) /\
    supertrend highs lows closes length multiplier =
      Ok (map fst ((u0, 1%Z) :: supertrend_loop c0 u0 rest),
          map snd ((u0, 1%Z) :: supertrend_loop c0 u0 rest)).
Proof.
  intro Hne.
  destruct (atr_ok df length length_nonneg) as (atr_val & Hatr & Hlen).
  fold highs lows closes in Hatr.
  destruct (bands_length df multiplier atr_val Hlen) as [Hu Hl].
  fold highs lows in Hu, Hl.
  set (rows := zip_with pair closes
                 (zip_with pair (upper_band highs lows atr_val multiplier)
                                (lower_band highs lows atr_val multiplier))).
  assert (Hrows : List.length rows = List.length df).
  { unfold rows. rewrite !zip_with_length, Hu, Hl.
    subst closes. rewrite length_map. lia. }
  destruct rows as [|[c0 [u0 l0]] rest] eqn:E.
  - destruct df; [contradiction | discriminate Hrows].
  - exists atr_val, c0, u0, l0, rest. repeat split; auto.
    + cbn in Hrows. lia.
    + unfold supertrend. rewrite Hatr. cbn [bind].
      fold rows. rewrite E. reflexivity.
Qed.

Lemma supertrend_length (st : Series) (dir : list Z) :
  supertrend highs lows closes length multiplier = Ok (st, dir) ->
  List.length st = List.length df /\ List.length dir = List.length df.
Proof.
  assert (Hloop : forall rs c s, List.length (supertrend_loop c s rs) = List.length rs).
  { induction rs as [|[c1 [u1 l1]] rs IH]; intros c s; cbn; auto. }
  destruct (Nat.eq_dec (List.length df) 0) as [Hz|Hnz].
  - apply length_zero_iff_nil in Hz.
    unfold supertrend, atr. rewrite rolling_mean_ok by exact length_nonneg.
    subst highs lows closes. rewrite Hz. cbn. discriminate.
  - assert (Hne : df <> []) by (intros ->; now apply Hnz).
    destruct (supertrend_ok Hne) as (a & c0 & u0 & l0 & rest & _ & _ & Hlen & Hst).
    rewrite Hst. intro H. injection H as <- <-.
    cbn [List.length]. rewrite !length_map, Hloop, Hlen. lia.
Qed.

End SuperTrendRun.

(** C1.  The seed state of SuperTrend as the code writes it: on every frame
    with at least one row (and a non-negative ATR length) the computation
    returns, and its row 0 holds the band value [upper_band[0]] and the
    direction [+1], the value the loop gives to uptrend rows; the
    specification names the seed direction DOWNTREND ([-1]). *)
Theorem C1_supertrend_seed_state (df : list Bar) (length : Z) (multiplier : float) :
  df <> [] -> (0 <= length)%Z ->
  exists atr_val st dir u0,
    atr (map high df) (map low df) (map close df) length = Ok atr_val /\
    supertrend (map high df) (map low df) (map close df) length multiplier
      = Ok (st, dir) /\
    nth_error (upper_band (map high df) (map low df) atr_val multiplier) 0 = Some u0 /\
    nth_error st 0 = Some u0 /\
    nth_error dir 0 = Some 1%Z.
Proof.
  intros Hne Hlen.
  destruct (supertrend_ok df length multiplier Hlen Hne)
    as (a & c0 & u0 & l0 & rest & Hatr & Hrows & _ & Hst).
  eexists a, _, _, u0. repeat split; [exact Hatr | exact Hst | | reflexivity | reflexivity].
  assert (H0 : nth_error ((c0, (u0, l0)) :: rest) 0 = Some (c0, (u0, l0))) by reflexivity.
  rewrite <- Hrows in H0. apply rows_nth_error in H0. tauto.
Qed.

Lemma C1_supertrend_seed_state_witness :
  one_bar <> [] /\ (0 <= 10)%Z /\
  exists atr_val st dir u0,
    atr (map high one_bar) (map low one_bar) (map close one_bar) 10 = Ok atr_val /\
    supertrend (map high one_bar) (map low one_bar) (map close one_bar) 10 (of_Z 3)
      = Ok (st, dir) /\
    nth_error (upper_band (map high one_bar) (map low one_bar) atr_val (of_Z 3)) 0
      = Some u0 /\
    nth_error st 0 = Some u0 /\
    nth_error dir 0 = Some 1%Z.
Proof.
  split; [discriminate|]. split; [lia|].
  apply (C1_supertrend_seed_state one_bar 10 (of_Z 3)); [discriminate | lia].
Defined.

(** C1 with the seed direction [-1] of the specification does not hold: on
    a one-bar frame with the default parameters the direction of row 0 is
    [+1]. *)
Lemma C1_seed_direction_counterexample :
  exists st dir,
    supertrend (map high one_bar) (map low one_bar) (map close one_bar) 10 (of_Z 3)
      = Ok (st, dir) /\
    nth_error dir 0 = Some 1%Z /\
    nth_error dir 0 <> Some (-1)%Z.
Proof.
  eexists _, _. split; [reflexivity|]. split; [reflexivity|]. discriminate.
Qed.

(** ** The order on doubles and Python's [min] and [max] *)

Section FloatOrder.

Lemma Qc_ltb_irrefl (a : Qc) : Qc_ltb a a = false.
Proof. apply Qc_ltb_ge, Qcle_refl. Qed.

Lemma ltb_irrefl (x : float) : (x <? x)%fl = false.
Proof. destruct x; cbn; auto using Qc_ltb_irrefl. Qed.

Lemma leb_not_nan (x y : float) :
  (x <=? y)%fl = true -> isnan x = false /\ isnan y = false.
Proof. destruct x, y; cbn; auto; discriminate. Qed.

Lemma ltb_not_nan (x y : float) :
  (x <? y)%fl = true -> isnan x = false /\ isnan y = false.
Proof. destruct x, y; cbn; auto; discriminate. Qed.

Lemma ltb_false_leb (x y : float) :
  isnan x = false -> isnan y = false -> (x <? y)%fl = false -> (y <=? x)%fl = true.
Proof.
  unfold Float.leb.
  destruct x as [a| | |], y as [b| | |]; cbn; try discriminate; auto.
  intros _ _ H. apply Qc_ltb_ge in H.
  destruct (Qcle_lt_or_eq _ _ H) as [L|E].
  - apply Qc_ltb_lt in L. now rewrite L.
  - apply Qc_eqb_eq in E. rewrite E. apply orb_true_r.
Qed.

Lemma leb_refl (x : float) : isnan x = false -> (x <=? x)%fl = true.
Proof. intro H. apply ltb_false_leb; auto using ltb_irrefl. Qed.

(** [min(a, b)] never compares above its second argument, whatever the
    values; between two numbers it is the smaller one. *)
Lemma py_min2_not_above (a b : float) : (py_min2 a b >? b)%fl = false.
Proof.
  unfold py_min2, Float.gtb.
  destruct (b <? a)%fl eqn:E; [apply ltb_irrefl | exact E].
Qed.

Lemma py_min2_choice (a b : float) : py_min2 a b = a \/ py_min2 a b = b.
Proof. unfold py_min2. destruct (b <? a)%fl; auto. Qed.

Lemma py_min2_lower (a b : float) :
  isnan a = false -> isnan b = false ->
  (py_min2 a b <=? a)%fl = true /\ (py_min2 a b <=? b)%fl = true.
Proof.
  intros Ha Hb. unfold py_min2.
  destruct (b <? a)%fl eqn:E.
  - split; [unfold Float.leb; now rewrite E | now apply leb_refl].
  - split; [now apply leb_refl | now apply ltb_false_leb].
Qed.

Lemma py_max2_not_below (a b : float) : (py_max2 a b <? b)%fl = false.
Proof.
  unfold py_max2, Float.gtb.
  destruct (a <? b)%fl eqn:E; [apply ltb_irrefl | exact E].
Qed.

Lemma py_max2_choice (a b : float) : py_max2 a b = a \/ py_max2 a b = b.
Proof. unfold py_max2, Float.gtb. destruct (a <? b)%fl; auto. Qed.

Lemma py_max2_upper (a b : float) :
  isnan a = false -> isnan b = false ->
  (a <=? py_max2 a b)%fl = true /\ (b <=? py_max2 a b)%fl = true.
Proof.
  intros Ha Hb. unfold py_max2, Float.gtb.
  destruct (a <? b)%fl eqn:E.
  - split; [unfold Float.leb; now rewrite E | now apply leb_refl].
  - split; [now apply leb_refl | now apply ltb_false_leb].
Qed.

End FloatOrder.

(** ** The transition rule of SuperTrend *)

Lemma nth_map_fst {A B : Type} (l : list (A * B)) (i : nat) (x : A) (y : B) (d : A) :
  nth_error l i = Some (x, y) -> nth i (map fst l) d = x.
Proof.
  intro H. apply nth_error_nth. now rewrite nth_error_map, H.
Qed.

Lemma nth_map_snd {A B : Type} (l : list (A * B)) (i : nat) (x : A) (y : B) (d : B) :
  nth_error l i = Some (x, y) -> nth i (map snd l) d = y.
Proof.
  intro H. apply nth_error_nth. now rewrite nth_error_map, H.
Qed.

(** Every row after the first is the step applied to its predecessor. *)
Lemma supertrend_rows (df : list Bar) (length : Z) (multiplier : float) (i : nat) :
  (0 <= length)%Z -> (S i < List.length df)%nat ->
  exists atr_val st dir,
    atr (map high df) (map low df) (map close df) length = Ok atr_val /\
    supertrend (map high df) (map low df) (map close df) length multiplier
      = Ok (st, dir) /\
    (nth (S i) st NaN, nth (S i) dir 0%Z) =
      supertrend_step
        (nth i (map close df) NaN) (nth i st NaN)
        (nth (S i) (map close df) NaN)
        (nth (S i) (upper_band (map high df) (map low df) atr_val multiplier) NaN)
        (nth (S i) (lower_band (map high df) (map low df) atr_val multiplier) NaN).
Proof.
  intros Hlen Hi.
  assert (Hne : df <> []) by (intros ->; cbn in Hi; lia).
  destruct (supertrend_ok df length multiplier Hlen Hne)
    as (a & c0 & u0 & l0 & rest & Hatr & Hrows & Hrest & Hst).
  exists a. eexists _, _. split; [exact Hatr|]. split; [exact Hst|].
  destruct (nth_error rest i) as [[ci [ui li]]|] eqn:Ei.
  2:{ apply nth_error_None in Ei. lia. }
  destruct (supertrend_loop_row rest c0 u0 1%Z i ci ui li Ei)
    as (cp & sp & dp & Hcp & Hsp & Hnext).
  set (out := (u0, 1%Z) :: supertrend_loop c0 u0 rest) in *.
  assert (Hrow : nth_error ((c0, (u0, l0)) :: rest) (S i) = Some (ci, (ui, li)))
    by exact Ei.
  rewrite <- Hrows in Hrow. apply rows_nth_error in Hrow.
  destruct Hrow as (Hc & Hu & Hl).
  assert (Hprev : nth_error (map close df) i = Some cp).
  { change (c0 :: map fst rest) with (map fst ((c0, (u0, l0)) :: rest)) in Hcp.
    rewrite <- Hrows, nth_error_map in Hcp.
    match type of Hcp with
    | option_map _ ?o = _ => destruct o as [[c [u l]]|] eqn:E; [|discriminate]
    end.
    apply rows_nth_error in E. cbn in Hcp. injection Hcp as <-. tauto. }
  rewrite (nth_error_nth _ _ NaN Hc), (nth_error_nth _ _ NaN Hu),
    (nth_error_nth _ _ NaN Hl), (nth_error_nth _ _ NaN Hprev).
  rewrite (nth_map_fst out i sp dp NaN Hsp).
  destruct (supertrend_step cp sp ci ui li) as [b d] eqn:Es.
  now rewrite (nth_map_fst out (S i) b d NaN Hnext), (nth_map_snd out (S i) b d 0%Z Hnext).
Qed.

(** C4.  The transition rule of SuperTrend at every row [i+1].  When the
    previous close is at or below the previous band (downtrend regime) the
    candidate is [upper_band[i+1]]: the row is an uptrend row with band
    [lower_band[i+1]] exactly when the close is above the candidate, and
    otherwise a downtrend row whose band is [min(candidate, previous band)],
    which is not above the previous band.  In the other regime the candidate
    is [lower_band[i+1]], the flip is on a close below it, and the band of a
    row that stays in the uptrend is [max(candidate, previous band)], which
    is not below the previous band. *)
Theorem C4_supertrend_transition_rule
  (df : list Bar) (length : Z) (multiplier : float) (i : nat) :
  (0 <= length)%Z -> (S i < List.length df)%nat ->
  exists atr_val st dir,
    atr (map high df) (map low df) (map close df) length = Ok atr_val /\
    supertrend (map high df) (map low df) (map close df) length multiplier
      = Ok (st, dir) /\
    let upper := nth (S i) (upper_band (map high df) (map low df) atr_val multiplier) NaN in
    let lower := nth (S i) (lower_band (map high df) (map low df) atr_val multiplier) NaN in
    let close_prev := nth i (map close df) NaN in
    let band_prev := nth i st NaN in
    let close_i := nth (S i) (map close df) NaN in
    let band := nth (S i) st NaN in
    let direction := nth (S i) dir 0%Z in
    ((close_prev <=? band_prev)%fl = true ->
       (direction = 1%Z <-> (close_i >? upper)%fl = true) /\
       ((close_i >? upper)%fl = true -> band = lower) /\
       ((close_i >? upper)%fl = false ->
          direction = (-1)%Z /\ band = py_min2 upper band_prev /\
          (band >? band_prev)%fl = false /\
          (isnan upper = false ->
             (band <=? band_prev)%fl = true /\ (band <=? upper)%fl = true))) /\
    ((close_prev <=? band_prev)%fl = false ->
       (direction = (-1)%Z <-> (close_i <? lower)%fl = true) /\
       ((close_i <? lower)%fl = true -> band = upper) /\
       ((close_i <? lower)%fl = false ->
          direction = 1%Z /\ band = py_max2 lower band_prev /\
          (band <? band_prev)%fl = false /\
          (isnan lower = false -> isnan band_prev = false ->
             (band_prev <=? band)%fl = true /\ (lower <=? band)%fl = true))).
Proof.
  intros Hlen Hi.
  destruct (supertrend_rows df length multiplier i Hlen Hi)
    as (a & st & dir & Hatr & Hst & Hstep).
  exists a, st, dir. split; [exact Hatr|]. split; [exact Hst|].
  cbv zeta. revert Hstep.
  generalize (nth (S i) (upper_band (map high df) (map low df) a multiplier) NaN).
  generalize (nth (S i) (lower_band (map high df) (map low df) a multiplier) NaN).
  generalize (nth i (map close df) NaN) (nth i st NaN) (nth (S i) (map close df) NaN).
  generalize (nth (S i) st NaN) (nth (S i) dir 0%Z).
  intros b d cp bp c lo up Hstep.
  unfold supertrend_step in Hstep.
  split; intro Hreg; rewrite Hreg in Hstep.
  - destruct (c >? up)%fl eqn:Ec; injection Hstep as -> ->.
    + repeat split; auto; discriminate.
    + split; [split; discriminate|]. split; [discriminate|]. intros _.
      split; [reflexivity|]. split; [reflexivity|].
      split; [apply py_min2_not_above|].
      intro Hup. apply leb_not_nan in Hreg as [_ Hbp].
      destruct (py_min2_lower up bp Hup Hbp). auto.
  - destruct (c <? lo)%fl eqn:Ec; injection Hstep as -> ->.
    + repeat split; auto; discriminate.
    + split; [split; discriminate|]. split; [discriminate|]. intros _.
      split; [reflexivity|]. split; [reflexivity|].
      split; [apply py_max2_not_below|].
      intros Hlo Hbp.
      destruct (py_max2_upper lo bp Hlo Hbp). auto.
Qed.

(** ** RSI *)

Section RsiArithmetic.

Lemma Q_rsi_bound (g l : Q) :
  (0 <= g -> 0 < l ->
   0 <= 100 - 100 / (1 + g / l) /\ 100 - 100 / (1 + g / l) <= 100)%Q.
Proof.
  intros Hg Hl.
  assert (Hx : (0 <= g / l)%Q) by (apply Qle_shift_div_l; [exact Hl | lra]).
  set (x := (1 + g / l)%Q).
  assert (Hpos : (0 < x)%Q) by (unfold x; lra).
  assert (Hd : (0 <= 100 / x)%Q) by (apply Qle_shift_div_l; [exact Hpos | lra]).
  assert (Hd2 : (100 / x <= 100)%Q).
  { apply Qle_shift_div_r; [exact Hpos | unfold x; nra]. }
  split; lra.
Qed.

Lemma Qc_div_nonneg (a n : Qc) : (0 <= a -> 0 < n -> 0 <= a / n)%Qc.
Proof.
  intros Ha Hn. qc2q.
  apply Qle_shift_div_l; [exact Hn | lra].
Qed.

Lemma Qc_div_pos (a n : Qc) : (0 < a -> 0 < n -> 0 < a / n)%Qc.
Proof.
  intros Ha Hn. qc2q.
  apply Qlt_shift_div_l; [exact Hn | lra].
Qed.

Lemma Qc_div_zero (n : Qc) : (0 / n)%Qc = 0%Qc.
Proof. unfold Qcdiv. apply Qcmult_0_l. Qed.

Lemma Qc_lt_neq (a : Qc) : (0 < a)%Qc -> a <> 0%Qc.
Proof. intros H E. subst. exact (Qclt_not_eq _ _ H eq_refl). Qed.

Lemma rsi_value_flat : rsi_value 0 0 = NaN.
Proof. reflexivity. Qed.

Lemma rsi_value_no_loss (g : Qc) : (0 < g)%Qc -> rsi_value g 0 = of_Z 100.
Proof.
  intro Hg. unfold rsi_value. cbn [Float.div].
  change (Qc_eqb 0 0) with true. cbv iota.
  apply Qclt_alt in Hg.
  assert (Hc : (g ?= 0)%Qc = Gt).
  { unfold Qccompare in *. rewrite <- Qgt_alt. now apply Qlt_alt. }
  rewrite Hc. reflexivity.
Qed.

Lemma rsi_value_bounded (g l : Qc) :
  (0 <= g)%Qc -> (0 < l)%Qc ->
  exists q, rsi_value g l = Fin q /\ (Q2Qc 0 <= q)%Qc /\ (q <= Q2Qc 100)%Qc.
Proof.
  intros Hg Hl. unfold rsi_value. cbn [Float.div].
  assert (Hl0 : Qc_eqb l 0 = false) by now apply Qc_eqb_neq, Qc_lt_neq.
  rewrite Hl0.
  unfold of_Z. cbn [Float.add Float.div].
  assert (Hx : (Q2Qc (inject_Z 1) + g / l)%Qc <> 0%Qc).
  { apply Qc_lt_neq. pose proof (Qc_div_nonneg g l Hg Hl) as Hd.
    qc2q. change (inject_Z 1) with 1%Q. lra. }
  apply Qc_eqb_neq in Hx. rewrite Hx. cbn [Float.sub Float.neg Float.add].
  eexists; split; [reflexivity|].
  qc2q. change (inject_Z 100) with 100%Q. change (inject_Z 1) with 1%Q.
  pose proof (Q_rsi_bound (this g) (this l) Hg Hl) as [H1 H2].
  split; lra.
Qed.

End RsiArithmetic.

Section RsiStructure.

Lemma gain_entry (d : float) :
  isinf d = false -> (if (d >? zero)%fl then d else zero) = Fin (gain_part d).
Proof. destruct d as [q| | |]; cbn; try discriminate; auto. now destruct (Qc_ltb _ q). Qed.

Lemma loss_entry (d : float) :
  isinf d = false ->
  Float.neg (if (d <? zero)%fl then d else zero) = Fin (loss_part d).
Proof. destruct d as [q| | |]; cbn; try discriminate; auto. now destruct (Qc_ltb q _). Qed.

Lemma Forall_removelast {A : Type} (P : A -> Prop) (l : list A) :
  Forall P l -> Forall P (removelast l).
Proof.
  induction 1 as [|x l Hx Hl IH]; [constructor|].
  cbn. destruct l; [constructor | constructor; auto].
Qed.

Lemma sub_no_inf (xs ys : list float) :
  Forall (fun x => isfinite x = true) xs ->
  Forall (fun y => isinf y = false) ys ->
  Forall (fun d => isinf d = false) (zip_with Float.sub xs ys).
Proof.
  intro Hx. revert ys. induction Hx as [|x xs Hx _ IH]; intros ys Hy; [constructor|].
  destruct Hy as [|y ys Hy Hys]; [constructor|].
  cbn. constructor; [|now apply IH].
  destruct x, y; try discriminate; reflexivity.
Qed.

Lemma diff_no_inf (qs : list Qc) :
  Forall (fun d => isinf d = false) (diff (map Fin qs)).
Proof.
  assert (Hfin : Forall (fun x => isfinite x = true) (map Fin qs)).
  { apply Forall_forall. intros x Hx. apply in_map_iff in Hx as (q & <- & _). reflexivity. }
  unfold diff. apply sub_no_inf; [exact Hfin|].
  unfold shift1. destruct (map Fin qs) eqn:E; [constructor|].
  constructor; [reflexivity|]. apply Forall_removelast.
  revert Hfin. apply Forall_impl. now intros [ | | | ].
Qed.

Lemma diff_length (s : Series) : List.length (diff s) = List.length s.
Proof. unfold diff. rewrite zip_with_length, shift1_length. lia. Qed.

Lemma masks_are_finite (ds : list float) :
  Forall (fun d => isinf d = false) ds ->
  where_ ds (fun d => (d >? zero)%fl) zero = map Fin (map gain_part ds) /\
  map Float.neg (where_ ds (fun d => (d <? zero)%fl) zero) = map Fin (map loss_part ds).
Proof.
  unfold where_. induction 1 as [|d ds Hd _ [IH1 IH2]]; [split; reflexivity|].
  cbn [map]. rewrite IH1, IH2, (gain_entry d Hd), (loss_entry d Hd). auto.
Qed.

Lemma finite_values_map_Fin (qs : list Qc) : finite_values (map Fin qs) = Some qs.
Proof.
  induction qs as [|q qs IH]; [reflexivity|].
  unfold finite_values in *. cbn [map fold_right]. now rewrite IH.
Qed.

Lemma nth_map_seq {A : Type} (f : nat -> A) (len i : nat) (d : A) :
  (i < len)%nat -> nth i (map f (seq 0 len)) d = f i.
Proof.
  intro H. apply nth_error_nth.
  rewrite nth_error_map.
  replace (nth_error (seq 0 len) i) with (Some i); [reflexivity|].
  symmetry. rewrite (nth_error_nth' _ 0%nat) by now rewrite length_seq.
  now rewrite seq_nth.
Qed.

Lemma nth_map_lt {A B : Type} (f : A -> B) (l : list A) (i : nat) (da : A) (db : B) :
  (i < List.length l)%nat -> nth i (map f l) db = f (nth i l da).
Proof.
  intro H. rewrite (nth_indep _ db (f da)) by now rewrite length_map.
  apply map_nth.
Qed.

(** A rolling aggregate over a series of numbers, at a row where the window
    is complete. *)
Lemma rolling_agg_nth (agg : list Qc -> float) (n i : nat) (xs : list Qc) :
  (i < List.length xs)%nat -> (n <= S i)%nat ->
  nth i (rolling_agg agg n (map Fin xs)) NaN = agg (firstn n (skipn (S i - n) xs)).
Proof.
  intros Hi Hn. unfold rolling_agg.
  rewrite nth_map_seq by now rewrite length_map.
  unfold window. apply Nat.leb_le in Hn. rewrite Hn.
  now rewrite skipn_map, firstn_map, finite_values_map_Fin.
Qed.

Lemma Qc_sum_nonneg (qs : list Qc) :
  Forall (fun q => (0 <= q)%Qc) qs -> (0 <= Qc_sum qs)%Qc.
Proof.
  induction 1 as [|q qs Hq _ IH]; [apply Qcle_refl|].
  change (Qc_sum (q :: qs)) with (q + Qc_sum qs)%Qc.
  qc2q. lra.
Qed.

Lemma Qc_sum_pos (qs : list Qc) :
  Forall (fun q => (0 <= q)%Qc) qs -> Exists (fun q => (0 < q)%Qc) qs ->
  (0 < Qc_sum qs)%Qc.
Proof.
  intros Hall Hex. induction Hall as [|q qs Hq Hqs IH]; [inversion Hex|].
  change (Qc_sum (q :: qs)) with (q + Qc_sum qs)%Qc.
  pose proof (Qc_sum_nonneg qs Hqs) as Hs.
  inversion Hex as [? ? Hpos|? ? Hrest]; subst.
  - qc2q. lra.
  - specialize (IH Hrest). qc2q. lra.
Qed.

Lemma Qc_sum_zero (qs : list Qc) :
  Forall (fun q => q = 0%Qc) qs -> Qc_sum qs = 0%Qc.
Proof.
  induction 1 as [|q qs Hq _ IH]; [reflexivity|].
  change (Qc_sum (q :: qs)) with (q + Qc_sum qs)%Qc.
  rewrite Hq, IH. apply Qcplus_0_l.
Qed.

Lemma Qc_opp_zero : (- 0)%Qc = 0%Qc.
Proof. apply Qc_is_canon. reflexivity. Qed.

Lemma Qc_ltb_0_pos (q : Qc) : Qc_ltb 0 q = true -> (0 < q)%Qc.
Proof. apply Qc_ltb_lt. Qed.

Lemma gain_part_facts (d : float) :
  isinf d = false ->
  (0 <= gain_part d)%Qc /\
  ((d >? zero)%fl = true -> (0 < gain_part d)%Qc) /\
  ((d >? zero)%fl = false -> gain_part d = 0%Qc).
Proof.
  destruct d as [q| | |]; cbn; try discriminate; intros _;
    try (split; [|split]; [apply Qcle_refl | discriminate | auto]).
  change (Q2Qc (inject_Z 0)) with 0%Qc.
  destruct (Qc_ltb 0 q) eqn:E.
  - apply Qc_ltb_lt in E. split; [|split]; try discriminate; auto using Qclt_le_weak.
  - split; [|split]; try discriminate; auto using Qcle_refl.
Qed.

Lemma loss_part_facts (d : float) :
  isinf d = false ->
  (0 <= loss_part d)%Qc /\
  ((d <? zero)%fl = true -> (0 < loss_part d)%Qc) /\
  ((d <? zero)%fl = false -> loss_part d = 0%Qc).
Proof.
  destruct d as [q| | |]; cbn; try discriminate; intros _;
    try (rewrite Qc_opp_zero; split; [|split]; [apply Qcle_refl | discriminate | auto]).
  change (Q2Qc (inject_Z 0)) with 0%Qc.
  destruct (Qc_ltb q 0) eqn:E.
  - apply Qc_ltb_lt in E.
    assert (H : (0 < - q)%Qc) by (qc2q; lra).
    split; [|split]; try discriminate; auto using Qclt_le_weak.
  - rewrite Qc_opp_zero. split; [|split]; try discriminate; auto using Qcle_refl.
Qed.

Lemma gain_sum_facts (w : list float) :
  Forall (fun d => isinf d = false) w ->
  (0 <= Qc_sum (map gain_part w))%Qc /\
  (some_gain w = true -> (0 < Qc_sum (map gain_part w))%Qc) /\
  (some_gain w = false -> Qc_sum (map gain_part w) = 0%Qc).
Proof.
  intro Hw.
  assert (Hnn : Forall (fun q => (0 <= q)%Qc) (map gain_part w)).
  { apply Forall_map. revert Hw. apply Forall_impl. intros d Hd.
    now apply gain_part_facts. }
  split; [now apply Qc_sum_nonneg|]. split; intro H.
  - apply Qc_sum_pos; [exact Hnn|]. apply Exists_map.
    unfold some_gain in H. apply existsb_exists in H as (d & Hin & Hd).
    apply Exists_exists. exists d. split; [exact Hin|].
    rewrite Forall_forall in Hw. now apply gain_part_facts; auto.
  - apply Qc_sum_zero. apply Forall_map, Forall_forall. intros d Hin.
    rewrite Forall_forall in Hw. apply gain_part_facts; auto.
    destruct (d >? zero)%fl eqn:E; [|reflexivity].
    assert (some_gain w = true) by (apply existsb_exists; eauto). congruence.
Qed.

Lemma loss_sum_facts (w : list float) :
  Forall (fun d => isinf d = false) w ->
  (0 <= Qc_sum (map loss_part w))%Qc /\
  (some_loss w = true -> (0 < Qc_sum (map loss_part w))%Qc) /\
  (some_loss w = false -> Qc_sum (map loss_part w) = 0%Qc).
Proof.
  intro Hw.
  assert (Hnn : Forall (fun q => (0 <= q)%Qc) (map loss_part w)).
  { apply Forall_map. revert Hw. apply Forall_impl. intros d Hd.
    now apply loss_part_facts. }
  split; [now apply Qc_sum_nonneg|]. split; intro H.
  - apply Qc_sum_pos; [exact Hnn|]. apply Exists_map.
    unfold some_loss in H. apply existsb_exists in H as (d & Hin & Hd).
    apply Exists_exists. exists d. split; [exact Hin|].
    rewrite Forall_forall in Hw. now apply loss_part_facts; auto.
  - apply Qc_sum_zero. apply Forall_map, Forall_forall. intros d Hin.
    rewrite Forall_forall in Hw. apply loss_part_facts; auto.
    destruct (d <? zero)%fl eqn:E; [|reflexivity].
    assert (some_loss w = true) by (apply existsb_exists; eauto). congruence.
Qed.

End RsiStructure.

Lemma Forall_skipn {A : Type} (P : A -> Prop) (n : nat) (l : list A) :
  Forall P l -> Forall P (skipn n l).
Proof.
  intro H. rewrite <- (firstn_skipn n l) in H. now apply Forall_app in H.
Qed.

Lemma Forall_firstn {A : Type} (P : A -> Prop) (n : nat) (l : list A) :
  Forall P l -> Forall P (firstn n l).
Proof.
  intro H. rewrite <- (firstn_skipn n l) in H. now apply Forall_app in H.
Qed.

Lemma mean_nonempty (qs : list Qc) :
  qs <> [] -> mean qs = Fin (Qc_sum qs / Qc_of_nat (List.length qs))%Qc.
Proof. destruct qs; [contradiction | reflexivity]. Qed.

Lemma Qc_of_nat_pos (n : nat) : (1 <= n)%nat -> (0 < Qc_of_nat n)%Qc.
Proof.
  intro H. unfold Qc_of_nat. qc2q.
  change 0%Q with (inject_Z 0). rewrite <- Zlt_Qlt. lia.
Qed.

(** Row [i] of [rsi] on a series of numbers, once the window is complete:
    the value computed from the two window averages. *)
Lemma rsi_row (qs : list Qc) (length : Z) (i : nat) :
  (1 <= length)%Z -> (Z.to_nat length <= S i)%nat -> (i < List.length qs)%nat ->
  exists s w,
    rsi (map Fin qs) length = Ok s /\
    window (Z.to_nat length) i (diff (map Fin qs)) = Some w /\
    Forall (fun d => isinf d = false) w /\
    nth i s NaN =
      rsi_value (Qc_sum (map gain_part w) / Qc_of_nat (Z.to_nat length))
                (Qc_sum (map loss_part w) / Qc_of_nat (Z.to_nat length)).
Proof.
  intros Hlen Hwin Hi.
  set (n := Z.to_nat length) in *.
  set (delta := diff (map Fin qs)).
  set (w := firstn n (skipn (S i - n) delta)).
  assert (Hdl : List.length delta = List.length qs)
    by (unfold delta; now rewrite diff_length, length_map).
  assert (Hwl : List.length w = n).
  { unfold w. rewrite length_firstn, length_skipn. lia. }
  assert (Hn : (1 <= n)%nat) by (unfold n; lia).
  assert (Hinf : Forall (fun d => isinf d = false) delta) by apply diff_no_inf.
  destruct (masks_are_finite delta Hinf) as [Hg Hl].
  unfold rsi. rewrite !rolling_mean_ok by lia. cbn [bind].
  fold delta n. rewrite Hg, Hl.
  eexists _, w. split; [reflexivity|]. split.
  { unfold window. replace (n <=? S i)%nat with true; [reflexivity|].
    symmetry. now apply Nat.leb_le. }
  split.
  { unfold w. apply Forall_firstn, Forall_skipn, Hinf. }
  rewrite (nth_map_lt _ _ i NaN NaN).
  2:{ unfold smap2. rewrite zip_with_length, !rolling_agg_length, !length_map. lia. }
  unfold smap2.
  rewrite (zip_with_nth Float.div _ _ i NaN NaN NaN)
    by (rewrite rolling_agg_length, !length_map; lia).
  rewrite !rolling_agg_nth by (rewrite ?length_map; lia).
  rewrite !skipn_map, !firstn_map. fold w.
  rewrite !mean_nonempty, !length_map, Hwl; [reflexivity | |];
    (intro E; apply (f_equal (@List.length _)) in E;
     rewrite length_map, Hwl in E; cbn in E; lia).
Qed.

(** C6.  The range of RSI as the code computes it: on every series of
    numbers and at every row past the warm-up ([i >= length - 1],
    [length >= 1]), [rsi] is a number of [[0, 100]] as soon as one delta of
    the trailing window is not zero, and [NaN] when they all are; it is
    exactly 100 when no delta of the window is negative and one at least is
    positive.  The specification asks for 100 on a window without any
    change as well. *)
Theorem C6_rsi_range_and_saturation (qs : list Qc) (length : Z) (i : nat) :
  (1 <= length)%Z -> (Z.to_nat length <= S i)%nat -> (i < List.length qs)%nat ->
  exists s w,
    rsi (map Fin qs) length = Ok s /\
    window (Z.to_nat length) i (diff (map Fin qs)) = Some w /\
    (some_gain w = false -> some_loss w = false -> nth i s NaN = NaN) /\
    (some_gain w = true \/ some_loss w = true ->
       exists q, nth i s NaN = Fin q /\ (0 <= q)%Qc /\ (q <= Q2Qc 100)%Qc) /\
    (some_loss w = false -> some_gain w = true -> nth i s NaN = of_Z 100).
Proof.
  intros Hlen Hwin Hi.
  destruct (rsi_row qs length i Hlen Hwin Hi) as (s & w & Hs & Hw & Hinf & Hval).
  exists s, w. split; [exact Hs|]. split; [exact Hw|].
  destruct (gain_sum_facts w Hinf) as (Hg0 & Hgpos & Hgz).
  destruct (loss_sum_facts w Hinf) as (Hl0 & Hlpos & Hlz).
  assert (Hn : (0 < Qc_of_nat (Z.to_nat length))%Qc) by (apply Qc_of_nat_pos; lia).
  rewrite Hval. split; [|split].
  - intros Hg Hl. rewrite (Hgz Hg), (Hlz Hl), !Qc_div_zero. apply rsi_value_flat.
  - intros Hsome.
    destruct (some_loss w) eqn:El.
    + apply rsi_value_bounded; [now apply Qc_div_nonneg | apply Qc_div_pos; auto].
    + destruct Hsome as [Hg|]; [|discriminate].
      rewrite (Hlz eq_refl), Qc_div_zero, rsi_value_no_loss
        by (apply Qc_div_pos; auto).
      exists (Q2Qc (inject_Z 100)). split; [reflexivity|].
      split; qc2q; change (inject_Z 100) with 100%Q; lra.
  - intros Hl Hg.
    rewrite (Hlz Hl), Qc_div_zero. apply rsi_value_no_loss, Qc_div_pos; auto.
Qed.

Lemma C6_rsi_range_and_saturation_witness :
  (1 <= 14)%Z /\ (Z.to_nat 14 <= S 14)%nat /\ (14 < List.length flat_closes)%nat /\
  exists s w,
    rsi (map Fin flat_closes) 14 = Ok s /\
    window (Z.to_nat 14) 14 (diff (map Fin flat_closes)) = Some w /\
    (some_gain w = false -> some_loss w = false -> nth 14 s NaN = NaN) /\
    (some_gain w = true \/ some_loss w = true ->
       exists q, nth 14 s NaN = Fin q /\ (0 <= q)%Qc /\ (q <= Q2Qc 100)%Qc) /\
    (some_loss w = false -> some_gain w = true -> nth 14 s NaN = of_Z 100).
Proof.
  split; [lia|]. split; [vm_compute; lia|]. split; [vm_compute; lia|].
  apply (C6_rsi_range_and_saturation flat_closes 14 14);
    [lia | vm_compute; lia | vm_compute; lia].
Defined.

(** C6 with 100 on every window without a negative delta does not hold: on
    fifteen equal closes and the default length 14, no delta of the last
    window is negative, and row 14 of [rsi] is [NaN]: neither 100 nor any
    number. *)
Lemma C6_flat_window_counterexample :
  exists s w,
    rsi (map Fin flat_closes) 14 = Ok s /\
    window 14 14 (diff (map Fin flat_closes)) = Some w /\
    some_loss w = false /\
    nth 14 s NaN = NaN /\
    nth 14 s NaN <> of_Z 100 /\
    (forall q, nth 14 s NaN <> Fin q).
Proof.
  eexists _, _. split; [vm_compute; reflexivity|].
  split; [vm_compute; reflexivity|].
  split; [vm_compute; reflexivity|].
  split; [vm_compute; reflexivity|].
  split; [vm_compute; discriminate | intro q; vm_compute; discriminate].
Qed.

(** ** The feature pipeline *)

Section PipelineFacts.

Lemma ewm_loop_length (alpha : Qc) (s : Series) :
  forall w o, List.length (ewm_loop alpha w o s) = List.length s.
Proof.
  induction s as [|x s IH]; intros w o; [reflexivity|].
  cbn [ewm_loop]. destruct (ewm_step alpha w o x). cbn. now rewrite IH.
Qed.

Lemma ewm_mean_length (span : Z) (s out : Series) :
  ewm_mean span s = Ok out -> List.length out = List.length s.
Proof.
  unfold ewm_mean. destruct (span <? 1)%Z; [discriminate|].
  destruct s as [|x s]; intro H; injection H as <-; [reflexivity|].
  cbn. now rewrite ewm_loop_length.
Qed.

Lemma ewm_mean_ok (span : Z) (s : Series) :
  (1 <= span)%Z -> exists out, ewm_mean span s = Ok out.
Proof.
  intro H. unfold ewm_mean.
  destruct (span <? 1)%Z eqn:E; [apply Z.ltb_lt in E; lia|].
  destruct s; eauto.
Qed.

Lemma ltb_asym (x y : float) : (x <? y)%fl = true -> (y <? x)%fl = false.
Proof.
  destruct x as [a| | |], y as [b| | |]; cbn; try discriminate; auto.
  intro H. apply Qc_ltb_lt in H. apply Qc_ltb_ge. now apply Qclt_le_weak.
Qed.

Lemma band3_nth_error (a b c : list bool) (i : nat) (v : bool) :
  nth_error (band3 a b c) i = Some v ->
  exists x y z,
    nth_error a i = Some x /\ nth_error b i = Some y /\ nth_error c i = Some z /\
    v = x && y && z.
Proof.
  unfold band3. rewrite !zip_with_nth_error.
  destruct (nth_error a i), (nth_error b i), (nth_error c i); try discriminate.
  intro H. injection H as <-. eauto 8.
Qed.

Lemma zip_cmp_nth_error (cmp : float -> float -> bool) (a b : Series) (i : nat) (v : bool) :
  nth_error (zip_with cmp a b) i = Some v ->
  exists x y, nth_error a i = Some x /\ nth_error b i = Some y /\ v = cmp x y.
Proof.
  rewrite zip_with_nth_error.
  destruct (nth_error a i), (nth_error b i); try discriminate.
  intro H. injection H as <-. eauto.
Qed.

(** The two stack flags of one row cannot both hold: one asks for
    [EMA9 > EMA21], the other for [EMA9 < EMA21]. *)
Lemma stacks_exclusive (e9 e21 e50 e200 c : Series) (i : nat) (bull bear : bool) :
  nth_error (band3 (zip_with Float.gtb e9 e21) (zip_with Float.gtb e21 e50)
                   (zip_with Float.gtb c e200)) i = Some bull ->
  nth_error (band3 (zip_with Float.ltb e9 e21) (zip_with Float.ltb e21 e50)
                   (zip_with Float.ltb c e200)) i = Some bear ->
  bull && bear = false.
Proof.
  intros Hb Hs.
  apply band3_nth_error in Hb as (x1 & y1 & z1 & Hx1 & _ & _ & ->).
  apply band3_nth_error in Hs as (x2 & y2 & z2 & Hx2 & _ & _ & ->).
  apply zip_cmp_nth_error in Hx1 as (a & b & Ha & Hb & ->).
  apply zip_cmp_nth_error in Hx2 as (a' & b' & Ha' & Hb' & ->).
  assert (a' = a) by congruence. assert (b' = b) by congruence. subst.
  unfold Float.gtb. destruct (b <? a)%fl eqn:E; [|reflexivity].
  rewrite (ltb_asym b a E). cbn. now rewrite !andb_false_r.
Qed.

Lemma supertrend_step_direction (cp sp c u l : float) :
  snd (supertrend_step cp sp c u l) = 1%Z \/ snd (supertrend_step cp sp c u l) = (-1)%Z.
Proof.
  unfold supertrend_step.
  destruct (cp <=? sp)%fl; [destruct (c >? u)%fl | destruct (c <? l)%fl]; cbn; auto.
Qed.

Lemma supertrend_loop_directions (rows : list (float * (float * float))) :
  forall c s, Forall (fun d => d = 1%Z \/ d = (-1)%Z) (map snd (supertrend_loop c s rows)).
Proof.
  induction rows as [|[c1 [u1 l1]] rows IH]; intros c s; [constructor|].
  cbn [supertrend_loop map]. constructor; [apply supertrend_step_direction | apply IH].
Qed.

(** Every direction [supertrend] writes is [+1] or [-1]. *)
Lemma supertrend_directions (h l c : Series) (length : Z) (m : float)
  (st : Series) (dir : list Z) :
  supertrend h l c length m = Ok (st, dir) ->
  Forall (fun d => d = 1%Z \/ d = (-1)%Z) dir.
Proof.
  unfold supertrend. destruct (atr h l c length) as [a|]; [|discriminate].
  cbn [bind]. destruct (zip_with pair c _) as [|[c0 [u0 l0]] rest]; [discriminate|].
  intro H. injection H as _ <-.
  cbn [map snd]. constructor; [auto | apply supertrend_loop_directions].
Qed.

End PipelineFacts.

(** Splits a successful run of a chain of [bind]s into its steps. *)
Ltac bind_inv H :=
  repeat match type of H with
  | bind ?m _ = Ok _ =>
      let E := fresh "E" in
      destruct m eqn:E; cbn [bind] in H; [|discriminate H]
  | (let '(_, _) := ?p in _) = Ok _ => destruct p
  end.

(** What a successful run of [add_all_indicators] fixes about the columns
    the bias is built from. *)
Lemma add_all_indicators_bias_columns (df : list Bar) (config : option Config) (fr : Frame) :
  add_all_indicators df config = Ok fr ->
  exists e9 e21 e50 e200 st,
    ema (map close df) (ema9 (config_or_default config)) = Ok e9 /\
    ema (map close df) (ema21 (config_or_default config)) = Ok e21 /\
    ema (map close df) (ema50 (config_or_default config)) = Ok e50 /\
    ema (map close df) (ema200 (config_or_default config)) = Ok e200 /\
    supertrend (map high df) (map low df) (map close df)
      (st_length (config_or_default config)) (st_mult (config_or_default config))
      = Ok (st, Indicators.ST_Direction fr) /\
    Indicators.BullishStack fr =
      band3 (zip_with Float.gtb e9 e21) (zip_with Float.gtb e21 e50)
            (zip_with Float.gtb (map close df) e200) /\
    Indicators.BearishStack fr =
      band3 (zip_with Float.ltb e9 e21) (zip_with Float.ltb e21 e50)
            (zip_with Float.ltb (map close df) e200) /\
    Indicators.ST_Bullish fr = map (fun d => (d =? 1)%Z) (Indicators.ST_Direction fr) /\
    Indicators.ST_Bearish fr = map (fun d => (d =? -1)%Z) (Indicators.ST_Direction fr) /\
    Indicators.MTFScore fr =
      zip_with (fun (st : bool * bool) (sd : bool * bool) =>
                  mtf_score (fst st) (snd st) (fst sd) (snd sd))
        (zip_with pair (Indicators.BullishStack fr) (Indicators.BearishStack fr))
        (zip_with pair (Indicators.ST_Bullish fr) (Indicators.ST_Bearish fr)) /\
    Indicators.Bias fr = map bias_of (Indicators.MTFScore fr).
Proof.
  unfold add_all_indicators. fold (config_or_default config).
  intro H. bind_inv H.
  injection H as <-. cbn.
  eexists _, _, _, _, _. repeat split; eassumption.
Qed.

Lemma supertrend_output_length (df : list Bar) (length : Z) (m : float)
  (st : Series) (dir : list Z) :
  supertrend (map high df) (map low df) (map close df) length m = Ok (st, dir) ->
  List.length st = List.length df /\ List.length dir = List.length df.
Proof.
  intro H. apply supertrend_length with (length := length) (multiplier := m); [|exact H].
  destruct (length <? 0)%Z eqn:E; [|apply Z.ltb_ge in E; lia].
  unfold supertrend, atr, rolling_mean in H. rewrite E in H. discriminate H.
Qed.

Lemma band3_length (a b c : list bool) :
  List.length (band3 a b c) =
  Nat.min (Nat.min (List.length a) (List.length b)) (List.length c).
Proof. unfold band3. now rewrite !zip_with_length. Qed.

Lemma bias_of_cases (bull bear : bool) (dir : Z) :
  bull && bear = false -> dir = 1%Z \/ dir = (-1)%Z ->
  let score := mtf_score bull bear (dir =? 1)%Z (dir =? -1)%Z in
  let bias := bias_of score in
  (bias = BULLISH <-> bull = true /\ dir = 1%Z) /\
  (bias = BEARISH <-> bear = true /\ dir = (-1)%Z) /\
  (bias = NEUTRAL <->
     ~ (bull = true /\ dir = 1%Z) /\ ~ (bear = true /\ dir = (-1)%Z)) /\
  (bias = BULLISH -> score = 40%Z) /\
  (bias = BEARISH -> score = (-40)%Z) /\
  (30 <= score -> score = 40)%Z /\
  (score <= -30 -> score = -40)%Z /\
  (Z.abs score <= 25 -> bias = NEUTRAL)%Z.
Proof.
  intros Hex [-> | ->]; destruct bull, bear; try discriminate Hex; cbn;
    repeat split; intros; try discriminate; try lia; try tauto;
    try (match goal with H : _ /\ _ |- _ => destruct H end; discriminate).
Qed.

(** C10.  For every bar of the frame [add_all_indicators] returns: the bias
    is BULLISH exactly when the bullish stack flag holds and the SuperTrend
    direction is [+1], and then the score is [+40]; it is BEARISH exactly
    when the bearish stack flag holds and the direction is [-1], and then the
    score is [-40]; it is NEUTRAL in every other case, in particular whenever
    the score is at most 25 in magnitude; and the two stack flags never hold
    together. *)
Theorem C10_bias_requires_both_factors
  (df : list Bar) (config : option Config) (fr : Frame) (i : nat) :
  add_all_indicators df config = Ok fr ->
  (i < List.length df)%nat ->
  exists bias bull bear dir score,
    nth_error (Indicators.Bias fr) i = Some bias /\
    nth_error (Indicators.BullishStack fr) i = Some bull /\
    nth_error (Indicators.BearishStack fr) i = Some bear /\
    nth_error (Indicators.ST_Direction fr) i = Some dir /\
    nth_error (Indicators.MTFScore fr) i = Some score /\
    (bias = BULLISH <-> bull = true /\ dir = 1%Z) /\
    (bias = BEARISH <-> bear = true /\ dir = (-1)%Z) /\
    (bias = NEUTRAL <->
       ~ (bull = true /\ dir = 1%Z) /\ ~ (bear = true /\ dir = (-1)%Z)) /\
    (bias = BULLISH -> score = 40%Z) /\
    (bias = BEARISH -> score = (-40)%Z) /\
    (30 <= score -> score = 40)%Z /\
    (score <= -30 -> score = -40)%Z /\
    (Z.abs score <= 25 -> bias = NEUTRAL)%Z /\
    bull && bear = false.
Proof.
  intros Hrun Hi.
  destruct (add_all_indicators_bias_columns df config fr Hrun)
    as (e9 & e21 & e50 & e200 & st & H9 & H21 & H50 & H200 & Hst &
        Hbull & Hbear & Hsb & Hse & Hmtf & Hbias).
  apply ewm_mean_length in H9, H21, H50, H200. rewrite length_map in *.
  destruct (supertrend_output_length _ _ _ _ _ Hst) as [_ Hdl].
  assert (Hlen : List.length (Indicators.Bias fr) = List.length df).
  { rewrite Hbias, length_map, Hmtf, !zip_with_length, Hbull, Hbear, Hsb, Hse,
      !band3_length, !zip_with_length, !length_map. lia. }
  destruct (nth_error (Indicators.Bias fr) i) as [bias|] eqn:Eb.
  2:{ apply nth_error_None in Eb. lia. }
  pose proof Eb as Eb'.
  rewrite Hbias, nth_error_map in Eb'.
  destruct (nth_error (Indicators.MTFScore fr) i) as [score|] eqn:Es; [|discriminate].
  cbn in Eb'. injection Eb' as Ebias.
  pose proof Es as Es'.
  rewrite Hmtf, !zip_with_nth_error in Es'.
  destruct (nth_error (Indicators.BullishStack fr) i) as [bull|] eqn:E1; [|discriminate].
  destruct (nth_error (Indicators.BearishStack fr) i) as [bear|] eqn:E2; [|discriminate].
  rewrite Hsb, Hse, !nth_error_map in Es'.
  destruct (nth_error (Indicators.ST_Direction fr) i) as [dir|] eqn:E3; [|discriminate].
  cbn in Es'. injection Es' as Escore.
  assert (Hdir : dir = 1%Z \/ dir = (-1)%Z).
  { pose proof (supertrend_directions _ _ _ _ _ _ _ Hst) as Hall.
    rewrite Forall_forall in Hall. apply Hall. eapply nth_error_In. exact E3. }
  assert (Hex : bull && bear = false).
  { pose proof E1 as E1'. pose proof E2 as E2'.
    rewrite Hbull in E1'. rewrite Hbear in E2'.
    eapply stacks_exclusive; eassumption. }
  exists bias, bull, bear, dir, score.
  do 5 (split; [reflexivity|]).
  pose proof (bias_of_cases bull bear dir Hex Hdir) as Hc. cbv zeta in Hc.
  rewrite Escore, Ebias in Hc.
  destruct Hc as (? & ? & ? & ? & ? & ? & ? & ?). repeat split; tauto || assumption.
Qed.

(** ** Timestamps *)

Section Retime.

Variable ts : list Z.
Variable df : list Bar.
Hypothesis same_length : List.length ts = List.length df.

Lemma retime_column {A : Type} (col : Bar -> A) :
  (forall t b, col {| timestamp := t; open := open b; high := high b; low := low b;
                      close := close b; volume := volume b |} = col b) ->
  map col (retime ts df) = map col df.
Proof.
  intro Hcol. unfold retime. clear - same_length Hcol. revert df same_length.
  induction ts as [|t ts' IH]; intros [|b df'] Hlen; try discriminate; [reflexivity|].
  cbn. rewrite Hcol. f_equal. apply IH. now injection Hlen.
Qed.

Lemma retime_index : map timestamp (retime ts df) = ts.
Proof.
  unfold retime. clear - same_length. revert df same_length.
  induction ts as [|t ts' IH]; intros [|b df'] Hlen; try discriminate; [reflexivity|].
  cbn. f_equal. apply IH. now injection Hlen.
Qed.

End Retime.

Create HintDb returns.

Lemma ema_returns (s : Series) (n : Z) : (1 <= n)%Z -> exists out, ema s n = Ok out.
Proof. apply ewm_mean_ok. Qed.

Lemma sma_returns (s : Series) (n : Z) : (0 <= n)%Z -> exists out, sma s n = Ok out.
Proof. intro H. unfold sma. rewrite rolling_mean_ok by exact H. eauto. Qed.

Lemma atr_returns (h l c : Series) (n : Z) :
  (0 <= n)%Z -> exists out, atr h l c n = Ok out.
Proof. intro H. unfold atr. rewrite rolling_mean_ok by exact H. eauto. Qed.

Lemma rsi_returns (s : Series) (n : Z) : (0 <= n)%Z -> exists out, rsi s n = Ok out.
Proof. intro H. unfold rsi. rewrite !rolling_mean_ok by exact H. cbn [bind]. eauto. Qed.

Lemma macd_returns (s : Series) (f sl sg : Z) :
  (1 <= f)%Z -> (1 <= sl)%Z -> (1 <= sg)%Z -> exists out, macd s f sl sg = Ok out.
Proof.
  intros Hf Hsl Hsg. unfold macd.
  destruct (ewm_mean_ok f s Hf) as [a ->].
  destruct (ewm_mean_ok sl s Hsl) as [b ->]. cbn [bind].
  destruct (ewm_mean_ok sg (smap2 Float.sub a b) Hsg) as [c ->]. cbn [bind]. eauto.
Qed.

Lemma adx_returns (h l c : Series) (n : Z) :
  (0 <= n)%Z -> exists out, adx h l c n = Ok out.
Proof.
  intro H. unfold adx, atr. cbv zeta.
  repeat (rewrite rolling_mean_ok by exact H; cbn [bind]). eauto.
Qed.

Lemma supertrend_returns (df : list Bar) (n : Z) (m : float) :
  df <> [] -> (0 <= n)%Z ->
  exists out, supertrend (map high df) (map low df) (map close df) n m = Ok out.
Proof.
  intros Hne Hn.
  destruct (supertrend_ok df n m Hn Hne) as (a & c0 & u0 & l0 & rest & _ & _ & _ & H).
  eauto.
Qed.

Lemma rolling_max_returns (s : Series) : exists out, rolling_max 5 s = Ok out.
Proof. unfold rolling_max. cbn. eauto. Qed.

Lemma rolling_min_returns (s : Series) : exists out, rolling_min 5 s = Ok out.
Proof. unfold rolling_min. cbn. eauto. Qed.

#[local] Hint Resolve ema_returns sma_returns atr_returns rsi_returns macd_returns
  adx_returns supertrend_returns rolling_max_returns rolling_min_returns : returns.

(** Runs the next step of a chain of [bind]s with its [returns] lemma. *)
Ltac run_step :=
  match goal with
  | |- exists fr, bind ?m _ = Ok fr /\ _ =>
      let v := fresh "v" in
      let Hv := fresh "Hv" in
      assert (exists v, m = Ok v) as [v Hv] by (auto with returns zarith);
      rewrite Hv; cbn [bind];
      repeat match goal with
             | |- exists fr, (let '(_, _) := ?p in _) = Ok fr /\ _ => destruct p
             end
  end.

Lemma add_all_indicators_returns (df : list Bar) (config : option Config) :
  df <> [] -> valid_config (config_or_default config) ->
  exists fr, add_all_indicators df config = Ok fr /\ Indicators.index fr = map timestamp df.
Proof.
  intros Hne (H9 & H21 & H50 & H200 & Hst & Hatr & Hrsi & Hf & Hs & Hg & Hv).
  unfold add_all_indicators. fold (config_or_default config).
  repeat run_step.
  eexists. split; reflexivity.
Qed.

(** The index labels are carried over and never read. *)
Lemma add_all_indicators_retime (df : list Bar) (ts : list Z) (config : option Config) :
  List.length ts = List.length df ->
  add_all_indicators (retime ts df) config =
  result_map (with_index ts) (add_all_indicators df config).
Proof.
  intro Hlen. unfold add_all_indicators.
  rewrite (retime_index ts df Hlen).
  rewrite !(retime_column ts df Hlen) by reflexivity.
  repeat match goal with
         | |- bind ?m _ = _ => destruct m; cbn [bind]; [|reflexivity]
         | |- (let '(_, _) := ?p in _) = _ => destruct p
         end.
  reflexivity.
Qed.

(** C8.  What the code does with timestamps: [add_all_indicators] never
    looks at the index labels.  Whatever labels [ts] the bars of a frame are
    given (sorted or not, repeated or not), the run on a frame with at least
    one row and accepted lengths returns the same columns, with [ts] as
    index; the specification asks for a failure on labels that are out of
    order or repeated. *)
Theorem C8_timestamps_are_never_checked
  (df : list Bar) (ts : list Z) (config : option Config) :
  List.length ts = List.length df -> df <> [] ->
  valid_config (config_or_default config) ->
  exists fr,
    add_all_indicators df config = Ok fr /\
    add_all_indicators (retime ts df) config = Ok (with_index ts fr).
Proof.
  intros Hlen Hne Hcfg.
  destruct (add_all_indicators_returns df config Hne Hcfg) as (fr & Hrun & _).
  exists fr. split; [exact Hrun|].
  now rewrite (add_all_indicators_retime df ts config Hlen), Hrun.
Qed.

Lemma default_config_valid : valid_config (config_or_default None).
Proof. cbv. repeat split; discriminate. Qed.

Lemma C8_timestamps_are_never_checked_witness :
  List.length [2; 1; 1]%Z = List.length three_bars /\ three_bars <> [] /\
  valid_config (config_or_default None) /\
  exists fr,
    add_all_indicators three_bars None = Ok fr /\
    add_all_indicators (retime [2; 1; 1]%Z three_bars) None
      = Ok (with_index [2; 1; 1]%Z fr).
Proof.
  split; [reflexivity|]. split; [discriminate|].
  split; [exact default_config_valid|].
  apply (C8_timestamps_are_never_checked three_bars [2; 1; 1]%Z None);
    [reflexivity | discriminate | exact default_config_valid].
Defined.

(** C8 with a failure on unordered labels does not hold: three bars whose
    index labels are out of order and repeated go through
    [add_all_indicators], which returns a frame under those labels. *)
Lemma C8_unordered_timestamps_counterexample :
  strictly_increasing (map timestamp (retime [2; 1; 1]%Z three_bars)) = false /\
  exists fr,
    add_all_indicators (retime [2; 1; 1]%Z three_bars) None = Ok fr /\
    Indicators.index fr = [2; 1; 1]%Z.
Proof.
  split; [reflexivity|].
  destruct (add_all_indicators_returns (retime [2; 1; 1]%Z three_bars) None)
    as (fr & Hrun & Hidx); [discriminate | exact default_config_valid |].
  exists fr. split; [exact Hrun | exact Hidx].
Qed.

Lemma C10_bias_requires_both_factors_witness :
  exists fr,
    add_all_indicators three_bars None = Ok fr /\
    (1 < List.length three_bars)%nat /\
    exists bias bull bear dir score,
      nth_error (Indicators.Bias fr) 1 = Some bias /\
      nth_error (Indicators.BullishStack fr) 1 = Some bull /\
      nth_error (Indicators.BearishStack fr) 1 = Some bear /\
      nth_error (Indicators.ST_Direction fr) 1 = Some dir /\
      nth_error (Indicators.MTFScore fr) 1 = Some score /\
      (bias = BULLISH <-> bull = true /\ dir = 1%Z) /\
      (bias = BEARISH <-> bear = true /\ dir = (-1)%Z) /\
      (bias = NEUTRAL <->
         ~ (bull = true /\ dir = 1%Z) /\ ~ (bear = true /\ dir = (-1)%Z)) /\
      (bias = BULLISH -> score = 40%Z) /\
      (bias = BEARISH -> score = (-40)%Z) /\
      (30 <= score -> score = 40)%Z /\
      (score <= -30 -> score = -40)%Z /\
      (Z.abs score <= 25 -> bias = NEUTRAL)%Z /\
      bull && bear = false.
Proof.
  eexists. split; [vm_compute; reflexivity|]. split; [cbn; lia|].
  apply (C10_bias_requires_both_factors three_bars None _ 1);
    [vm_compute; reflexivity | cbn; lia].
Defined.

(** ** The signal engine *)

Section EngineSteps.

Variable self : TradeExpertPro.
Variable r : Row.
Hypothesis current_row : last_row self = Ok r.

Lemma check_veto_conditions_returns :
  check_veto_conditions self =
  Ok (match Strategy.VolState r with
      | ULTRA_LOW | EXTREME =>
          (true, ("Volatility: " ++ vol_state_name (Strategy.VolState r))%string)
      | _ =>
          match Strategy.Bias r with
          | NEUTRAL => (true, "No MTF Confluence"%string)
          | _ => (false, ""%string)
          end
      end, [CheckVeto]).
Proof.
  unfold check_veto_conditions. rewrite current_row. cbn.
  destruct (Strategy.VolState r); try reflexivity; destruct (Strategy.Bias r); reflexivity.
Qed.

Lemma data_nonempty : data self <> [].
Proof.
  intro E. unfold last_row in current_row. rewrite E in current_row. discriminate.
Qed.

Lemma last5_nonempty : last5 self <> [].
Proof.
  unfold last5. pose proof data_nonempty as Hne.
  intro E. apply (f_equal (@List.length _)) in E.
  rewrite length_skipn in E.
  destruct (data self); [contradiction | cbn [List.length] in E; lia].
Qed.

Lemma get_sl_tp_returns (is_long : bool) :
  exists sl tp1 tp2 tp3,
    get_sl_tp self is_long = Ok ((sl, tp1, tp2, tp3), [SlTp is_long]).
Proof.
  unfold get_sl_tp. rewrite current_row. cbn [tell lift bindM].
  pose proof last5_nonempty as Hne.
  destruct is_long.
  - destruct (map Strategy.Low (last5 self)) eqn:E.
    { apply map_eq_nil in E. contradiction. }
    cbn. eauto 6.
  - destruct (map Strategy.High (last5 self)) eqn:E.
    { apply map_eq_nil in E. contradiction. }
    cbn. eauto 6.
Qed.

End EngineSteps.

(** ** The quality score *)

Section QualityScore.

Lemma add_if_Fin (b : bool) (c : Z) (s : Qc) :
  add_if b c (Fin s) = Fin (s + Q2Qc (inject_Z (points b c)))%Qc.
Proof.
  unfold add_if, points. destruct b; [reflexivity|].
  f_equal. symmetry. apply Qcplus_0_r.
Qed.

Lemma points_bounds (b : bool) (c : Z) :
  (0 <= c)%Z -> (0 <= inject_Z (points b c) /\ inject_Z (points b c) <= inject_Z c)%Q.
Proof.
  intro H. unfold points. change 0%Q with (inject_Z 0).
  rewrite <- !Zle_Qle. destruct b; lia.
Qed.

Lemma points_at_cap (b : bool) (c : Z) :
  (0 < c)%Z -> (inject_Z (points b c) == inject_Z c)%Q -> b = true.
Proof.
  intros H E. apply (proj1 (inject_Z_injective _ _)) in E. unfold points in E.
  destruct b; [reflexivity | lia].
Qed.

(** The MTF term is a number between 0 and its cap 20. *)
Lemma term_mtf_bounds (r : Row) :
  exists m, term_mtf r = Fin m /\ (0 <= this m)%Q /\ (this m <= 20)%Q.
Proof.
  unfold term_mtf.
  set (a := match Strategy.MTFScore r with Some m => Z.abs m | None => 0%Z end).
  assert (Ha : (0 <= a)%Z) by (unfold a; destruct (Strategy.MTFScore r); lia).
  unfold of_Z. cbn [Float.div Float.mul].
  replace (Qc_eqb (Q2Qc (inject_Z 100)) 0) with false by reflexivity.
  cbn [Float.mul]. unfold py_min2. cbn [Float.ltb].
  set (x := (Q2Qc (inject_Z a) / Q2Qc (inject_Z 100) * Q2Qc (inject_Z 20))%Qc).
  assert (Hx : (0 <= this x)%Q).
  { unfold x. qc2q. change (inject_Z 100) with 100%Q. change (inject_Z 20) with 20%Q.
    rewrite Zle_Qle in Ha. change (inject_Z 0) with 0%Q in Ha.
    assert (0 <= inject_Z a / 100)%Q by (apply Qle_shift_div_l; lra). lra. }
  destruct (Qc_ltb x (Q2Qc (inject_Z 20))) eqn:E.
  - exists x. split; [reflexivity|]. split; [exact Hx|].
    apply Qc_ltb_lt in E. qc2q. change (inject_Z 20) with 20%Q in E. lra.
  - exists (Q2Qc (inject_Z 20)). split; [reflexivity|].
    qc2q. change (inject_Z 20) with 20%Q. split; lra.
Qed.

(** The running score is the MTF term plus the points of the eight flags. *)
Lemma raw_score_value (r : Row) :
  exists m t,
    term_mtf r = Fin m /\ (0 <= this m)%Q /\ (this m <= 20)%Q /\
    raw_score r = Fin t /\
    (this t ==
       this m
       + inject_Z (points (fires_stack r) 15)
       + inject_Z (points (fires_supertrend r) 10)
       + inject_Z (points (fires_rsi r) 10)
       + inject_Z (points (fires_macd r) 10)
       + inject_Z (points (fires_volume r) 10)
       + inject_Z (points (fires_candle r) 10)
       + inject_Z (points (fires_break r) 10)
       + inject_Z (points (fires_normal_vol r) 5))%Q.
Proof.
  destruct (term_mtf_bounds r) as (m & Hm & Hlo & Hhi).
  exists m. eexists. split; [exact Hm|]. split; [exact Hlo|]. split; [exact Hhi|].
  unfold raw_score. rewrite Hm. unfold of_Z at 1. cbn [Float.add].
  rewrite !add_if_Fin. split; [reflexivity|].
  qc2q. change (inject_Z 0) with 0%Q. lra.
Qed.

Lemma py_int_nonneg (t : Qc) :
  (0 <= this t)%Q -> py_int (Fin t) = Ok (Qfloor (this t)).
Proof.
  intro H. unfold py_int, Qfloor. destruct (this t) as [n d]. cbn [Qnum Qden].
  f_equal. apply Z.quot_div_nonneg; [|lia].
  unfold Qle in H. cbn in H. lia.
Qed.

Lemma get_quality_score_returns (self : TradeExpertPro) (r : Row) :
  last_row self = Ok r ->
  exists q, get_quality_score self = Ok (q, [QualityScore]).
Proof.
  intro Hrow.
  destruct (raw_score_value r) as (m & t & _ & Hlo & _ & Ht & Hsum).
  unfold get_quality_score. rewrite Hrow. cbn [tell lift bindM]. rewrite Ht.
  destruct t as [[n d] Hc]. cbn. eauto.
Qed.

End QualityScore.

(** C3.  On every bar the quality score [get_quality_score] returns is an
    integer of [[0, 100]]; the MTF term lies between 0 and its cap 20; and the
    score is 100 exactly when the nine terms are at their caps
    (20, 15, 10, 10, 10, 10, 10, 10 and 5, which add up to 100). *)
Theorem C3_quality_score_range (self : TradeExpertPro) (r : Row) :
  last_row self = Ok r ->
  exists q m,
    get_quality_score self = Ok (q, [QualityScore]) /\
    (0 <= q <= 100)%Z /\
    term_mtf r = Fin m /\ (0 <= m)%Qc /\ (m <= Q2Qc 20)%Qc /\
    (q = 100%Z <->
       term_mtf r = of_Z 20 /\ fires_stack r = true /\ fires_supertrend r = true /\
       fires_rsi r = true /\ fires_macd r = true /\ fires_volume r = true /\
       fires_candle r = true /\ fires_break r = true /\ fires_normal_vol r = true) /\
    (20 + 15 + 10 + 10 + 10 + 10 + 10 + 10 + 5 = 100)%Z.
Proof.
  intro Hrow.
  destruct (raw_score_value r) as (m & t & Hm & Hlo & Hhi & Ht & Hsum).
  pose proof (points_bounds (fires_stack r) 15 ltac:(lia)) as [B1 C1].
  pose proof (points_bounds (fires_supertrend r) 10 ltac:(lia)) as [B2 C2].
  pose proof (points_bounds (fires_rsi r) 10 ltac:(lia)) as [B3 C3].
  pose proof (points_bounds (fires_macd r) 10 ltac:(lia)) as [B4 C4].
  pose proof (points_bounds (fires_volume r) 10 ltac:(lia)) as [B5 C5].
  pose proof (points_bounds (fires_candle r) 10 ltac:(lia)) as [B6 C6].
  pose proof (points_bounds (fires_break r) 10 ltac:(lia)) as [B7 C7].
  pose proof (points_bounds (fires_normal_vol r) 5 ltac:(lia)) as [B8 C8].
  change (inject_Z 15) with 15%Q in *. change (inject_Z 10) with 10%Q in *.
  change (inject_Z 5) with 5%Q in *.
  assert (Ht0 : (0 <= this t)%Q) by lra.
  assert (Ht100 : (this t <= 100)%Q) by lra.
  exists (Z.min 100 (Qfloor (this t))), m.
  split.
  { unfold get_quality_score. rewrite Hrow. cbn [tell lift bindM].
    rewrite Ht, (py_int_nonneg t Ht0). reflexivity. }
  assert (Hf0 : (0 <= Qfloor (this t))%Z).
  { change 0%Z with (Qfloor 0). now apply Qfloor_resp_le. }
  split; [lia|]. split; [exact Hm|].
  split; [exact Hlo|]. split; [qc2q; exact Hhi|].
  split; [|reflexivity]. split.
  - intro Hq.
    assert (H100 : (100 <= Qfloor (this t))%Z) by lia.
    pose proof (Qfloor_le (this t)) as Hfl.
    rewrite Zle_Qle in H100. change (inject_Z 100) with 100%Q in H100.
    assert (Hm20 : (this m == 20)%Q) by lra.
    split.
    { rewrite Hm. unfold of_Z. f_equal. apply Qc_is_canon.
      rewrite this_Q2Qc. exact Hm20. }
    assert (Hcap : forall b c, (0 < c)%Z ->
              (inject_Z c <= inject_Z (points b c))%Q -> b = true).
    { intros b c Hc Hle. apply (points_at_cap b c Hc).
      destruct (points_bounds b c ltac:(lia)). now apply Qle_antisym. }
    repeat split;
      [apply (Hcap _ 15%Z) | apply (Hcap _ 10%Z) | apply (Hcap _ 10%Z)
      | apply (Hcap _ 10%Z) | apply (Hcap _ 10%Z) | apply (Hcap _ 10%Z)
      | apply (Hcap _ 10%Z) | apply (Hcap _ 5%Z)];
      try lia;
      change (inject_Z 15) with 15%Q; change (inject_Z 10) with 10%Q;
      change (inject_Z 5) with 5%Q; lra.
  - intros (Hcap & H1 & H2 & H3 & H4 & H5 & H6 & H7 & H8).
    rewrite H1, H2, H3, H4, H5, H6, H7, H8 in Hsum. unfold points in Hsum.
    change (inject_Z 15) with 15%Q in *. change (inject_Z 10) with 10%Q in *.
    change (inject_Z 5) with 5%Q in *.
    rewrite Hcap in Hm. injection Hm as <-. rewrite this_Q2Qc in Hsum.
    change (inject_Z 20) with 20%Q in Hsum.
    assert (E : (this t == 100)%Q) by lra.
    rewrite E. reflexivity.
Qed.

(** ** Veto, reward:risk and the two RSI tests *)

Section EngineFacts.






End EngineFacts.

(** C2.  On a bar where no position is open, when the volatility state is
    ULTRA_LOW or EXTREME or the bias is NEUTRAL, the veto check answers
    true with a reason that is not empty, and [next] returns without having
    run the quality score and without placing an order. *)
Theorem C2_veto_holds_without_scoring (self : TradeExpertPro) (r : Row) :
  position self = false ->
  last_row self = Ok r ->
  Strategy.VolState r = ULTRA_LOW \/ Strategy.VolState r = EXTREME \/
  Strategy.Bias r = NEUTRAL ->
  exists reason log,
    check_veto_conditions self = Ok ((true, reason), [CheckVeto]) /\
    reason <> ""%string /\
    next self = Ok (tt, log) /\
    action_of log = HOLD /\
    scored log = false /\
    (forall size sl tp, ~ In (Buy size sl tp) log /\ ~ In (Sell size sl tp) log).
Proof.
  intros Hpos Hrow Hveto.
  pose proof (check_veto_conditions_returns self r Hrow) as Hcheck.
  assert (Hv : exists reason,
             check_veto_conditions self = Ok ((true, reason), [CheckVeto]) /\
             reason <> ""%string).
  { rewrite Hcheck.
    destruct Hveto as [E | [E | E]]; rewrite E.
    - eexists; split; [reflexivity | discriminate].
    - eexists; split; [reflexivity | discriminate].
    - destruct (Strategy.VolState r); eexists; split;
        try reflexivity; discriminate. }
  destruct Hv as (reason & Hc & Hne).
  exists reason, [CheckVeto]. split; [exact Hc|]. split; [exact Hne|].
  split.
  { unfold next. rewrite Hpos, Hc. reflexivity. }
  split; [reflexivity|]. split; [reflexivity|].
  intros size sl tp. split; intros [H|[]]; discriminate H.
Qed.



Lemma raw_score_with_RSI (x : float) (r : Row) :
  exists base : Qc,
    raw_score (with_RSI x r) =
    Fin (base + Q2Qc (inject_Z (points (rsi_score_test (Strategy.Bias r) x) 10)))%Qc /\
    forall y,
      raw_score (with_RSI y r) =
      Fin (base + Q2Qc (inject_Z (points (rsi_score_test (Strategy.Bias r) y) 10)))%Qc.
Proof.
  destruct (term_mtf_bounds r) as (m & Hm & _ & _).
  assert (Hall : forall y, exists t,
             raw_score (with_RSI y r) = Fin t /\
             (this t ==
                this m
                + inject_Z (points (fires_stack r) 15)
                + inject_Z (points (fires_supertrend r) 10)
                + inject_Z (points (rsi_score_test (Strategy.Bias r) y) 10)
                + inject_Z (points (fires_macd r) 10)
                + inject_Z (points (fires_volume r) 10)
                + inject_Z (points (fires_candle r) 10)
                + inject_Z (points (fires_break r) 10)
                + inject_Z (points (fires_normal_vol r) 5))%Q).
  { intro y. destruct (raw_score_value (with_RSI y r)) as (m' & t & Hm' & _ & _ & Ht & Hs).
    exists t. split; [exact Ht|].
    change (term_mtf (with_RSI y r)) with (term_mtf r) in Hm'.
    rewrite Hm in Hm'. injection Hm' as <-. exact Hs. }
  exists (m + Q2Qc (inject_Z (points (fires_stack r) 15))
          + Q2Qc (inject_Z (points (fires_supertrend r) 10))
          + Q2Qc (inject_Z (points (fires_macd r) 10))
          + Q2Qc (inject_Z (points (fires_volume r) 10))
          + Q2Qc (inject_Z (points (fires_candle r) 10))
          + Q2Qc (inject_Z (points (fires_break r) 10))
          + Q2Qc (inject_Z (points (fires_normal_vol r) 5)))%Qc.
  assert (Hy : forall y,
    raw_score (with_RSI y r) =
    Fin (m + Q2Qc (inject_Z (points (fires_stack r) 15))
          + Q2Qc (inject_Z (points (fires_supertrend r) 10))
          + Q2Qc (inject_Z (points (fires_macd r) 10))
          + Q2Qc (inject_Z (points (fires_volume r) 10))
          + Q2Qc (inject_Z (points (fires_candle r) 10))
          + Q2Qc (inject_Z (points (fires_break r) 10))
          + Q2Qc (inject_Z (points (fires_normal_vol r) 5))
          + Q2Qc (inject_Z (points (rsi_score_test (Strategy.Bias r) y) 10)))%Qc).
  { intro y. destruct (Hall y) as (t & Ht & Hs). rewrite Ht. f_equal.
    apply Qc_is_canon. rewrite Hs. qc2q. lra. }
  split; [apply Hy | exact Hy].
Qed.

Lemma count_true_range (bs : list bool) :
  (0 <= count_true bs <= Z.of_nat (List.length bs))%Z.
Proof.
  unfold count_true.
  assert (H : forall (l : list bool) (n : Z),
            (n <= fold_left (fun k (b : bool) => if b then k + 1 else k) l n
             <= n + Z.of_nat (List.length l))%Z).
  { induction l as [|b l IH]; intro n; [cbn; lia|].
    cbn [fold_left List.length]. destruct b.
    - specialize (IH (n + 1)%Z). lia.
    - specialize (IH n). lia. }
  specialize (H bs 0%Z). lia.
Qed.

(** The confirmation count of a side is the count of its four other
    checks plus one when its own RSI test holds. *)
Lemma confirmations_with_RSI (x : float) (r : Row) :
  bullish_confirmations (with_RSI x r)
    = (bullish_others r + (if rsi_confirms_bullish x then 1 else 0))%Z /\
  bearish_confirmations (with_RSI x r)
    = (bearish_others r + (if rsi_confirms_bearish x then 1 else 0))%Z.
Proof.
  unfold bullish_confirmations, bearish_confirmations, bullish_others,
    bearish_others, with_RSI, count_true.
  cbn [Strategy.BullishStack Strategy.BearishStack Strategy.ST_Bullish
       Strategy.ST_Bearish Strategy.MACD Strategy.MACD_Signal Strategy.RSI
       Strategy.VolumeSpike fold_left].
  split.
  - destruct (Strategy.BullishStack r), (Strategy.ST_Bullish r),
      (Strategy.MACD r >? Strategy.MACD_Signal r)%fl,
      (rsi_confirms_bullish x), (Strategy.VolumeSpike r); reflexivity.
  - destruct (Strategy.BearishStack r), (Strategy.ST_Bearish r),
      (Strategy.MACD r <? Strategy.MACD_Signal r)%fl,
      (rsi_confirms_bearish x), (Strategy.VolumeSpike r); reflexivity.
Qed.

(** Where the score test and the confirmation test of a side disagree. *)
Lemma rsi_tests_disagree (q : Qc) :
  (rsi_score_test BULLISH (Fin q) = true /\ rsi_confirms_bullish (Fin q) = false
   <-> (Q2Qc 30 < q)%Qc /\ (q <= Q2Qc 40)%Qc) /\
  (rsi_score_test BEARISH (Fin q) = true /\ rsi_confirms_bearish (Fin q) = false
   <-> (Q2Qc 60 <= q)%Qc /\ (q < Q2Qc 70)%Qc).
Proof.
  unfold rsi_score_test, rsi_confirms_bullish, rsi_confirms_bearish, Float.gtb, of_Z.
  cbn [bias_eqb andb orb Float.ltb].
  change (Q2Qc (inject_Z 30)) with (Q2Qc 30). change (Q2Qc (inject_Z 40)) with (Q2Qc 40).
  change (Q2Qc (inject_Z 60)) with (Q2Qc 60). change (Q2Qc (inject_Z 70)) with (Q2Qc 70).
  rewrite !orb_false_r.
  destruct (Qc_ltb (Q2Qc 30) q) eqn:E30; destruct (Qc_ltb q (Q2Qc 70)) eqn:E70;
    destruct (Qc_ltb (Q2Qc 40) q) eqn:E40; destruct (Qc_ltb q (Q2Qc 60)) eqn:E60;
    cbn [andb];
    repeat match goal with
           | H : Qc_ltb _ _ = true |- _ => apply Qc_ltb_lt in H
           | H : Qc_ltb _ _ = false |- _ => apply Qc_ltb_ge in H
           end;
    (split;
     (split;
      [ intros [H1 H2]; try discriminate H1; try discriminate H2; split; assumption
      | intros [H1 H2]; try (split; reflexivity);
        exfalso; qc2q; lra ])).
Qed.

(** C7.  The RSI test of the quality score asks for [30 < RSI < 70] under
    either bias; the test of the bullish confirmation count asks for
    [40 < RSI < 70] and the bearish one for [30 < RSI < 60].  Both are used:
    on every bar the running score is a base that does not depend on the
    RSI plus 10 points exactly when the score test holds, and the
    confirmation count of each side is the count of its four other checks
    (between 0 and 4) plus one exactly when the test of that side holds.
    The tests differ: a confirmation test implies the score test of its
    bias, and for a number they disagree exactly on [30 < RSI <= 40]
    (bullish) and on [60 <= RSI < 70] (bearish); at RSI 35 under a BULLISH
    bias the score gains its 10 points (compared with a bar that differs in
    its RSI only and has none) while the bullish confirmation count is not
    raised, and at RSI 55 it is raised by one. *)
Theorem C7_rsi_score_and_confirmation_tests_differ :
  (forall bias rsi,
     rsi_score_test bias rsi =
     negb (bias_eqb bias NEUTRAL) && ((of_Z 30 <? rsi) && (rsi <? of_Z 70))%fl) /\
  (forall rsi,
     rsi_confirms_bullish rsi = ((of_Z 40 <? rsi) && (rsi <? of_Z 70))%fl) /\
  (forall rsi,
     rsi_confirms_bearish rsi = ((rsi <? of_Z 60) && (of_Z 30 <? rsi))%fl) /\
  (rsi_score_test BULLISH (of_Z 35) = true /\ rsi_confirms_bullish (of_Z 35) = false) /\
  (rsi_score_test BEARISH (of_Z 65) = true /\ rsi_confirms_bearish (of_Z 65) = false) /\
  (forall r,
     Strategy.Bias r = BULLISH ->
     raw_score (with_RSI (of_Z 35) r) = (raw_score (with_RSI NaN r) + of_Z 10)%fl /\
     bullish_confirmations (with_RSI (of_Z 35) r)
       = bullish_confirmations (with_RSI NaN r)) /\
  (forall r, exists base : Qc, forall x,
     raw_score (with_RSI x r)
       = Fin (base + Q2Qc (inject_Z (points (rsi_score_test (Strategy.Bias r) x) 10)))%Qc) /\
  (forall r x,
     bullish_confirmations (with_RSI x r)
       = (bullish_others r + (if rsi_confirms_bullish x then 1 else 0))%Z /\
     bearish_confirmations (with_RSI x r)
       = (bearish_others r + (if rsi_confirms_bearish x then 1 else 0))%Z /\
     (0 <= bullish_others r <= 4)%Z /\ (0 <= bearish_others r <= 4)%Z) /\
  (forall r,
     bullish_confirmations (with_RSI (of_Z 55) r)
       = (bullish_confirmations (with_RSI (of_Z 35) r) + 1)%Z /\
     bearish_confirmations (with_RSI (of_Z 45) r)
       = (bearish_confirmations (with_RSI (of_Z 65) r) + 1)%Z) /\
  (forall x,
     (rsi_confirms_bullish x = true -> rsi_score_test BULLISH x = true) /\
     (rsi_confirms_bearish x = true -> rsi_score_test BEARISH x = true)) /\
  (forall q : Qc,
     (rsi_score_test BULLISH (Fin q) = true /\ rsi_confirms_bullish (Fin q) = false
      <-> (Q2Qc 30 < q)%Qc /\ (q <= Q2Qc 40)%Qc) /\
     (rsi_score_test BEARISH (Fin q) = true /\ rsi_confirms_bearish (Fin q) = false
      <-> (Q2Qc 60 <= q)%Qc /\ (q < Q2Qc 70)%Qc)).
Proof.
  split; [intros [] rsi; unfold rsi_score_test; cbn;
          rewrite ?orb_false_r; reflexivity|].
  split; [reflexivity|]. split; [reflexivity|].
  split; [split; reflexivity|]. split; [split; reflexivity|].
  split.
  { intros r Hb. split; [|reflexivity].
    destruct (raw_score_with_RSI NaN r) as (base & _ & Hy).
    rewrite (Hy (of_Z 35)), (Hy NaN), Hb. cbn [Float.add of_Z].
    change (rsi_score_test BULLISH (of_Z 35)) with true.
    change (rsi_score_test BULLISH NaN) with false.
    f_equal. apply Qc_is_canon. unfold points. qc2q.
    change (inject_Z 10) with 10%Q. change (inject_Z 0) with 0%Q. lra. }
  split.
  { intro r. destruct (raw_score_with_RSI NaN r) as (base & _ & Hy).
    exists base. exact Hy. }
  split.
  { intros r x. destruct (confirmations_with_RSI x r) as [Hb Hs].
    split; [exact Hb|]. split; [exact Hs|].
    split; [exact (count_true_range _) | exact (count_true_range _)]. }
  split.
  { intro r.
    destruct (confirmations_with_RSI (of_Z 55) r) as [Hb55 _].
    destruct (confirmations_with_RSI (of_Z 35) r) as [Hb35 _].
    destruct (confirmations_with_RSI (of_Z 45) r) as [_ Hs45].
    destruct (confirmations_with_RSI (of_Z 65) r) as [_ Hs65].
    rewrite Hb55, Hb35, Hs45, Hs65.
    change (rsi_confirms_bullish (of_Z 55)) with true.
    change (rsi_confirms_bullish (of_Z 35)) with false.
    change (rsi_confirms_bearish (of_Z 45)) with true.
    change (rsi_confirms_bearish (of_Z 65)) with false.
    split; lia. }
  split.
  { intro x. unfold rsi_confirms_bullish, rsi_confirms_bearish, rsi_score_test,
      Float.gtb, of_Z.
    cbn [bias_eqb andb orb]. rewrite !orb_false_r.
    destruct x as [q| | |]; cbn [Float.ltb]; try (split; discriminate).
    destruct (Qc_ltb (Q2Qc (inject_Z 30)) q) eqn:E30;
      destruct (Qc_ltb q (Q2Qc (inject_Z 70))) eqn:E70;
      destruct (Qc_ltb (Q2Qc (inject_Z 40)) q) eqn:E40;
      destruct (Qc_ltb q (Q2Qc (inject_Z 60))) eqn:E60;
      cbn [andb]; split; intro H; try reflexivity; try discriminate H;
      exfalso;
      repeat match goal with
             | H : Qc_ltb _ _ = true |- _ => apply Qc_ltb_lt in H
             | H : Qc_ltb _ _ = false |- _ => apply Qc_ltb_ge in H
             end;
      qc2q; change (inject_Z 30) with 30%Q in *; change (inject_Z 40) with 40%Q in *;
      change (inject_Z 60) with 60%Q in *; change (inject_Z 70) with 70%Q in *; lra. }
  exact rsi_tests_disagree.
Qed.

(** ** The theorems at concrete bars *)

Lemma C2_veto_holds_without_scoring_witness :
  position (default_strategy [extreme_row] false) = false /\
  last_row (default_strategy [extreme_row] false) = Ok extreme_row /\
  (Strategy.VolState extreme_row = ULTRA_LOW \/
   Strategy.VolState extreme_row = EXTREME \/
   Strategy.Bias extreme_row = NEUTRAL) /\
  exists reason log,
    check_veto_conditions (default_strategy [extreme_row] false)
      = Ok ((true, reason), [CheckVeto]) /\
    reason <> ""%string /\
    next (default_strategy [extreme_row] false) = Ok (tt, log) /\
    action_of log = HOLD /\
    scored log = false /\
    (forall size sl tp, ~ In (Buy size sl tp) log /\ ~ In (Sell size sl tp) log).
Proof.
  split; [reflexivity|]. split; [reflexivity|].
  split; [right; left; reflexivity|].
  apply (C2_veto_holds_without_scoring (default_strategy [extreme_row] false) extreme_row);
    [reflexivity | reflexivity | right; left; reflexivity].
Defined.

Lemma C3_quality_score_range_witness :
  last_row (default_strategy [full_row] false) = Ok full_row /\
  exists q m,
    get_quality_score (default_strategy [full_row] false) = Ok (q, [QualityScore]) /\
    (0 <= q <= 100)%Z /\
    term_mtf full_row = Fin m /\ (0 <= m)%Qc /\ (m <= Q2Qc 20)%Qc /\
    (q = 100%Z <->
       term_mtf full_row = of_Z 20 /\ fires_stack full_row = true /\
       fires_supertrend full_row = true /\
       fires_rsi full_row = true /\ fires_macd full_row = true /\
       fires_volume full_row = true /\
       fires_candle full_row = true /\ fires_break full_row = true /\
       fires_normal_vol full_row = true) /\
    (20 + 15 + 10 + 10 + 10 + 10 + 10 + 10 + 5 = 100)%Z.
Proof.
  split; [reflexivity|].
  apply (C3_quality_score_range (default_strategy [full_row] false) full_row).
  reflexivity.
Defined.

(** The score of [full_row] is 100: the caps are reached together. *)
Example full_row_scores_100 :
  get_quality_score (default_strategy [full_row] false) = Ok (100%Z, [QualityScore]).
Proof. reflexivity. Qed.

Lemma C4_supertrend_transition_rule_witness :
  (0 <= 2)%Z /\ (2 < List.length three_bars)%nat /\
  exists atr_val st dir,
    atr (map high three_bars) (map low three_bars) (map close three_bars) 2
      = Ok atr_val /\
    supertrend (map high three_bars) (map low three_bars) (map close three_bars)
      2 (of_Z 1) = Ok (st, dir) /\
    let upper :=
      nth 2 (upper_band (map high three_bars) (map low three_bars) atr_val (of_Z 1)) NaN in
    let lower :=
      nth 2 (lower_band (map high three_bars) (map low three_bars) atr_val (of_Z 1)) NaN in
    let close_prev := nth 1 (map close three_bars) NaN in
    let band_prev := nth 1 st NaN in
    let close_i := nth 2 (map close three_bars) NaN in
    let band := nth 2 st NaN in
    let direction := nth 2 dir 0%Z in
    ((close_prev <=? band_prev)%fl = true ->
       (direction = 1%Z <-> (close_i >? upper)%fl = true) /\
       ((close_i >? upper)%fl = true -> band = lower) /\
       ((close_i >? upper)%fl = false ->
          direction = (-1)%Z /\ band = py_min2 upper band_prev /\
          (band >? band_prev)%fl = false /\
          (isnan upper = false ->
             (band <=? band_prev)%fl = true /\ (band <=? upper)%fl = true))) /\
    ((close_prev <=? band_prev)%fl = false ->
       (direction = (-1)%Z <-> (close_i <? lower)%fl = true) /\
       ((close_i <? lower)%fl = true -> band = upper) /\
       ((close_i <? lower)%fl = false ->
          direction = 1%Z /\ band = py_max2 lower band_prev /\
          (band <? band_prev)%fl = false /\
          (isnan lower = false -> isnan band_prev = false ->
             (band_prev <=? band)%fl = true /\ (lower <=? band)%fl = true))).
Proof.
  split; [lia|]. split; [cbn; lia|].
  apply (C4_supertrend_transition_rule three_bars 2 (of_Z 1) 1); [lia | cbn; lia].
Defined.



(** On the flat bar the score passes and the five confirmations hold, the
    stop falls on the close, the risk is zero, and [next] places no order. *)
Example flat_row_is_held :
  exists sl tp1 tp2 tp3,
    get_sl_tp (default_strategy [flat_row] false) true
      = Ok ((sl, tp1, tp2, tp3), [SlTp true]) /\
    ((Strategy.Close flat_row - sl) <=? zero)%fl = true /\
    reward_risk_long (Strategy.Close flat_row) sl tp2 = zero /\
    next (default_strategy [flat_row] false)
      = Ok (tt, [CheckVeto; QualityScore; SlTp true]).
Proof.
  eexists _, _, _, _. split; [reflexivity|].
  split; [reflexivity|]. split; reflexivity.
Qed.

(** With the same levels but some range, the entry goes through. *)
Example full_row_enters_long :
  action_of
    (match next (default_strategy [full_row] false) with
     | Ok (_, log) => log
     | Raise _ => []
     end) = ENTER_LONG.
Proof. reflexivity. Qed.

(* ================================================================== *)
(** * Further properties of the indicators *)

(** ** Exponential and simple means *)

Section EwmFacts.

Variable span : Z.

(** One step of the exponentially weighted mean on two numbers is the
    textbook update. *)
Lemma ewm_step_finite (w c : Qc) :
  ewm_step (alpha_of span) (Fin w) 1%Qc (Fin c) =
  (Fin (alpha_of span * c + (1 - alpha_of span) * w)%Qc, 1%Qc).
Proof.
  set (a := alpha_of span).
  assert (Hone : (1 * (1 - a) + a)%Qc = 1%Qc) by ring.
  assert (Hne : Qc_eqb (1 * (1 - a) + a) 0 = false).
  { apply Qc_eqb_neq. rewrite Hone. intro H. apply (f_equal this) in H. discriminate H. }
  unfold ewm_step. cbn [isnan negb Float.eqb].
  destruct (Qc_eqb w c) eqn:E.
  - apply Qc_eqb_eq in E. subst. do 2 f_equal. ring.
  - cbn [Float.mul Float.add Float.div]. rewrite Hne.
    do 2 f_equal. rewrite Hone. field.
    intro H. apply (f_equal this) in H. discriminate H.
Qed.

End EwmFacts.

(** The rows of the exponentially weighted mean of a series of numbers. *)
Lemma ewm_loop_rows (span : Z) (qs : list Qc) :
  (1 <= span)%Z ->
  forall w : Qc,
  exists es : list Qc,
    ewm_loop (alpha_of span) (Fin w) 1%Qc (map Fin qs) = map Fin es /\
    List.length es = List.length qs /\
    forall i, (i < List.length qs)%nat ->
      nth i es 0%Qc =
      (alpha_of span * nth i qs 0%Qc
       + (1 - alpha_of span) * nth i (w :: es) 0%Qc)%Qc.
Proof.
  intro Hs. induction qs as [|q qs IH]; intro w.
  - exists []. cbn. repeat split; auto. intros i Hi. lia.
  - cbn [map ewm_loop]. rewrite (ewm_step_finite span).
    destruct (IH (alpha_of span * q + (1 - alpha_of span) * w)%Qc)
      as (es & Hes & Hlen & Hrec).
    exists ((alpha_of span * q + (1 - alpha_of span) * w)%Qc :: es).
    rewrite Hes. split; [reflexivity|]. split; [cbn; now rewrite Hlen|].
    intros [|i] Hi; [reflexivity|].
    cbn [nth]. apply Hrec. cbn in Hi. lia.
Qed.

(** X1.  [ema] on a series of numbers follows the recurrence
    [e[0] = s[0]], [e[i+1] = alpha * s[i+1] + (1 - alpha) * e[i]] with
    [alpha = 2 / (length + 1)], and has a value at every row. *)
Theorem ema_follows_recurrence (qs : list Qc) (length : Z) :
  (1 <= length)%Z ->
  exists es : list Qc,
    ema (map Fin qs) length = Ok (map Fin es) /\
    List.length es = List.length qs /\
    nth_error es 0 = nth_error qs 0 /\
    forall i, (S i < List.length qs)%nat ->
      nth (S i) es 0%Qc =
      (alpha_of length * nth (S i) qs 0%Qc
       + (1 - alpha_of length) * nth i es 0%Qc)%Qc.
Proof.
  intro Hs. unfold ema, ewm_mean.
  destruct (length <? 1)%Z eqn:E; [apply Z.ltb_lt in E; lia|].
  fold (alpha_of length).
  destruct qs as [|q qs].
  - exists []. cbn. repeat split; auto. intros i Hi. lia.
  - destruct (ewm_loop_rows length qs Hs q) as (es & Hes & Hlen & Hrec).
    exists (q :: es). cbn [map]. rewrite Hes.
    split; [reflexivity|]. split; [cbn; now rewrite Hlen|].
    split; [reflexivity|].
    intros i Hi. cbn [nth]. cbn in Hi.
    rewrite (Hrec i ltac:(lia)). reflexivity.
Qed.

Lemma ema_follows_recurrence_witness :
  (1 <= 9)%Z /\
  exists es : list Qc,
    ema (map Fin [Q2Qc 1; Q2Qc 5; Q2Qc 2]) 9 = Ok (map Fin es) /\
    List.length es = List.length [Q2Qc 1; Q2Qc 5; Q2Qc 2] /\
    nth_error es 0 = nth_error [Q2Qc 1; Q2Qc 5; Q2Qc 2] 0 /\
    forall i, (S i < List.length [Q2Qc 1; Q2Qc 5; Q2Qc 2])%nat ->
      nth (S i) es 0%Qc =
      (alpha_of 9 * nth (S i) [Q2Qc 1; Q2Qc 5; Q2Qc 2] 0%Qc
       + (1 - alpha_of 9) * nth i es 0%Qc)%Qc.
Proof.
  split; [lia|]. apply (ema_follows_recurrence [Q2Qc 1; Q2Qc 5; Q2Qc 2] 9). lia.
Defined.

Lemma ewm_loop_is_rec (span : Z) (qs : list Qc) (w : Qc) :
  ewm_loop (alpha_of span) (Fin w) 1%Qc (map Fin qs)
  = map Fin (ewm_rec (alpha_of span) w qs).
Proof.
  revert w. induction qs as [|q qs IH]; intro w; [reflexivity|].
  cbn [map ewm_loop ewm_rec]. rewrite (ewm_step_finite span). now rewrite IH.
Qed.

Lemma ema_is_rec (span : Z) (qs : list Qc) :
  (1 <= span)%Z -> ewm_mean span (map Fin qs) = Ok (map Fin (ema_rec span qs)).
Proof.
  intro Hs. unfold ewm_mean.
  destruct (span <? 1)%Z eqn:E; [apply Z.ltb_lt in E; lia|].
  fold (alpha_of span). destruct qs as [|q qs]; [reflexivity|].
  cbn [map ema_rec]. now rewrite ewm_loop_is_rec.
Qed.

Lemma ewm_rec_length (a w : Qc) (qs : list Qc) :
  List.length (ewm_rec a w qs) = List.length qs.
Proof. revert w. induction qs; intro w; cbn; auto. Qed.

Lemma ema_rec_length (span : Z) (qs : list Qc) :
  List.length (ema_rec span qs) = List.length qs.
Proof. destruct qs; cbn; auto using ewm_rec_length. Qed.

(** Shifting every value by [k] shifts the mean by [k]. *)
Lemma ewm_rec_shift (a k : Qc) (qs : list Qc) (w : Qc) :
  ewm_rec a (w + k) (map (fun q => q + k) qs)%Qc
  = map (fun e => e + k)%Qc (ewm_rec a w qs).
Proof.
  revert w. induction qs as [|q qs IH]; intro w; [reflexivity|].
  cbn [map ewm_rec].
  replace (a * (q + k) + (1 - a) * (w + k))%Qc
    with (a * q + (1 - a) * w + k)%Qc by ring.
  now rewrite IH.
Qed.

Lemma ema_rec_shift (span : Z) (k : Qc) (qs : list Qc) :
  ema_rec span (map (fun q => q + k)%Qc qs)
  = map (fun e => e + k)%Qc (ema_rec span qs).
Proof.
  destruct qs as [|q qs]; [reflexivity|].
  cbn [map ema_rec]. now rewrite ewm_rec_shift.
Qed.

Lemma sub_map_Fin (xs ys : list Qc) :
  smap2 Float.sub (map Fin xs) (map Fin ys)
  = map Fin (zip_with Qcminus xs ys).
Proof.
  unfold smap2. revert ys. induction xs as [|x xs IH]; intros [|y ys]; cbn; auto.
  now rewrite IH.
Qed.

Lemma zip_minus_shift (k : Qc) (xs ys : list Qc) :
  zip_with Qcminus (map (fun e => e + k)%Qc xs) (map (fun e => e + k)%Qc ys)
  = zip_with Qcminus xs ys.
Proof.
  revert ys. induction xs as [|x xs IH]; intros [|y ys]; cbn; auto.
  rewrite IH. f_equal. ring.
Qed.

(** X3.  MACD sees price differences only: adding one constant to every
    value of a series of numbers leaves the MACD line, the signal line and
    the histogram as they are. *)
Theorem macd_ignores_the_price_level (qs : list Qc) (k : Qc) (fast slow signal : Z) :
  (1 <= fast)%Z -> (1 <= slow)%Z -> (1 <= signal)%Z ->
  exists out,
    macd (map Fin qs) fast slow signal = Ok out /\
    macd (map Fin (map (fun q => q + k)%Qc qs)) fast slow signal = Ok out.
Proof.
  intros Hf Hs Hg. unfold macd.
  rewrite !ema_is_rec by assumption. cbn [bind].
  rewrite !sub_map_Fin, !ema_is_rec by assumption. cbn [bind].
  rewrite !ema_rec_shift, zip_minus_shift.
  eexists. split; reflexivity.
Qed.

Lemma macd_ignores_the_price_level_witness :
  (1 <= 12)%Z /\ (1 <= 26)%Z /\ (1 <= 9)%Z /\
  exists out,
    macd (map Fin [Q2Qc 1; Q2Qc 5; Q2Qc 2]) 12 26 9 = Ok out /\
    macd (map Fin (map (fun q => q + Q2Qc 100)%Qc [Q2Qc 1; Q2Qc 5; Q2Qc 2])) 12 26 9
      = Ok out.
Proof.
  split; [lia|]. split; [lia|]. split; [lia|].
  apply (macd_ignores_the_price_level [Q2Qc 1; Q2Qc 5; Q2Qc 2] (Q2Qc 100) 12 26 9); lia.
Defined.

(** ** Rolling means *)




(** A rolling aggregate has no value before its window is complete. *)
Lemma rolling_agg_warmup (agg : list Qc -> float) (n i : nat) (s : Series) :
  (S i < n)%nat -> nth i (rolling_agg agg n s) NaN = NaN.
Proof.
  intro H. unfold rolling_agg.
  destruct (Nat.lt_ge_cases i (List.length s)) as [Hi|Hi].
  - rewrite nth_map_seq by exact Hi. unfold window.
    replace (n <=? S i)%nat with false; [reflexivity|].
    symmetry. apply Nat.leb_gt. exact H.
  - apply nth_overflow. now rewrite length_map, length_seq.
Qed.



(** ** True range and ATR *)

Section TrueRange.

Lemma Qc_leb_le (a b : Qc) : Qc_leb a b = true <-> (a <= b)%Qc.
Proof.
  unfold Qc_leb. rewrite Qcle_alt.
  destruct (a ?= b)%Qc; split; congruence.
Qed.

Lemma zip_with_firstn {A B C : Type} (f : A -> B -> C) (a : list A) (b : list B) (n : nat) :
  (List.length a <= n)%nat -> zip_with f a (firstn n b) = zip_with f a b.
Proof.
  revert b n. induction a as [|x a IH]; intros [|y b] [|n] H; cbn in *; auto; try lia.
  f_equal. apply IH. lia.
Qed.

(** Against a series of the same length, a shifted series is the series
    with a missing value in front. *)
Lemma zip_with_shift1 {C : Type} (f : float -> float -> C) (a b : Series) :
  List.length a = List.length b ->
  zip_with f a (shift1 b) = zip_with f a (NaN :: b).
Proof.
  intro H. destruct b as [|y b].
  - destruct a; [reflexivity | discriminate].
  - unfold shift1. destruct a as [|x a]; [reflexivity|].
    cbn [zip_with]. f_equal.
    rewrite removelast_firstn_len. apply zip_with_firstn.
    cbn in *. lia.
Qed.

Lemma abs_nonneg (x : float) :
  isinf x = false ->
  x = NaN \/ exists q, Float.abs x = Fin q /\ (0 <= q)%Qc.
Proof.
  destruct x as [q| | |]; try discriminate; auto. intros _. right. cbn.
  destruct (Qc_ltb q 0) eqn:E; eexists; split; try reflexivity.
  - apply Qc_ltb_lt in E. qc2q. lra.
  - now apply Qc_ltb_ge in E.
Qed.

Lemma fmax2_nonneg (a b : Qc) :
  (0 <= a)%Qc -> exists t, fmax2 (Fin a) (Fin b) = Fin t /\ (0 <= t)%Qc.
Proof.
  intro Ha. unfold fmax2. cbn [Float.ltb].
  destruct (Qc_ltb a b) eqn:E; eexists; split; try reflexivity; auto.
  apply Qc_ltb_lt in E. eapply Qcle_trans; [exact Ha | now apply Qclt_le_weak].
Qed.

(** The true range of a well-formed bar, given the previous close (missing
    on the first row), is a number that is not negative. *)
Lemma true_range_row (h l : Qc) (prev : float) :
  (l <= h)%Qc -> isinf prev = false ->
  exists t,
    nan_fold fmax2 [Fin h - Fin l; Float.abs (Fin h - prev); Float.abs (Fin l - prev)]%fl
      = Fin t /\ (0 <= t)%Qc.
Proof.
  intros Hlh Hp.
  assert (Ha : (0 <= h - l)%Qc) by (qc2q; lra).
  destruct prev as [p| | |]; try discriminate.
  - cbn [Float.sub Float.neg Float.add].
    destruct (abs_nonneg (Fin (h + - p)) eq_refl) as [E|(b & Hb & Hb0)]; [discriminate|].
    destruct (abs_nonneg (Fin (l + - p)) eq_refl) as [E|(c & Hc & Hc0)]; [discriminate|].
    rewrite Hb, Hc. unfold nan_fold. cbn [filter isnan negb fold_left].
    destruct (fmax2_nonneg (h + - l) b Ha) as (t1 & -> & Ht1).
    exact (fmax2_nonneg t1 c Ht1).
  - cbn. eauto.
Qed.

Lemma true_range_numbers (df : list Bar) :
  Forall (fun b => well_formed_bar b = true) df ->
  forall prev : float, isinf prev = false ->
  exists ts : list Qc,
    row_max3 (smap2 Float.sub (map high df) (map low df))
             (map Float.abs (smap2 Float.sub (map high df) (prev :: map close df)))
             (map Float.abs (smap2 Float.sub (map low df) (prev :: map close df)))
      = map Fin ts /\
    Forall (fun t => (0 <= t)%Qc) ts.
Proof.
  induction 1 as [|b df Hb _ IH]; intros prev Hp.
  - exists []. split; [reflexivity | constructor].
  - unfold well_formed_bar in Hb.
    destruct (high b) as [h| | |] eqn:Eh; try discriminate.
    destruct (low b) as [l| | |] eqn:El; try discriminate.
    destruct (close b) as [c| | |] eqn:Ec; try discriminate.
    apply Qc_leb_le in Hb.
    destruct (true_range_row h l prev Hb Hp) as (t & Ht & Ht0).
    destruct (IH (Fin c) eq_refl) as (ts & Hts & Hts0).
    exists (t :: ts). split; [|constructor; assumption].
    unfold row_max3, smap2 in *. cbn [map zip_with fst snd].
    rewrite Eh, El, Ec. cbn [map zip_with fst snd]. rewrite Ht. f_equal. exact Hts.
Qed.

End TrueRange.

(** X5.  ATR on well-formed bars (numbers, [low <= high]) is never
    negative: it has one row per bar, no value on the first [length - 1]
    rows, and on no row a value below zero. *)
Theorem atr_is_nonnegative (df : list Bar) (length : Z) (i : nat) :
  (1 <= length)%Z ->
  Forall (fun b => well_formed_bar b = true) df ->
  (i < List.length df)%nat ->
  exists out,
    atr (map high df) (map low df) (map close df) length = Ok out /\
    List.length out = List.length df /\
    ((S i < Z.to_nat length)%nat -> nth i out NaN = NaN) /\
    (nth i out NaN <? zero)%fl = false.
Proof.
  intros Hlen Hwf Hi.
  destruct (atr_ok df length ltac:(lia)) as (out & Hout & Hol).
  exists out. split; [exact Hout|]. split; [exact Hol|].
  unfold atr in Hout. rewrite rolling_mean_ok in Hout by lia.
  injection Hout as <-.
  split; [apply rolling_agg_warmup|].
  destruct (Nat.lt_ge_cases (S i) (Z.to_nat length)) as [Hw|Hw].
  { now rewrite rolling_agg_warmup. }
  unfold smap2. rewrite !zip_with_shift1 by now rewrite !length_map.
  destruct (true_range_numbers df Hwf NaN eq_refl) as (ts & Hts & Hts0).
  unfold smap2 in Hts. rewrite Hts.
  assert (Htl : List.length ts = List.length df).
  { apply (f_equal (@List.length _)) in Hts.
    rewrite length_map in Hts. rewrite <- Hts.
    unfold row_max3. rewrite !zip_with_length, !length_map, !zip_with_length.
    cbn [List.length]. rewrite !length_map. lia. }
  rewrite rolling_agg_nth by lia.
  set (w := firstn (Z.to_nat length) (skipn (S i - Z.to_nat length) ts)).
  assert (Hwl : List.length w = Z.to_nat length).
  { unfold w. rewrite length_firstn, length_skipn. lia. }
  assert (Hne : w <> []) by (intro E; rewrite E in Hwl; cbn in Hwl; lia).
  rewrite (mean_nonempty w Hne). unfold zero, of_Z. cbn [Float.ltb].
  apply Qc_ltb_ge. apply Qc_div_nonneg.
  - apply Qc_sum_nonneg. unfold w. now apply Forall_firstn, Forall_skipn.
  - apply Qc_of_nat_pos. lia.
Qed.

Lemma atr_is_nonnegative_witness :
  (1 <= 2)%Z /\ Forall (fun b => well_formed_bar b = true) three_bars /\
  (2 < List.length three_bars)%nat /\
  exists out,
    atr (map high three_bars) (map low three_bars) (map close three_bars) 2 = Ok out /\
    List.length out = List.length three_bars /\
    ((S 2 < Z.to_nat 2)%nat -> nth 2 out NaN = NaN) /\
    (nth 2 out NaN <? zero)%fl = false.
Proof.
  assert (H : Forall (fun b => well_formed_bar b = true) three_bars)
    by (repeat constructor).
  split; [lia|]. split; [exact H|]. split; [cbn; lia|].
  apply (atr_is_nonnegative three_bars 2 2); [lia | exact H | cbn; lia].
Defined.

(** ** SuperTrend: outcomes and warm-up *)

(** X6.  What [supertrend] does on the columns of a frame: a negative length
    is refused with [ValueError] whatever the frame; with a length that is
    not negative an empty frame fails with [IndexError]; and any other frame
    gives a band and a direction for every bar, the direction being [+1] or
    [-1] on every row. *)
Theorem supertrend_outcomes (df : list Bar) (length : Z) (multiplier : float) :
  ((length < 0)%Z ->
     supertrend (map high df) (map low df) (map close df) length multiplier
       = Raise ValueError) /\
  ((0 <= length)%Z -> df = [] ->
     supertrend (map high df) (map low df) (map close df) length multiplier
       = Raise IndexError) /\
  ((0 <= length)%Z -> df <> [] ->
     exists st dir,
       supertrend (map high df) (map low df) (map close df) length multiplier
         = Ok (st, dir) /\
       List.length st = List.length df /\ List.length dir = List.length df /\
       Forall (fun d => d = 1%Z \/ d = (-1)%Z) dir).
Proof.
  split; [|split].
  - intro H. unfold supertrend, atr, rolling_mean.
    apply Z.ltb_lt in H. now rewrite H.
  - intros H ->. unfold supertrend, atr. now rewrite rolling_mean_ok by exact H.
  - intros H Hne.
    destruct (supertrend_returns df length multiplier Hne H) as ([st dir] & Hst).
    exists st, dir. split; [exact Hst|].
    destruct (supertrend_output_length df length multiplier st dir Hst) as [H1 H2].
    split; [exact H1|]. split; [exact H2|].
    exact (supertrend_directions _ _ _ _ _ _ _ Hst).
Qed.

Section WarmUp.

Lemma leb_NaN_r (x : float) : (x <=? NaN)%fl = false.
Proof. now destruct x. Qed.

Lemma ltb_NaN_r (x : float) : (x <? NaN)%fl = false.
Proof. now destruct x. Qed.

Lemma sub_NaN_r (x : float) : (x - NaN)%fl = NaN.
Proof. now destruct x. Qed.

Lemma add_NaN_r (x : float) : (x + NaN)%fl = NaN.
Proof. now destruct x. Qed.

Lemma mul_NaN_r (x : float) : (x * NaN)%fl = NaN.
Proof. now destruct x. Qed.

(** In the warm-up of the band the step keeps the band missing and writes
    the direction [+1]. *)
Lemma supertrend_step_warmup (cp c u : float) :
  supertrend_step cp NaN c u NaN = (NaN, 1%Z).
Proof.
  unfold supertrend_step. now rewrite leb_NaN_r, ltb_NaN_r.
Qed.

Variable df : list Bar.
Variable length : Z.
Variable multiplier : float.
Hypothesis length_nonneg : (0 <= length)%Z.

(** The two bands have no value while ATR has none. *)
Lemma bands_warmup (atr_val : Series) (i : nat) :
  atr (map high df) (map low df) (map close df) length = Ok atr_val ->
  (i < List.length df)%nat -> (S i < Z.to_nat length)%nat ->
  nth i (upper_band (map high df) (map low df) atr_val multiplier) NaN = NaN /\
  nth i (lower_band (map high df) (map low df) atr_val multiplier) NaN = NaN.
Proof.
  intros Hatr Hi Hw.
  assert (Hal : List.length atr_val = List.length df).
  { destruct (atr_ok df length length_nonneg) as (a & Ha & Hl). congruence. }
  assert (Hnan : nth i atr_val NaN = NaN).
  { unfold atr in Hatr. rewrite rolling_mean_ok in Hatr by exact length_nonneg.
    injection Hatr as <-. now apply rolling_agg_warmup. }
  assert (Hh : List.length (hl2 (map high df) (map low df)) = List.length df).
  { unfold hl2, smap2. rewrite length_map, zip_with_length, !length_map. lia. }
  unfold upper_band, lower_band, smap2.
  rewrite !(zip_with_nth _ _ _ i NaN NaN NaN) by (rewrite ?length_map; lia).
  rewrite (nth_map_lt _ _ i NaN NaN) by lia.
  rewrite Hnan, mul_NaN_r, add_NaN_r, sub_NaN_r. auto.
Qed.

Lemma supertrend_warmup_rows (i : nat) :
  (i < List.length df)%nat -> (S i < Z.to_nat length)%nat ->
  forall st dir,
    supertrend (map high df) (map low df) (map close df) length multiplier
      = Ok (st, dir) ->
    nth i st NaN = NaN /\ nth i dir 0%Z = 1%Z.
Proof.
  intros Hi Hw st dir Hst.
  induction i as [|i IH].
  - assert (Hne : df <> []) by (intros ->; cbn in Hi; lia).
    destruct (supertrend_ok df length multiplier length_nonneg Hne)
      as (a & c0 & u0 & l0 & rest & Hatr & Hrows & _ & Hst').
    rewrite Hst in Hst'. injection Hst' as -> ->. cbn [map nth fst snd].
    split; [|reflexivity].
    assert (H0 : nth_error ((c0, (u0, l0)) :: rest) 0 = Some (c0, (u0, l0)))
      by reflexivity.
    rewrite <- Hrows in H0. apply rows_nth_error in H0 as (_ & Hu & _).
    destruct (bands_warmup a 0 Hatr Hi Hw) as [Hup _].
    now rewrite (nth_error_nth _ _ NaN Hu) in Hup.
  - destruct (IH ltac:(lia) ltac:(lia)) as [Hprev _].
    destruct (supertrend_rows df length multiplier i length_nonneg Hi)
      as (a & st' & dir' & Hatr & Hst' & Hstep).
    rewrite Hst in Hst'. injection Hst' as <- <-.
    destruct (bands_warmup a (S i) Hatr Hi Hw) as [_ Hlo].
    rewrite Hprev, Hlo, supertrend_step_warmup in Hstep.
    now injection Hstep.
Qed.

End WarmUp.

(** X7.  While ATR is warming up (rows [i < length - 1]) the SuperTrend
    band has no value and the direction is [+1], whatever the prices. *)
Theorem supertrend_warmup_is_uptrend
  (df : list Bar) (length : Z) (multiplier : float) (i : nat) :
  (0 <= length)%Z -> (i < List.length df)%nat -> (S i < Z.to_nat length)%nat ->
  exists st dir,
    supertrend (map high df) (map low df) (map close df) length multiplier
      = Ok (st, dir) /\
    nth_error st i = Some NaN /\ nth_error dir i = Some 1%Z.
Proof.
  intros Hlen Hi Hw.
  assert (Hne : df <> []) by (intros ->; cbn in Hi; lia).
  destruct (supertrend_returns df length multiplier Hne Hlen) as ([st dir] & Hst).
  exists st, dir. split; [exact Hst|].
  destruct (supertrend_output_length df length multiplier st dir Hst) as [H1 H2].
  destruct (supertrend_warmup_rows df length multiplier Hlen i Hi Hw st dir Hst)
    as [Hs Hd].
  split.
  - rewrite (nth_error_nth' st NaN) by lia. now rewrite Hs.
  - rewrite (nth_error_nth' dir 0%Z) by lia. now rewrite Hd.
Qed.

Lemma supertrend_warmup_is_uptrend_witness :
  (0 <= 10)%Z /\ (2 < List.length three_bars)%nat /\ (S 2 < Z.to_nat 10)%nat /\
  exists st dir,
    supertrend (map high three_bars) (map low three_bars) (map close three_bars)
      10 (of_Z 3) = Ok (st, dir) /\
    nth_error st 2 = Some NaN /\ nth_error dir 2 = Some 1%Z.
Proof.
  split; [lia|]. split; [cbn; lia|]. split; [cbn; lia|].
  apply (supertrend_warmup_is_uptrend three_bars 10 (of_Z 3) 2);
    [lia | cbn; lia | cbn; lia].
Defined.

(** ** Volatility buckets *)

Section VolState.

Lemma Qc_ltb_trans_false (a b x : Qc) :
  (a <= b)%Qc -> Qc_ltb x a = true -> Qc_ltb b x = false.
Proof.
  intros Hab H. apply Qc_ltb_lt in H. apply Qc_ltb_ge.
  apply Qclt_le_weak. eapply Qclt_le_trans; eassumption.
Qed.

Lemma thresholds_ordered :
  (Q2Qc (4 # 10) <= Q2Qc (7 # 10))%Qc /\ (Q2Qc (7 # 10) <= Q2Qc (15 # 10))%Qc /\
  (Q2Qc (15 # 10) <= Q2Qc (25 # 10))%Qc.
Proof. repeat split; vm_compute; discriminate. Qed.

End VolState.

(** X8.  The volatility bucket of a ratio, with the later assignments
    overriding the earlier ones: EXTREME above 2.5, HIGH above 1.5 up to 2.5,
    ULTRA_LOW below 0.4, LOW from 0.4 to below 0.7, NORMAL everywhere else;
    a missing ratio (warm-up, or 0/0) is NORMAL. *)
Theorem vol_state_buckets (ratio : float) :
  (vol_state ratio = EXTREME <-> (ratio >? of_Q (25 # 10))%fl = true) /\
  (vol_state ratio = HIGH <->
     (ratio >? of_Q (15 # 10))%fl = true /\ (ratio >? of_Q (25 # 10))%fl = false) /\
  (vol_state ratio = ULTRA_LOW <-> (ratio <? of_Q (4 # 10))%fl = true) /\
  (vol_state ratio = LOW <->
     (ratio >=? of_Q (4 # 10))%fl = true /\ (ratio <? of_Q (7 # 10))%fl = true) /\
  (vol_state ratio = NORMAL <->
     (ratio <? of_Q (7 # 10))%fl = false /\ (ratio >? of_Q (15 # 10))%fl = false) /\
  (isnan ratio = true -> vol_state ratio = NORMAL).
Proof.
  destruct thresholds_ordered as (H47 & H715 & H1525).
  assert (H415 : (Q2Qc (4 # 10) <= Q2Qc (15 # 10))%Qc) by (eapply Qcle_trans; eassumption).
  assert (H725 : (Q2Qc (7 # 10) <= Q2Qc (25 # 10))%Qc) by (eapply Qcle_trans; eassumption).
  unfold vol_state, of_Q, Float.geb, Float.gtb, Float.leb.
  destruct ratio as [q| | |]; cbn [Float.ltb Float.eqb isnan];
    try (cbn; repeat split; intros; try discriminate; try tauto;
         repeat match goal with H : _ /\ _ |- _ => destruct H end;
         discriminate).
  destruct (Qc_ltb q (Q2Qc (4 # 10))) eqn:E4;
    destruct (Qc_ltb q (Q2Qc (7 # 10))) eqn:E7;
    destruct (Qc_ltb (Q2Qc (15 # 10)) q) eqn:E15;
    destruct (Qc_ltb (Q2Qc (25 # 10)) q) eqn:E25;
    destruct (Qc_ltb (Q2Qc (4 # 10)) q) eqn:E4';
    destruct (Qc_eqb (Q2Qc (4 # 10)) q) eqn:E4e;
    cbn;
    try (rewrite (Qc_ltb_trans_false _ _ q H415 E4) in E15; discriminate E15);
    try (rewrite (Qc_ltb_trans_false _ _ q H715 E7) in E15; discriminate E15);
    try (rewrite (Qc_ltb_trans_false _ _ q H725 E7) in E25; discriminate E25);
    try (apply Qc_ltb_lt in E25; apply Qc_ltb_ge in E15;
         exfalso; apply (Qcle_not_lt _ _ E15);
         eapply Qcle_lt_trans; [exact H1525 | exact E25]);
    try (apply Qc_ltb_lt in E4; apply Qc_ltb_ge in E7;
         exfalso; apply (Qcle_not_lt _ _ E7);
         eapply Qclt_le_trans; [exact E4 | exact H47]);
    try (apply Qc_ltb_lt in E4; apply Qc_ltb_lt in E4';
         exfalso; exact (Qclt_not_le _ _ E4 (Qclt_le_weak _ _ E4')));
    try (apply Qc_ltb_lt in E4; apply Qc_eqb_eq in E4e; subst q;
         rewrite <- Qc_ltb_lt, Qc_ltb_irrefl in E4; discriminate E4);
    try (apply Qc_ltb_ge in E4; apply Qc_ltb_ge in E4'; apply Qc_eqb_neq in E4e;
         exfalso; apply E4e; now apply Qcle_antisym);
    repeat split; intros; try discriminate; try tauto;
    repeat match goal with H : _ /\ _ |- _ => destruct H end;
    try discriminate.
Qed.

(** ** The columns of the frame *)

(** X9.  On every bar of the frame [add_all_indicators] returns, exactly one
    of the two SuperTrend flags holds, and the MTF score is one of [40],
    [10], [15], [-15], [-10] and [-40]: it is never [0] and never [25] or
    [-25]. *)
Theorem mtf_score_values
  (df : list Bar) (config : option Config) (fr : Frame) (i : nat) :
  add_all_indicators df config = Ok fr ->
  (i < List.length df)%nat ->
  exists st_bull st_bear score,
    nth_error (Indicators.ST_Bullish fr) i = Some st_bull /\
    nth_error (Indicators.ST_Bearish fr) i = Some st_bear /\
    nth_error (Indicators.MTFScore fr) i = Some score /\
    st_bear = negb st_bull /\
    In score [40; 10; 15; -15; -10; -40]%Z.
Proof.
  intros Hrun Hi.
  destruct (add_all_indicators_bias_columns df config fr Hrun)
    as (e9 & e21 & e50 & e200 & st & H9 & H21 & H50 & H200 & Hst &
        Hbull & Hbear & Hsb & Hse & Hmtf & Hbias).
  apply ewm_mean_length in H9, H21, H50, H200. rewrite length_map in *.
  destruct (supertrend_output_length _ _ _ _ _ Hst) as [_ Hdl].
  assert (Hlen : List.length (Indicators.MTFScore fr) = List.length df).
  { rewrite Hmtf, !zip_with_length, Hbull, Hbear, Hsb, Hse,
      !band3_length, !zip_with_length, !length_map. lia. }
  destruct (nth_error (Indicators.MTFScore fr) i) as [score|] eqn:Es.
  2:{ apply nth_error_None in Es. lia. }
  pose proof Es as Es'.
  rewrite Hmtf, !zip_with_nth_error in Es'.
  destruct (nth_error (Indicators.BullishStack fr) i) as [bull|] eqn:E1; [|discriminate].
  destruct (nth_error (Indicators.BearishStack fr) i) as [bear|] eqn:E2; [|discriminate].
  rewrite Hsb, Hse, !nth_error_map in *.
  destruct (nth_error (Indicators.ST_Direction fr) i) as [dir|] eqn:E3; [|discriminate].
  cbn in Es'. injection Es' as Escore.
  assert (Hdir : dir = 1%Z \/ dir = (-1)%Z).
  { pose proof (supertrend_directions _ _ _ _ _ _ _ Hst) as Hall.
    rewrite Forall_forall in Hall. apply Hall. eapply nth_error_In. exact E3. }
  assert (Hex : bull && bear = false).
  { rewrite Hbull in E1. rewrite Hbear in E2. eapply stacks_exclusive; eassumption. }
  exists (dir =? 1)%Z, (dir =? -1)%Z, score.
  split; [reflexivity|]. split; [reflexivity|]. split; [reflexivity|].
  subst score.
  destruct Hdir as [-> | ->]; destruct bull, bear; try discriminate Hex;
    cbn; auto 10.
Qed.

Lemma mtf_score_values_witness :
  exists fr,
    add_all_indicators three_bars None = Ok fr /\
    (1 < List.length three_bars)%nat /\
    exists st_bull st_bear score,
      nth_error (Indicators.ST_Bullish fr) 1 = Some st_bull /\
      nth_error (Indicators.ST_Bearish fr) 1 = Some st_bear /\
      nth_error (Indicators.MTFScore fr) 1 = Some score /\
      st_bear = negb st_bull /\
      In score [40; 10; 15; -15; -10; -40]%Z.
Proof.
  eexists. split; [vm_compute; reflexivity|]. split; [cbn; lia|].
  apply (mtf_score_values three_bars None _ 1); [vm_compute; reflexivity | cbn; lia].
Defined.

(** A run of [add_all_indicators] that returns, step by step. *)
Lemma add_all_indicators_frame (df : list Bar) (config : option Config) (fr : Frame) :
  add_all_indicators df config = Ok fr ->
  exists c_ema9 c_ema21 c_ema50 c_ema200 st st_dir c_atr c_atr_sma c_rsi
         macd_line signal_line hist plus_di minus_di adx_val
         volume_sma high_max5 low_min5,
    ema (map close df) (ema9 (config_or_default config)) = Ok c_ema9 /\
    ema (map close df) (ema21 (config_or_default config)) = Ok c_ema21 /\
    ema (map close df) (ema50 (config_or_default config)) = Ok c_ema50 /\
    ema (map close df) (ema200 (config_or_default config)) = Ok c_ema200 /\
    supertrend (map high df) (map low df) (map close df)
      (st_length (config_or_default config)) (st_mult (config_or_default config))
      = Ok (st, st_dir) /\
    atr (map high df) (map low df) (map close df)
      (atr_period (config_or_default config)) = Ok c_atr /\
    sma c_atr 50 = Ok c_atr_sma /\
    rsi (map close df) (rsi_period (config_or_default config)) = Ok c_rsi /\
    macd (map close df) (macd_fast (config_or_default config))
      (macd_slow (config_or_default config)) (macd_signal (config_or_default config))
      = Ok (macd_line, signal_line, hist) /\
    adx (map high df) (map low df) (map close df) 14 = Ok (plus_di, minus_di, adx_val) /\
    sma (map volume df) (vol_sma (config_or_default config)) = Ok volume_sma /\
    rolling_max 5 (map high df) = Ok high_max5 /\
    rolling_min 5 (map low df) = Ok low_min5 /\
    fr = frame_of df (config_or_default config)
           c_ema9 c_ema21 c_ema50 c_ema200 st st_dir c_atr c_atr_sma c_rsi
           macd_line signal_line hist plus_di minus_di adx_val
           volume_sma high_max5 low_min5.
Proof.
  unfold add_all_indicators. fold (config_or_default config).
  intro H. bind_inv H.
  injection H as <-.
  do 18 eexists. repeat (split; [first [eassumption | reflexivity]|]). reflexivity.
Qed.

Section ShiftFacts.

Lemma shift1_nth_error_0 (s : Series) :
  s <> [] -> nth_error (shift1 s) 0 = Some NaN.
Proof. destruct s; [contradiction | reflexivity]. Qed.

Lemma shift1_nth_error_S (s : Series) (i : nat) :
  (S i < List.length s)%nat -> nth_error (shift1 s) (S i) = nth_error s i.
Proof.
  intro H. destruct s as [|x s]; [cbn in H; lia|].
  unfold shift1. cbn [nth_error].
  rewrite removelast_firstn_len, nth_error_firstn.
  cbn [List.length pred] in *.
  replace (i <? List.length s)%nat with true; [reflexivity|].
  symmetry. apply Nat.ltb_lt. lia.
Qed.

End ShiftFacts.

(** ** Candle patterns and breakouts *)

Section Patterns.

(** Nothing is above twice a body and below half of it. *)
Lemma not_above_twice_and_below_half (x wick : float) :
  (wick >? Float.abs x * of_Z 2)%fl && (wick <? Float.abs x * of_Q (1 # 2))%fl = false.
Proof.
  unfold Float.gtb.
  destruct x as [q| | |].
  - destruct (abs_nonneg (Fin q) eq_refl) as [E | (b & Hb & Hb0)]; [discriminate|].
    rewrite Hb. unfold of_Z, of_Q. cbn [Float.mul].
    destruct wick as [w| | |]; try reflexivity.
    cbn [Float.ltb].
    destruct (Qc_ltb (b * Q2Qc (inject_Z 2)) w) eqn:E1; [|reflexivity].
    destruct (Qc_ltb w (b * Q2Qc (1 # 2))) eqn:E2; [|reflexivity].
    apply Qc_ltb_lt in E1, E2. exfalso. qc2q.
    change (inject_Z 2) with 2%Q in E1. lra.
  - cbn. destruct wick; reflexivity.
  - cbn. destruct wick; reflexivity.
  - cbn. destruct wick; reflexivity.
Qed.

Lemma hammer_star_exclusive (x lower upper : float) :
  ((lower >? Float.abs x * of_Z 2)%fl && (upper <? Float.abs x * of_Q (1 # 2))%fl)
  && ((upper >? Float.abs x * of_Z 2)%fl && (lower <? Float.abs x * of_Q (1 # 2))%fl)
  = false.
Proof.
  pose proof (not_above_twice_and_below_half x lower) as H.
  destruct (lower >? Float.abs x * of_Z 2)%fl; [|reflexivity].
  cbn in H. rewrite H. now rewrite !andb_false_r.
Qed.

Lemma gtb_ltb_exclusive (a b : float) : (a >? b)%fl && (a <? b)%fl = false.
Proof.
  unfold Float.gtb. destruct (b <? a)%fl eqn:E; [|reflexivity].
  now rewrite (ltb_asym b a E).
Qed.

End Patterns.

(** X11.  On every bar of the frame, whatever the prices: a candle is not
    bullish and bearish at once, it is not a hammer and a shooting star at
    once, and not a bullish and a bearish engulfing at once; the first bar,
    which has no bar before it, is no engulfing at all. *)
Theorem candle_patterns_exclude_each_other
  (df : list Bar) (config : option Config) (fr : Frame) (i : nat) :
  add_all_indicators df config = Ok fr ->
  (i < List.length df)%nat ->
  exists up down ham star beng seng,
    nth_error (BullishCandle fr) i = Some up /\
    nth_error (BearishCandle fr) i = Some down /\
    nth_error (Indicators.Hammer fr) i = Some ham /\
    nth_error (Indicators.ShootingStar fr) i = Some star /\
    nth_error (Indicators.BullishEngulfing fr) i = Some beng /\
    nth_error (Indicators.BearishEngulfing fr) i = Some seng /\
    up && down = false /\ ham && star = false /\ beng && seng = false /\
    (beng = true -> up = true) /\ (seng = true -> down = true) /\
    (i = 0%nat -> beng = false /\ seng = false).
Proof.
  intros Hrun Hi.
  destruct (add_all_indicators_frame df config fr Hrun)
    as (? & ? & ? & ? & ? & ? & ? & ? & ? & ? & ? & ? & ? & ? & ? & ? & ? & ? & Hfr).
  repeat match type of Hfr with _ /\ _ => destruct Hfr as [_ Hfr] end.
  subst fr. unfold frame_of.
  cbn [BullishCandle BearishCandle Indicators.Hammer Indicators.ShootingStar
       Indicators.BullishEngulfing Indicators.BearishEngulfing].
  assert (Hb : exists b, nth_error df i = Some b).
  { destruct (nth_error df i) eqn:E; eauto. apply nth_error_None in E. lia. }
  destruct Hb as [b Hb].
  set (o := open b). set (h := high b). set (l := low b). set (c := close b).
  assert (Hso : exists x, nth_error (shift1 (map open df)) i = Some x).
  { destruct (nth_error (shift1 (map open df)) i) eqn:E; eauto.
    apply nth_error_None in E. rewrite shift1_length, length_map in E. lia. }
  assert (Hsc : exists x, nth_error (shift1 (map close df)) i = Some x).
  { destruct (nth_error (shift1 (map close df)) i) eqn:E; eauto.
    apply nth_error_None in E. rewrite shift1_length, length_map in E. lia. }
  destruct Hso as [po Hso], Hsc as [pc Hsc].
  assert (Hsb : forall bs : list bool, List.length bs = List.length df ->
            exists x, nth_error (shift1_bool bs) i = Some x /\ (i = 0%nat -> x = None)).
  { intros bs Hbl. destruct bs as [|b0 bs]; [cbn in Hbl; lia|].
    unfold shift1_bool. destruct i as [|k]; [cbn; eauto|].
    cbn [nth_error]. destruct (nth_error (map Some (removelast (b0 :: bs))) k) eqn:E.
    - eexists; split; [reflexivity | discriminate].
    - apply nth_error_None in E.
      rewrite length_map, removelast_firstn_len, length_firstn in E.
      cbn [List.length] in *. lia. }
  destruct (Hsb (zip_with Float.ltb (map close df) (map open df)))
    as (sdn & Hsdn & Hsdn0); [rewrite zip_with_length, !length_map; lia|].
  destruct (Hsb (zip_with Float.gtb (map close df) (map open df)))
    as (sup & Hsup & Hsup0); [rewrite zip_with_length, !length_map; lia|].
  unfold band3, smap2, scale, row_max2, row_min2.
  rewrite !zip_with_nth_error, ?nth_error_map, ?zip_with_nth_error.
  rewrite ?nth_error_map, ?zip_with_nth_error.
  rewrite Hb, Hso, Hsc, Hsdn, Hsup. cbn [option_map]. fold o h l c.
  do 6 eexists. repeat (split; [reflexivity|]).
  split; [apply gtb_ltb_exclusive|].
  split; [apply hammer_star_exclusive|].
  split.
  { pose proof (gtb_ltb_exclusive c o) as Hx.
    unfold and_na. destruct (c >? o)%fl, (c <? o)%fl; try discriminate Hx;
      cbn; rewrite ?andb_false_r; reflexivity. }
  split; [|split].
  - unfold and_na. destruct (c >? o)%fl; [reflexivity | cbn; discriminate].
  - unfold and_na. destruct (c <? o)%fl; [reflexivity | cbn; discriminate].
  - intro Hz. rewrite (Hsdn0 Hz), (Hsup0 Hz). unfold and_na.
    now rewrite !andb_false_r.
Qed.

Lemma candle_patterns_exclude_each_other_witness :
  exists fr,
    add_all_indicators three_bars None = Ok fr /\
    (1 < List.length three_bars)%nat /\
    exists up down ham star beng seng,
      nth_error (BullishCandle fr) 1 = Some up /\
      nth_error (BearishCandle fr) 1 = Some down /\
      nth_error (Indicators.Hammer fr) 1 = Some ham /\
      nth_error (Indicators.ShootingStar fr) 1 = Some star /\
      nth_error (Indicators.BullishEngulfing fr) 1 = Some beng /\
      nth_error (Indicators.BearishEngulfing fr) 1 = Some seng /\
      up && down = false /\ ham && star = false /\ beng && seng = false /\
      (beng = true -> up = true) /\ (seng = true -> down = true) /\
      (1%nat = 0%nat -> beng = false /\ seng = false).
Proof.
  eexists. split; [vm_compute; reflexivity|]. split; [cbn; lia|].
  apply (candle_patterns_exclude_each_other three_bars None _ 1);
    [vm_compute; reflexivity | cbn; lia].
Defined.

Section Extremes.

Lemma fold_max_below (c : Qc) (w : list Qc) :
  forall q, Qc_ltb (fold_left Qc_max w q) c = true <->
            (q < c)%Qc /\ Forall (fun h => (h < c)%Qc) w.
Proof.
  induction w as [|x w IH]; intro q; cbn [fold_left].
  - rewrite Qc_ltb_lt. split; [intro H; split; [exact H | constructor] | tauto].
  - rewrite IH. unfold Qc_max. destruct (Qc_ltb q x) eqn:E.
    + apply Qc_ltb_lt in E. split.
      * intros [H1 H2]. split; [eapply Qclt_trans; eassumption | constructor; assumption].
      * intros [H1 H2]. inversion H2; subst. tauto.
    + apply Qc_ltb_ge in E. split.
      * intros [H1 H2]. split; [exact H1|]. constructor; [|exact H2].
        eapply Qcle_lt_trans; eassumption.
      * intros [H1 H2]. inversion H2; subst. tauto.
Qed.

Lemma fold_min_above (c : Qc) (w : list Qc) :
  forall q, Qc_ltb c (fold_left Qc_min w q) = true <->
            (c < q)%Qc /\ Forall (fun l => (c < l)%Qc) w.
Proof.
  induction w as [|x w IH]; intro q; cbn [fold_left].
  - rewrite Qc_ltb_lt. split; [intro H; split; [exact H | constructor] | tauto].
  - rewrite IH. unfold Qc_min. destruct (Qc_ltb x q) eqn:E.
    + apply Qc_ltb_lt in E. split.
      * intros [H1 H2]. split; [eapply Qclt_trans; eassumption | constructor; assumption].
      * intros [H1 H2]. inversion H2; subst. tauto.
    + apply Qc_ltb_ge in E. split.
      * intros [H1 H2]. split; [exact H1|]. constructor; [|exact H2].
        eapply Qclt_le_trans; eassumption.
      * intros [H1 H2]. inversion H2; subst. tauto.
Qed.

Lemma above_maximum (c : Qc) (w : list Qc) :
  w <> [] ->
  ((Fin c >? maximum w)%fl = true <-> Forall (fun h => (h < c)%Qc) w).
Proof.
  destruct w as [|q w]; [contradiction|]. intros _.
  unfold maximum, Float.gtb. cbn [Float.ltb]. rewrite fold_max_below.
  split; [intros [H1 H2]; constructor; assumption | intro H; inversion H; subst; tauto].
Qed.

Lemma below_minimum (c : Qc) (w : list Qc) :
  w <> [] ->
  ((Fin c <? minimum w)%fl = true <-> Forall (fun l => (c < l)%Qc) w).
Proof.
  destruct w as [|q w]; [contradiction|]. intros _.
  unfold minimum. cbn [Float.ltb]. rewrite fold_min_above.
  split; [intros [H1 H2]; constructor; assumption | intro H; inversion H; subst; tauto].
Qed.

Lemma rolling_ok_5 (agg : list Qc -> float) (s : Series) :
  (if (5 <? 0)%Z then Raise ValueError else Ok (rolling_agg agg (Z.to_nat 5) s))
  = Ok (rolling_agg agg 5 s).
Proof. reflexivity. Qed.

End Extremes.

(** X12.  No breakout on the first five bars: the rolling extreme of five
    bars, taken one bar back, has no value before row 5, so [BreakAbove] and
    [BreakBelow] are false there whatever the prices. *)
Theorem breakouts_need_five_previous_bars
  (df : list Bar) (config : option Config) (fr : Frame) (i : nat) :
  add_all_indicators df config = Ok fr ->
  (i < List.length df)%nat -> (i < 5)%nat ->
  nth_error (Indicators.BreakAbove fr) i = Some false /\
  nth_error (Indicators.BreakBelow fr) i = Some false.
Proof.
  intros Hrun Hi H5.
  destruct (add_all_indicators_frame df config fr Hrun)
    as (? & ? & ? & ? & ? & ? & ? & ? & ? & ? & ? & ? & ? & ? & ? & ? & hmax & lmin & Hfr).
  destruct Hfr as (_ & _ & _ & _ & _ & _ & _ & _ & _ & _ & _ & Hmax & Hmin & Hfr).
  subst fr. unfold frame_of. cbn [Indicators.BreakAbove Indicators.BreakBelow].
  unfold rolling_max in Hmax. unfold rolling_min in Hmin.
  rewrite rolling_ok_5 in Hmax, Hmin. injection Hmax as <-. injection Hmin as <-.
  assert (Hb : exists b, nth_error df i = Some b).
  { destruct (nth_error df i) eqn:E; eauto. apply nth_error_None in E. lia. }
  destruct Hb as [b Hb].
  assert (Hs : forall (agg : list Qc -> float) (s : Series),
            List.length s = List.length df ->
            nth_error (shift1 (rolling_agg agg 5 s)) i = Some NaN).
  { intros agg s Hl. destruct i as [|k].
    - apply shift1_nth_error_0. intro E. apply (f_equal (@List.length _)) in E.
      rewrite rolling_agg_length in E. cbn in E. lia.
    - rewrite shift1_nth_error_S by (rewrite rolling_agg_length; lia).
      rewrite (nth_error_nth' _ NaN) by (rewrite rolling_agg_length; lia).
      now rewrite rolling_agg_warmup by lia. }
  rewrite !zip_with_nth_error, !Hs, nth_error_map, Hb by now rewrite length_map.
  cbn [option_map]. unfold Float.gtb. now rewrite ltb_NaN_r.
Qed.

Lemma breakouts_need_five_previous_bars_witness :
  exists fr,
    add_all_indicators three_bars None = Ok fr /\
    (2 < List.length three_bars)%nat /\ (2 < 5)%nat /\
    nth_error (Indicators.BreakAbove fr) 2 = Some false /\
    nth_error (Indicators.BreakBelow fr) 2 = Some false.
Proof.
  eexists. split; [vm_compute; reflexivity|]. split; [cbn; lia|]. split; [lia|].
  apply (breakouts_need_five_previous_bars three_bars None _ 2);
    [vm_compute; reflexivity | cbn; lia | lia].
Defined.

(** X13.  From row 5 on, on bars of numbers: [BreakAbove] holds exactly
    when the close is above the high of each of the five bars before, and
    [BreakBelow] exactly when it is below the low of each of them; the bar's
    own high and low play no part. *)
Theorem breakouts_compare_with_five_previous_bars
  (df : list Bar) (config : option Config) (fr : Frame) (i : nat)
  (hs ls : list Qc) (c : Qc) :
  add_all_indicators df config = Ok fr ->
  map high df = map Fin hs -> map low df = map Fin ls ->
  nth_error (map close df) (i + 5) = Some (Fin c) ->
  exists above below,
    nth_error (Indicators.BreakAbove fr) (i + 5) = Some above /\
    nth_error (Indicators.BreakBelow fr) (i + 5) = Some below /\
    (above = true <-> Forall (fun h => (h < c)%Qc) (firstn 5 (skipn i hs))) /\
    (below = true <-> Forall (fun l => (c < l)%Qc) (firstn 5 (skipn i ls))).
Proof.
  intros Hrun Hhs Hls Hc.
  assert (Hi : (i + 5 < List.length df)%nat).
  { assert (H : nth_error (map close df) (i + 5) <> None) by congruence.
    apply nth_error_Some in H. now rewrite length_map in H. }
  destruct (add_all_indicators_frame df config fr Hrun)
    as (? & ? & ? & ? & ? & ? & ? & ? & ? & ? & ? & ? & ? & ? & ? & ? & hmax & lmin & Hfr).
  destruct Hfr as (_ & _ & _ & _ & _ & _ & _ & _ & _ & _ & _ & Hmax & Hmin & Hfr).
  subst fr. unfold frame_of. cbn [Indicators.BreakAbove Indicators.BreakBelow].
  unfold rolling_max in Hmax. unfold rolling_min in Hmin.
  rewrite rolling_ok_5 in Hmax, Hmin. injection Hmax as <-. injection Hmin as <-.
  rewrite Hhs, Hls.
  assert (Hhl : List.length hs = List.length df).
  { apply (f_equal (@List.length _)) in Hhs. now rewrite !length_map in Hhs. }
  assert (Hll : List.length ls = List.length df).
  { apply (f_equal (@List.length _)) in Hls. now rewrite !length_map in Hls. }
  assert (Hs : forall (agg : list Qc -> float) (qs : list Qc),
            List.length qs = List.length df ->
            nth_error (shift1 (rolling_agg agg 5 (map Fin qs))) (i + 5)
            = Some (agg (firstn 5 (skipn i qs)))).
  { intros agg qs Hl. replace (i + 5)%nat with (S (i + 4)) by lia.
    rewrite shift1_nth_error_S by (rewrite rolling_agg_length, length_map; lia).
    rewrite (nth_error_nth' _ NaN) by (rewrite rolling_agg_length, length_map; lia).
    rewrite rolling_agg_nth by lia.
    now replace (S (i + 4) - 5)%nat with i by lia. }
  rewrite !zip_with_nth_error, !Hs, Hc by assumption.
  assert (Hne : forall qs : list Qc, List.length qs = List.length df ->
            firstn 5 (skipn i qs) <> []).
  { intros qs Hl E. apply (f_equal (@List.length _)) in E.
    rewrite length_firstn, length_skipn in E. cbn [List.length] in E. lia. }
  do 2 eexists. split; [reflexivity|]. split; [reflexivity|].
  split; [apply above_maximum | apply below_minimum]; auto.
Qed.

Lemma breakouts_compare_with_five_previous_bars_witness :
  exists fr,
    add_all_indicators six_bars None = Ok fr /\
    map high six_bars
      = map Fin (map (fun z => Q2Qc (inject_Z z)) [12; 13; 14; 15; 16; 17]%Z) /\
    map low six_bars
      = map Fin (map (fun z => Q2Qc (inject_Z z)) [9; 10; 11; 12; 13; 14]%Z) /\
    nth_error (map close six_bars) (0 + 5) = Some (Fin (Q2Qc (inject_Z 18))) /\
    exists above below,
      nth_error (Indicators.BreakAbove fr) (0 + 5) = Some above /\
      nth_error (Indicators.BreakBelow fr) (0 + 5) = Some below /\
      (above = true <->
         Forall (fun h => (h < Q2Qc (inject_Z 18))%Qc)
           (firstn 5 (skipn 0 (map (fun z => Q2Qc (inject_Z z))
                                 [12; 13; 14; 15; 16; 17]%Z)))) /\
      (below = true <->
         Forall (fun l => (Q2Qc (inject_Z 18) < l)%Qc)
           (firstn 5 (skipn 0 (map (fun z => Q2Qc (inject_Z z))
                                 [9; 10; 11; 12; 13; 14]%Z)))).
Proof.
  eexists. split; [vm_compute; reflexivity|].
  split; [reflexivity|]. split; [reflexivity|]. split; [reflexivity|].
  apply (breakouts_compare_with_five_previous_bars six_bars None _ 0
           (map (fun z => Q2Qc (inject_Z z)) [12; 13; 14; 15; 16; 17]%Z)
           (map (fun z => Q2Qc (inject_Z z)) [9; 10; 11; 12; 13; 14]%Z)
           (Q2Qc (inject_Z 18)));
    [vm_compute; reflexivity | reflexivity | reflexivity | reflexivity].
Defined.

(** On the sixth of six rising bars the close is above the five highs
    before it: the breakout flag is set. *)
Example sixth_bar_breaks_above :
  exists fr,
    add_all_indicators six_bars None = Ok fr /\
    nth_error (Indicators.BreakAbove fr) 5 = Some true.
Proof. eexists. split; vm_compute; reflexivity. Qed.

(** ** The shape of the frame *)

Section Lengths.

Lemma rolling_mean_length (n : Z) (s out : Series) :
  rolling_mean n s = Ok out -> List.length out = List.length s.
Proof.
  unfold rolling_mean. destruct (n <? 0)%Z; [discriminate|].
  intro H. injection H as <-. apply rolling_agg_length.
Qed.

Lemma rolling_max_length (n : Z) (s out : Series) :
  rolling_max n s = Ok out -> List.length out = List.length s.
Proof.
  unfold rolling_max. destruct (n <? 0)%Z; [discriminate|].
  intro H. injection H as <-. apply rolling_agg_length.
Qed.

Lemma rolling_min_length (n : Z) (s out : Series) :
  rolling_min n s = Ok out -> List.length out = List.length s.
Proof.
  unfold rolling_min. destruct (n <? 0)%Z; [discriminate|].
  intro H. injection H as <-. apply rolling_agg_length.
Qed.

Lemma cumsum_from_length (s : Series) :
  forall acc, List.length (cumsum_from acc s) = List.length s.
Proof.
  induction s as [|x s IH]; intro acc; [reflexivity|].
  cbn [cumsum_from]. destruct (isnan x); cbn; now rewrite IH.
Qed.

Lemma shift1_bool_length (s : list bool) :
  List.length (shift1_bool s) = List.length s.
Proof.
  destruct s as [|x s]; [reflexivity|].
  unfold shift1_bool. cbn [List.length]. f_equal.
  rewrite length_map, removelast_firstn_len, length_firstn. cbn [List.length]. lia.
Qed.

Lemma atr_length (h l c : Series) (n : nat) (k : Z) (out : Series) :
  List.length h = n -> List.length l = n -> List.length c = n ->
  atr h l c k = Ok out -> List.length out = n.
Proof.
  intros Hh Hl Hc. unfold atr. intro H. apply rolling_mean_length in H. rewrite H.
  unfold row_max3, smap2.
  rewrite !zip_with_length, !length_map, !zip_with_length, shift1_length. lia.
Qed.

Lemma rsi_length (c : Series) (k : Z) (out : Series) :
  rsi c k = Ok out -> List.length out = List.length c.
Proof.
  unfold rsi. intro H. bind_inv H. injection H as <-.
  apply rolling_mean_length in E, E0.
  unfold smap2, where_ in *.
  rewrite length_map, zip_with_length, E, E0, !length_map, diff_length. lia.
Qed.

Lemma macd_length (c : Series) (f s g : Z) (a b d : Series) :
  macd c f s g = Ok (a, b, d) ->
  List.length a = List.length c /\ List.length b = List.length c /\
  List.length d = List.length c.
Proof.
  unfold macd. intro H. bind_inv H. injection H as <- <- <-.
  apply ewm_mean_length in E, E0, E1. unfold smap2 in *.
  rewrite zip_with_length in E1.
  rewrite !zip_with_length, E1, E, E0. lia.
Qed.

Lemma adx_length (h l c : Series) (n : nat) (k : Z) (a b d : Series) :
  List.length h = n -> List.length l = n -> List.length c = n ->
  adx h l c k = Ok (a, b, d) ->
  List.length a = n /\ List.length b = n /\ List.length d = n.
Proof.
  intros Hh Hl Hc. unfold adx. cbv zeta. intro H. bind_inv H. injection H as <- <- <-.
  apply (atr_length h l c n k _ Hh Hl Hc) in E. apply rolling_mean_length in E0, E1, E2.
  unfold smap2, set_where in *.
  rewrite E2.
  rewrite ?length_map, ?zip_with_length, ?length_map, ?zip_with_length,
    ?length_map in *.
  rewrite ?E0, ?E1, ?E, ?zip_with_length, ?length_map, ?diff_length in *.
  rewrite ?E0, ?E1, ?E, ?zip_with_length, ?length_map, ?diff_length in *.
  lia.
Qed.

Lemma vwap_length (h l c v : Series) (n : nat) :
  List.length h = n -> List.length l = n -> List.length c = n ->
  List.length v = n -> List.length (vwap h l c v) = n.
Proof.
  intros Hh Hl Hc Hv. unfold vwap, cumsum, smap2.
  rewrite !zip_with_length, !cumsum_from_length, !zip_with_length, !length_map,
    !zip_with_length. lia.
Qed.

End Lengths.

(** X14.  The frame [add_all_indicators] returns is rectangular: its index
    and each of its 52 columns have one row per input bar. *)
Theorem frame_is_rectangular (df : list Bar) (config : option Config) (fr : Frame) :
  add_all_indicators df config = Ok fr ->
  Forall (fun rows => rows = List.length df) (column_lengths fr).
Proof.
  intro Hrun.
  destruct (add_all_indicators_frame df config fr Hrun)
    as (e9 & e21 & e50 & e200 & st & dir & a & asma & r & ml & sl & hi &
        pdi & mdi & ax & vs & hmax & lmin &
        H9 & H21 & H50 & H200 & Hst & Ha & Hasma & Hr & Hm & Hx & Hvs &
        Hmax & Hmin & Hfr).
  set (n := List.length df).
  assert (Lh : List.length (map high df) = n) by apply length_map.
  assert (Ll : List.length (map low df) = n) by apply length_map.
  assert (Lc : List.length (map close df) = n) by apply length_map.
  assert (Lo : List.length (map open df) = n) by apply length_map.
  assert (Lv : List.length (map volume df) = n) by apply length_map.
  apply ewm_mean_length in H9, H21, H50, H200. rewrite Lc in H9, H21, H50, H200.
  destruct (supertrend_output_length _ _ _ _ _ Hst) as [Lst Ldir]. fold n in Lst, Ldir.
  apply (atr_length _ _ _ n _ _ Lh Ll Lc) in Ha.
  apply rolling_mean_length in Hasma. rewrite Ha in Hasma.
  apply rsi_length in Hr. rewrite Lc in Hr.
  apply macd_length in Hm. rewrite Lc in Hm. destruct Hm as (Lml & Lsl & Lhi).
  apply (adx_length _ _ _ n _ _ _ _ Lh Ll Lc) in Hx. destruct Hx as (Lpdi & Lmdi & Lax).
  apply rolling_mean_length in Hvs. rewrite Lv in Hvs.
  apply rolling_max_length in Hmax. rewrite Lh in Hmax.
  apply rolling_min_length in Hmin. rewrite Ll in Hmin.
  pose proof (vwap_length _ _ _ _ n Lh Ll Lc Lv) as Lvw.
  subst fr. unfold column_lengths, frame_of.
  cbn - [vwap List.length zip_with map shift1 shift1_bool band3 smap2 scale
         row_max2 row_min2].
  unfold band3, smap2, scale, row_max2, row_min2.
  repeat constructor;
    rewrite ?length_map, ?zip_with_length, ?shift1_length, ?shift1_bool_length,
      ?length_map, ?zip_with_length, ?length_map, ?zip_with_length,
      ?shift1_length, ?shift1_bool_length, ?length_map, ?zip_with_length,
      ?length_map;
    lia.
Qed.

Lemma frame_is_rectangular_witness :
  exists fr,
    add_all_indicators three_bars None = Ok fr /\
    Forall (fun rows => rows = List.length three_bars) (column_lengths fr).
Proof.
  eexists. split; [vm_compute; reflexivity|].
  apply (frame_is_rectangular three_bars None). vm_compute; reflexivity.
Defined.

(** X15.  When [add_all_indicators] returns and when it fails, for lengths
    it accepts: an empty frame fails with [IndexError] (the seed row of
    SuperTrend cannot be written), any other frame gives a frame under the
    same index; and an EMA9 span below 1 fails with [ValueError] whatever
    the frame. *)
Theorem add_all_indicators_outcomes (df : list Bar) (config : option Config) :
  (valid_config (config_or_default config) -> df = [] ->
     add_all_indicators df config = Raise IndexError) /\
  (valid_config (config_or_default config) -> df <> [] ->
     exists fr,
       add_all_indicators df config = Ok fr /\
       Indicators.index fr = map timestamp df) /\
  ((ema9 (config_or_default config) < 1)%Z ->
     add_all_indicators df config = Raise ValueError).
Proof.
  split; [|split].
  - intros (H9 & H21 & H50 & H200 & Hst & _) ->.
    unfold add_all_indicators. fold (config_or_default config). cbn [map].
    destruct (ema_returns [] _ H9) as [x1 ->]. cbn [bind].
    destruct (ema_returns [] _ H21) as [x2 ->]. cbn [bind].
    destruct (ema_returns [] _ H50) as [x3 ->]. cbn [bind].
    destruct (ema_returns [] _ H200) as [x4 ->]. cbn [bind].
    unfold supertrend, atr. rewrite rolling_mean_ok by exact Hst. reflexivity.
  - intros Hv Hne. exact (add_all_indicators_returns df config Hne Hv).
  - intro H. unfold add_all_indicators. fold (config_or_default config).
    unfold ema at 1. unfold ewm_mean. apply Z.ltb_lt in H. now rewrite H.
Qed.

(** ** Warm-up rows and [dropna] *)

Section DropNa.

(** A rolling aggregate has no value on a row whose window starts on a
    missing value. *)
Lemma rolling_agg_missing (agg : list Qc -> float) (n i : nat) (s : Series) :
  (1 <= n)%nat -> (n <= S i)%nat -> (i < List.length s)%nat ->
  nth (S i - n) s NaN = NaN ->
  nth i (rolling_agg agg n s) NaN = NaN.
Proof.
  intros Hn Hw Hi Hnan. unfold rolling_agg.
  rewrite nth_map_seq by exact Hi. unfold window.
  replace (n <=? S i)%nat with true by (symmetry; now apply Nat.leb_le).
  assert (Hk : (S i - n < List.length s)%nat) by lia.
  destruct (skipn (S i - n) s) as [|x rest] eqn:E.
  { apply (f_equal (@List.length _)) in E. rewrite length_skipn in E. cbn [List.length] in E. lia. }
  assert (Hx : x = NaN).
  { rewrite <- Hnan. rewrite <- (Nat.add_0_r (S i - n)), <- nth_skipn, E. reflexivity. }
  subst x. destruct n as [|n']; [lia|]. reflexivity.
Qed.

(** The 50-row mean of an ATR of period [p] has no value before row
    [p + 48]. *)
Lemma atr_sma_warmup (tr : Series) (p i : nat) :
  (1 <= p)%nat -> (i < p + 48)%nat ->
  nth i (rolling_agg mean 50 (rolling_agg mean p tr)) NaN = NaN.
Proof.
  intros Hp Hi.
  destruct (Nat.lt_ge_cases (S i) 50) as [H50|H50];
    [now apply rolling_agg_warmup|].
  destruct (Nat.lt_ge_cases i (List.length (rolling_agg mean p tr))) as [Hl|Hl].
  - apply rolling_agg_missing; try lia.
    apply rolling_agg_warmup. lia.
  - apply nth_overflow. now rewrite rolling_agg_length.
Qed.

Lemma keep_rows_length {A : Type} (f : nat -> bool) (k n : nat) (col : list A) :
  (forall i, (i < k)%nat -> f i = false) ->
  (List.length (keep_rows (map f (seq 0 n)) col) <= n - k)%nat.
Proof.
  intro Hf. unfold keep_rows. rewrite length_map.
  assert (Hgen : forall (m start : nat) (c : list A),
            (List.length (filter fst (zip_with pair (map f (seq start m)) c))
             <= (start + m) - Nat.max start k)%nat).
  { induction m as [|m IH]; intros start c; [cbn; lia|].
    cbn [seq map]. destruct c as [|x c]; [cbn; lia|].
    cbn [zip_with filter fst].
    specialize (IH (S start) c).
    destruct (f start) eqn:E.
    - cbn [List.length].
      destruct (Nat.lt_ge_cases start k) as [Hlt|Hge];
        [rewrite (Hf start Hlt) in E; discriminate | lia].
    - lia. }
  specialize (Hgen n 0%nat col). cbn in Hgen. lia.
Qed.

End DropNa.

(** X16.  The frame handed to the backtest starts after the warm-up: of the
    bars given to [prepare], at most [len - 62] are left (with the default
    periods the 50-row mean of ATR has no value before row 62), so 62 bars
    or fewer leave none. *)
Theorem prepare_drops_the_warmup (df : list Bar) (out : Frame) :
  prepare df = Ok out ->
  (List.length (Indicators.index out) <= List.length df - 62)%nat /\
  ((List.length df <= 62)%nat -> Indicators.index out = []).
Proof.
  unfold prepare. intro H. bind_inv H. injection H as <-.
  rename a into fr.
  destruct (add_all_indicators_frame df None fr E)
    as (e9 & e21 & e50 & e200 & st & dir & a & asma & r & ml & sl & hi &
        pdi & mdi & ax & vs & hmax & lmin &
        _ & _ & _ & _ & _ & Ha & Hasma & _ & _ & _ & _ & _ & _ & Hfr).
  assert (Hidx : Indicators.index fr = map timestamp df) by (subst fr; reflexivity).
  assert (Hwarm : forall i, (i < 62)%nat -> row_complete fr i = false).
  { intros i Hi. unfold row_complete.
    apply not_true_is_false. intro Hall. rewrite forallb_forall in Hall.
    assert (Hin : In (ATR_SMA fr) (float_columns fr)).
    { unfold float_columns. cbn. tauto. }
    specialize (Hall _ Hin).
    assert (Hnan : nth i (ATR_SMA fr) NaN = NaN).
    { subst fr. unfold frame_of. cbn [ATR_SMA].
      unfold atr in Ha. cbn [config_or_default get_default_config atr_period] in Ha.
      unfold sma in Hasma.
      rewrite rolling_mean_ok in Ha, Hasma by lia.
      injection Ha as <-. injection Hasma as <-.
      change (Z.to_nat 50) with 50%nat. change (Z.to_nat 14) with 14%nat.
      apply atr_sma_warmup; lia. }
    rewrite Hnan in Hall. discriminate Hall. }
  assert (Hb : (List.length (Indicators.index (dropna fr)) <= List.length df - 62)%nat).
  { unfold dropna. cbn [Indicators.index].
    rewrite Hidx, length_map. now apply keep_rows_length. }
  split; [exact Hb|]. intro Hs.
  destruct (Indicators.index (dropna fr)); [reflexivity | cbn in Hb; lia].
Qed.

Lemma prepare_drops_the_warmup_witness :
  exists out,
    prepare three_bars = Ok out /\
    (List.length (Indicators.index out) <= List.length three_bars - 62)%nat /\
    ((List.length three_bars <= 62)%nat -> Indicators.index out = []).
Proof.
  eexists. split; [vm_compute; reflexivity|].
  apply (prepare_drops_the_warmup three_bars). vm_compute; reflexivity.
Defined.

(** ** Stops and targets *)

Section StopsAndTargets.

Lemma fold_py_min2_finite (xs : list float) (q : Qc) :
  Forall (fun x => isfinite x = true) xs ->
  exists q', fold_left py_min2 xs (Fin q) = Fin q'.
Proof.
  intro H. revert q. induction H as [|x xs Hx _ IH]; intro q; [now exists q|].
  destruct x as [y| | |]; try discriminate Hx.
  cbn [fold_left]. unfold py_min2 at 2. cbn [Float.ltb].
  destruct (Qc_ltb y q); apply IH.
Qed.

Lemma fold_py_max2_finite (xs : list float) (q : Qc) :
  Forall (fun x => isfinite x = true) xs ->
  exists q', fold_left py_max2 xs (Fin q) = Fin q'.
Proof.
  intro H. revert q. induction H as [|x xs Hx _ IH]; intro q; [now exists q|].
  destruct x as [y| | |]; try discriminate Hx.
  cbn [fold_left]. unfold py_max2 at 2. unfold Float.gtb. cbn [Float.ltb].
  destruct (Qc_ltb q y); apply IH.
Qed.

Lemma py_min_finite (xs : list float) :
  xs <> [] -> Forall (fun x => isfinite x = true) xs ->
  exists q, py_min xs = Ok (Fin q).
Proof.
  intros Hne H. destruct xs as [|x xs]; [contradiction|].
  inversion H as [|? ? Hx Hxs]; subst.
  destruct x as [y| | |]; try discriminate Hx.
  destruct (fold_py_min2_finite xs y Hxs) as (q & Hq).
  exists q. unfold py_min. now rewrite Hq.
Qed.

Lemma py_max_finite (xs : list float) :
  xs <> [] -> Forall (fun x => isfinite x = true) xs ->
  exists q, py_max xs = Ok (Fin q).
Proof.
  intros Hne H. destruct xs as [|x xs]; [contradiction|].
  inversion H as [|? ? Hx Hxs]; subst.
  destruct x as [y| | |]; try discriminate Hx.
  destruct (fold_py_max2_finite xs y Hxs) as (q & Hq).
  exists q. unfold py_max. now rewrite Hq.
Qed.

Lemma py_min2_numbers (x y : Qc) :
  exists m, py_min2 (Fin x) (Fin y) = Fin m /\ (m <= y)%Qc.
Proof.
  unfold py_min2. cbn [Float.ltb]. destruct (Qc_ltb y x) eqn:E.
  - exists y. split; [reflexivity | apply Qcle_refl].
  - exists x. split; [reflexivity | now apply Qc_ltb_ge].
Qed.

Lemma py_max2_numbers (x y : Qc) :
  exists m, py_max2 (Fin x) (Fin y) = Fin m /\ (y <= m)%Qc.
Proof.
  unfold py_max2, Float.gtb. cbn [Float.ltb]. destruct (Qc_ltb x y) eqn:E.
  - exists y. split; [reflexivity | apply Qcle_refl].
  - exists x. split; [reflexivity | now apply Qc_ltb_ge].
Qed.

(** The stop and the targets as numbers: the stop is at least 1.2 ATR away
    from the close, on its side, and each target is the close moved by the
    risk times its multiple. *)
Lemma get_sl_tp_numbers (self : TradeExpertPro) (r : Row) (is_long : bool)
  (c a b r1 r2 r3 : Qc) :
  last_row self = Ok r ->
  Strategy.Close r = Fin c -> Strategy.ATR r = Fin a ->
  sl_buffer self = Fin b ->
  tp1_rr self = Fin r1 -> tp2_rr self = Fin r2 -> tp3_rr self = Fin r3 ->
  forallb finite_range (last5 self) = true ->
  exists risk : Qc,
    (a * Q2Qc (12 # 10) <= risk)%Qc /\
    get_sl_tp self is_long =
    Ok (if is_long
        then (Fin (c - risk), Fin (c + risk * r1), Fin (c + risk * r2),
              Fin (c + risk * r3))
        else (Fin (c + risk), Fin (c - risk * r1), Fin (c - risk * r2),
              Fin (c - risk * r3)),
        [SlTp is_long])%Qc.
Proof.
  intros Hrow Hc Ha Hb H1 H2 H3 Hfin.
  pose proof (last5_nonempty self r Hrow) as Hne.
  rewrite forallb_forall in Hfin.
  unfold get_sl_tp. rewrite Hrow. cbn [tell lift bindM].
  rewrite Hc, Ha, Hb, H1, H2, H3.
  destruct is_long.
  - destruct (py_min_finite (map Strategy.Low (last5 self))) as (lo & Hlo).
    { intro E. apply map_eq_nil in E. contradiction. }
    { apply Forall_map, Forall_forall. intros x Hx.
      specialize (Hfin x Hx). unfold finite_range in Hfin.
      now apply andb_true_iff in Hfin. }
    rewrite Hlo. cbn [lift bindM ret].
    unfold of_Q. cbn [Float.sub Float.add Float.neg Float.mul].
    destruct (py_min2_numbers (lo + - (a * b)) (c + - (a * Q2Qc (12 # 10))))
      as (m & -> & Hm).
    cbn [Float.sub Float.add Float.neg Float.mul app].
    exists (c - m)%Qc. split.
    + qc2q. lra.
    + repeat f_equal; apply Qc_is_canon; qc2q; ring.
  - destruct (py_max_finite (map Strategy.High (last5 self))) as (hi & Hhi).
    { intro E. apply map_eq_nil in E. contradiction. }
    { apply Forall_map, Forall_forall. intros x Hx.
      specialize (Hfin x Hx). unfold finite_range in Hfin.
      now apply andb_true_iff in Hfin. }
    rewrite Hhi. cbn [lift bindM ret].
    unfold of_Q. cbn [Float.sub Float.add Float.neg Float.mul].
    destruct (py_max2_numbers (hi + a * b) (c + a * Q2Qc (12 # 10)))
      as (m & -> & Hm).
    cbn [Float.sub Float.add Float.neg Float.mul app].
    exists (m - c)%Qc. split.
    + qc2q. lra.
    + repeat f_equal; apply Qc_is_canon; qc2q; ring.
Qed.

End StopsAndTargets.

Lemma leb_Fin (x y : Qc) : (x <= y)%Qc -> (Fin x <=? Fin y)%fl = true.
Proof.
  intro H. unfold Float.leb. cbn [Float.ltb Float.eqb].
  destruct (Qc_ltb x y) eqn:E; [reflexivity|].
  apply Qc_ltb_ge in E. cbn [orb]. apply Qc_eqb_eq. now apply Qcle_antisym.
Qed.

(** X18.  With an ATR that is not negative and numbers for the prices and
    the parameters, the stop [get_sl_tp] returns is never on the winning
    side of the close and its targets never on the losing side: for a long
    [sl <= close <= tp1 <= tp2 <= tp3], for a short the reverse, provided
    the three multiples are positive and do not decrease. *)
Theorem get_sl_tp_levels_are_ordered (self : TradeExpertPro) (r : Row)
  (is_long : bool) (c a b r1 r2 r3 : Qc) :
  last_row self = Ok r ->
  Strategy.Close r = Fin c -> Strategy.ATR r = Fin a -> (0 <= a)%Qc ->
  sl_buffer self = Fin b ->
  tp1_rr self = Fin r1 -> tp2_rr self = Fin r2 -> tp3_rr self = Fin r3 ->
  (0 < r1)%Qc -> (r1 <= r2)%Qc -> (r2 <= r3)%Qc ->
  forallb finite_range (last5 self) = true ->
  exists sl tp1 tp2 tp3 : float,
    get_sl_tp self is_long = Ok ((sl, tp1, tp2, tp3), [SlTp is_long]) /\
    if is_long
    then (sl <=? Strategy.Close r)%fl = true /\ (Strategy.Close r <=? tp1)%fl = true /\
         (tp1 <=? tp2)%fl = true /\ (tp2 <=? tp3)%fl = true
    else (tp3 <=? tp2)%fl = true /\ (tp2 <=? tp1)%fl = true /\
         (tp1 <=? Strategy.Close r)%fl = true /\ (Strategy.Close r <=? sl)%fl = true.
Proof.
  intros Hrow Hc Ha Hpos Hb H1 H2 H3 Hr1 Hr12 Hr23 Hfin.
  destruct (get_sl_tp_numbers self r is_long c a b r1 r2 r3
              Hrow Hc Ha Hb H1 H2 H3 Hfin) as (risk & Hrisk & Hrun).
  assert (Hk : (0 <= this risk)%Q) by (qc2q; lra).
  rewrite Hc.
  destruct is_long; do 4 eexists; (split; [exact Hrun|]);
    repeat split; apply leb_Fin; qc2q; nra.
Qed.

Lemma get_sl_tp_levels_are_ordered_witness :
  exists sl tp1 tp2 tp3 : float,
    get_sl_tp (default_strategy [full_row] false) true
      = Ok ((sl, tp1, tp2, tp3), [SlTp true]) /\
    (sl <=? Strategy.Close full_row)%fl = true /\
    (Strategy.Close full_row <=? tp1)%fl = true /\
    (tp1 <=? tp2)%fl = true /\ (tp2 <=? tp3)%fl = true.
Proof.
  apply (get_sl_tp_levels_are_ordered (default_strategy [full_row] false)
           full_row true (Q2Qc 100) (Q2Qc 2) (Q2Qc (2 # 10))
           (Q2Qc 1) (Q2Qc 2) (Q2Qc 3));
    first [reflexivity | discriminate].
Defined.

(** ** What [next] places *)

Lemma filter_no_order (l : list Event) :
  Forall (fun e => is_order e = false) l -> filter is_order l = [].
Proof.
  induction 1 as [|e l He _ IH]; [reflexivity|].
  cbn [filter]. now rewrite He.
Qed.

Ltac no_orders := repeat (apply Forall_cons; [reflexivity|]); apply Forall_nil.

(** X20.  Every order [next] places has passed all of its gates, and there
    is at most one: no position is open, the volatility state is neither
    ULTRA_LOW nor EXTREME, the score is at least [min_quality], the order is
    on the side of the bias with at least three confirmations of that side,
    its size is one half, its stop and target are the stop and the second
    target of [get_sl_tp], and their reward:risk is at least [min_rr]. *)
Theorem next_orders_are_gated (self : TradeExpertPro) (log : list Event) :
  next self = Ok (tt, log) ->
  (List.length (filter is_order log) <= 1)%nat /\
  forall e, In e log -> is_order e = true -> gated self e.
Proof.
  unfold next. intro H.
  assert (Hnone : forall l : list Event,
            Forall (fun e => is_order e = false) l ->
            Ok (tt, l) = Ok (tt, log) ->
            (List.length (filter is_order log) <= 1)%nat /\
            forall e, In e log -> is_order e = true -> gated self e).
  { intros l Hl0 E. injection E as <-. split.
    - rewrite (filter_no_order _ Hl0). cbn; lia.
    - intros e He Ho. rewrite Forall_forall in Hl0.
      rewrite (Hl0 e He) in Ho. discriminate Ho. }
  destruct (position self) eqn:Hpos.
  { apply (Hnone []); [constructor | exact H]. }
  destruct (last_row self) as [r|x] eqn:Hrow.
  2:{ unfold check_veto_conditions in H. rewrite Hrow in H. discriminate H. }
  rewrite (check_veto_conditions_returns self r Hrow) in H. cbn [bindM] in H.
  destruct (get_quality_score_returns self r Hrow) as (q & Hq).
  destruct (get_sl_tp_returns self r Hrow true) as (sl & tp1 & tp2 & tp3 & Hl).
  destruct (get_sl_tp_returns self r Hrow false) as (sl' & tp1' & tp2' & tp3' & Hs).
  destruct (Strategy.VolState r) eqn:Hvol; cbn [bindM ret] in H;
    try (apply (Hnone [CheckVeto]); [no_orders | exact H]);
    (destruct (Strategy.Bias r) eqn:Hbias; cbn [bindM ret] in H;
     try (apply (Hnone [CheckVeto]); [no_orders | exact H]));
    rewrite Hq in H; cbn [bindM ret] in H;
    (destruct (q <? min_quality self)%Z eqn:Hmin;
     [apply (Hnone ([CheckVeto] ++ [QualityScore] ++ []));
      [no_orders | exact H] |]);
    apply Z.ltb_ge in Hmin;
    cbn [lift bindM ret] in H; rewrite Hbias in H;
    match type of H with
    | context [(?c >=? 3)%Z] =>
        destruct (c >=? 3)%Z eqn:Hconf;
        [| apply (Hnone ([CheckVeto] ++ [QualityScore] ++ [] ++ []));
           [no_orders | exact H]]
    end;
    apply Z.geb_le in Hconf;
    first [rewrite Hl in H | rewrite Hs in H]; cbn [bindM] in H;
    match type of H with
    | context [(?rr >=? min_rr self)%fl] =>
        destruct (rr >=? min_rr self)%fl eqn:Hrr;
        [| first [ apply (Hnone [CheckVeto; QualityScore; SlTp true]);
                   [no_orders | exact H]
                 | apply (Hnone [CheckVeto; QualityScore; SlTp false]);
                   [no_orders | exact H] ]]
    end;
    cbn [tell app] in H; injection H as <-;
    (split; [cbn; lia|]);
    intros e He Ho;
    (destruct He as [<-|[<-|[<-|[<-|[]]]]]; try discriminate Ho);
    (split; [exact Hpos|]);
    first
      [ exists r, q, true, sl, tp1, tp2, tp3;
        split; [exact Hrow|]; split; [congruence|]; split; [congruence|];
        split; [exact Hq|]; split; [exact Hmin|]; split; [exact Hbias|];
        split; [exact Hconf|]; split; [exact Hl|]; split; [exact Hrr|];
        reflexivity
      | exists r, q, false, sl', tp1', tp2', tp3';
        split; [exact Hrow|]; split; [congruence|]; split; [congruence|];
        split; [exact Hq|]; split; [exact Hmin|]; split; [exact Hbias|];
        split; [exact Hconf|]; split; [exact Hs|]; split; [exact Hrr|];
        reflexivity ].
Qed.

Lemma next_orders_are_gated_witness :
  exists log,
    next (default_strategy [full_row] false) = Ok (tt, log) /\
    action_of log = ENTER_LONG /\
    (List.length (filter is_order log) <= 1)%nat.
Proof.
  eexists. split; [vm_compute; reflexivity|]. split; [reflexivity|].
  apply (next_orders_are_gated (default_strategy [full_row] false)).
  vm_compute; reflexivity.
Defined.

(** X21.  On a frame without rows [next] returns at once when a position is
    open and fails with [IndexError], at its first read of the last bar,
    when none is. *)
Theorem next_on_a_frame_without_rows (self : TradeExpertPro) :
  data self = [] ->
  next self = if position self then Ok (tt, []) else Raise IndexError.
Proof.
  intro E. unfold next. destruct (position self); [reflexivity|].
  unfold check_veto_conditions, last_row. rewrite E. reflexivity.
Qed.

Lemma next_on_a_frame_without_rows_witness :
  next (default_strategy [] false) = Raise IndexError.
Proof.
  exact (next_on_a_frame_without_rows (default_strategy [] false) eq_refl).
Defined.

(** ** The score as an integer *)

Section ScoreClosedForm.

Lemma Qfloor_unique (x : Q) (z : Z) :
  (inject_Z z <= x)%Q -> (x < inject_Z (z + 1))%Q -> Qfloor x = z.
Proof.
  intros Hlo Hhi.
  pose proof (Qfloor_le x) as H1. pose proof (Qlt_floor x) as H2.
  assert (A : (inject_Z z < inject_Z (Qfloor x + 1))%Q) by lra.
  assert (B : (inject_Z (Qfloor x) < inject_Z (z + 1))%Q) by lra.
  rewrite <- Zlt_Qlt in A, B. lia.
Qed.

Lemma Qfloor_plus_Z (x : Q) (z : Z) : Qfloor (x + inject_Z z) = (Qfloor x + z)%Z.
Proof.
  pose proof (Qfloor_le x) as H1. pose proof (Qlt_floor x) as H2.
  apply Qfloor_unique.
  - rewrite inject_Z_plus. lra.
  - replace (Qfloor x + z + 1)%Z with ((Qfloor x + 1) + z)%Z by lia.
    rewrite inject_Z_plus. lra.
Qed.

Lemma Qfloor_fifth (a : Z) :
  (0 <= a)%Z -> Qfloor (inject_Z a / 100 * 20) = (a / 5)%Z.
Proof.
  intro Ha.
  pose proof (Z.div_mod a 5 ltac:(lia)) as E.
  pose proof (Z.mod_pos_bound a 5 ltac:(lia)) as Hm.
  assert (Q1 : (inject_Z a == 5 * inject_Z (a / 5) + inject_Z (a mod 5))%Q).
  { rewrite E at 1. rewrite inject_Z_plus, inject_Z_mult. reflexivity. }
  assert (Q2 : (0 <= inject_Z (a mod 5) < 5)%Q).
  { change 0%Q with (inject_Z 0). change 5%Q with (inject_Z 5).
    rewrite <- Zle_Qle, <- Zlt_Qlt. lia. }
  assert (Q3 : (inject_Z a / 100 * 20 == inject_Z a / 5)%Q) by field.
  apply Qfloor_unique.
  - rewrite Q3. apply Qle_shift_div_l; lra.
  - rewrite Q3. apply Qlt_shift_div_r; [lra|]. rewrite inject_Z_plus.
    change (inject_Z 1) with 1%Q. lra.
Qed.

Lemma points_range (b : bool) (c : Z) : (0 <= c -> 0 <= points b c <= c)%Z.
Proof. unfold points. destruct b; lia. Qed.

Lemma flag_points_range (r : Row) : (0 <= flag_points r <= 80)%Z.
Proof.
  unfold flag_points.
  pose proof (points_range (fires_stack r) 15).
  pose proof (points_range (fires_supertrend r) 10).
  pose proof (points_range (fires_rsi r) 10).
  pose proof (points_range (fires_macd r) 10).
  pose proof (points_range (fires_volume r) 10).
  pose proof (points_range (fires_candle r) 10).
  pose proof (points_range (fires_break r) 10).
  pose proof (points_range (fires_normal_vol r) 5).
  lia.
Qed.

Lemma mtf_points_range (r : Row) : (0 <= mtf_points r <= 20)%Z.
Proof.
  unfold mtf_points. destruct (Strategy.MTFScore r) as [m|]; [|lia].
  pose proof (Z.div_pos (Z.abs m) 5). lia.
Qed.

(** The MTF term floors to [mtf_points]. *)
Lemma term_mtf_floor (r : Row) (m : Qc) :
  term_mtf r = Fin m -> Qfloor (this m) = mtf_points r.
Proof.
  unfold term_mtf, mtf_points.
  set (a := match Strategy.MTFScore r with Some m => Z.abs m | None => 0%Z end).
  assert (Ha : (0 <= a)%Z) by (unfold a; destruct (Strategy.MTFScore r); lia).
  assert (Hgoal : Z.min 20 (a / 5) =
                  match Strategy.MTFScore r with
                  | Some m0 => Z.min 20 (Z.abs m0 / 5)
                  | None => 0%Z
                  end).
  { unfold a. destruct (Strategy.MTFScore r); reflexivity. }
  rewrite <- Hgoal. clear Hgoal.
  unfold of_Z. cbn [Float.div Float.mul].
  replace (Qc_eqb (Q2Qc (inject_Z 100)) 0) with false by reflexivity.
  cbn [Float.mul]. unfold py_min2. cbn [Float.ltb].
  set (x := (Q2Qc (inject_Z a) / Q2Qc (inject_Z 100) * Q2Qc (inject_Z 20))%Qc).
  assert (Hx : (this x == inject_Z a / 100 * 20)%Q).
  { unfold x. qc2q. reflexivity. }
  assert (Hf : Qfloor (this x) = (a / 5)%Z).
  { rewrite <- (Qfloor_fifth a Ha). apply Qfloor_comp. exact Hx. }
  destruct (Qc_ltb x (Q2Qc (inject_Z 20))) eqn:E; intro H; injection H as <-.
  - apply Qc_ltb_lt in E. rewrite Hf.
    assert (Hlt : (a / 5 < 20)%Z).
    { pose proof (Qfloor_le (this x)) as Hle. rewrite Hf in Hle.
      unfold Qclt in E. rewrite this_Q2Qc in E.
      assert (A : (inject_Z (a / 5) < inject_Z 20)%Q) by lra.
      now rewrite <- Zlt_Qlt in A. }
    lia.
  - apply Qc_ltb_ge in E.
    assert (Hge : (20 <= a / 5)%Z).
    { rewrite <- Hf. unfold Qcle in E. rewrite this_Q2Qc in E.
      change 20%Z with (Qfloor (inject_Z 20)). now apply Qfloor_resp_le. }
    rewrite (Qfloor_comp _ _ (this_Q2Qc (inject_Z 20))).
    change (Qfloor (inject_Z 20)) with 20%Z. lia.
Qed.

End ScoreClosedForm.

(** X22.  The quality score as an integer: the MTF term adds
    [min(20, |MTFScore| // 5)] and each flag its points, the cap at 100
    never cuts, and on a row whose MTF score is within 40 of zero (as every
    MTF score of [add_all_indicators] is) the score is at most 88. *)
Theorem quality_score_closed_form (self : TradeExpertPro) (r : Row) :
  last_row self = Ok r ->
  get_quality_score self = Ok ((mtf_points r + flag_points r)%Z, [QualityScore]) /\
  (forall m, Strategy.MTFScore r = Some m -> (Z.abs m <= 40)%Z ->
     (mtf_points r + flag_points r <= 88)%Z).
Proof.
  intro Hrow.
  pose proof (flag_points_range r) as Hflags.
  pose proof (mtf_points_range r) as Hmtf.
  split.
  - destruct (raw_score_value r) as (m & t & Hm & Hlo & Hhi & Ht & Hsum).
    unfold get_quality_score. rewrite Hrow. cbn [tell lift bindM]. rewrite Ht.
    assert (Hsum' : (this t == this m + inject_Z (flag_points r))%Q).
    { rewrite Hsum. unfold flag_points. rewrite !inject_Z_plus. ring. }
    assert (Hnn : (0 <= this t)%Q).
    { rewrite Hsum'. destruct Hflags as [Hf _].
      rewrite Zle_Qle in Hf. change (inject_Z 0) with 0%Q in Hf. lra. }
    rewrite (py_int_nonneg t Hnn). cbn [lift bindM ret app].
    rewrite Hsum', Qfloor_plus_Z, (term_mtf_floor r m Hm).
    rewrite Z.min_r by lia. reflexivity.
  - intros m Hm Habs. unfold mtf_points. rewrite Hm.
    assert (Z.abs m / 5 <= 8)%Z by (apply Z.div_le_upper_bound; lia).
    lia.
Qed.

Lemma quality_score_closed_form_witness :
  get_quality_score (default_strategy [flat_row] false)
    = Ok ((mtf_points flat_row + flag_points flat_row)%Z, [QualityScore]).
Proof.
  apply (quality_score_closed_form (default_strategy [flat_row] false) flat_row).
  reflexivity.
Defined.

(** ** The simplified strategy *)

Section SimpleFacts.

Lemma last_of_map {A B : Type} (f : A -> B) (xs : list A) (x : A) (rest : list A) :
  rev xs = x :: rest -> Simple.last_of (map f xs) = Ok (f x).
Proof.
  intro E. unfold Simple.last_of. now rewrite <- map_rev, E.
Qed.

(** A crossing needs two bars, and leaves the first series above the second
    on the last one. *)
Lemma crossover_last (f g : Simple.Row -> float) (rows : list Simple.Row) :
  Simple.crossover (map f rows) (map g rows) = true ->
  exists x y rest,
    rev rows = x :: y :: rest /\ (f y <? g y)%fl = true /\ (f x >? g x)%fl = true.
Proof.
  unfold Simple.crossover. rewrite <- !map_rev.
  destruct (rev rows) as [|x [|y rest]]; try discriminate.
  cbn [map]. intro H. apply andb_true_iff in H. exists x, y, rest. tauto.
Qed.

End SimpleFacts.

(** What [TradeExpertProSimple.next] does, case by case: it returns without
    an order, or it hands one order to the broker, after a cross of the two
    means on the last two bars. *)
Lemma simple_next_cases (place : Simple.Order -> result unit)
  (self : Simple.TradeExpertProSimple) :
  Simple.next place self = Ok [] \/
  exists x y rest o,
    Simple.position self = false /\
    rev (Simple.data self) = x :: y :: rest /\
    Simple.next place self = (_ <- place o ;; Ok [o]) /\
    ((o = Simple.Buy (Simple.Close x - Simple.ATR x * of_Q (15 # 10))
                     (Simple.Close x + Simple.ATR x * of_Z 3) /\
      Simple.ST_Bullish x = true /\
      (Simple.EMA9 y <? Simple.EMA21 y) = true /\
      (Simple.EMA9 x >? Simple.EMA21 x) = true) \/
     (o = Simple.Sell (Simple.Close x + Simple.ATR x * of_Q (15 # 10))
                      (Simple.Close x - Simple.ATR x * of_Z 3) /\
      Simple.ST_Bearish x = true /\
      (Simple.EMA21 y <? Simple.EMA9 y) = true /\
      (Simple.EMA21 x >? Simple.EMA9 x) = true))%fl.
Proof.
  unfold Simple.next.
  destruct (Simple.position self) eqn:Hpos; [now left|].
  destruct (Simple.crossover (map Simple.EMA9 (Simple.data self))
              (map Simple.EMA21 (Simple.data self))) eqn:Hup.
  - destruct (crossover_last _ _ _ Hup) as (x & y & rest & E & Hy & Hx).
    rewrite (last_of_map Simple.ST_Bullish _ x (y :: rest) E). cbn [bind].
    destruct (Simple.ST_Bullish x) eqn:Hst; [|now left].
    rewrite (last_of_map Simple.Close _ x (y :: rest) E),
            (last_of_map Simple.ATR _ x (y :: rest) E). cbn [bind].
    right. exists x, y, rest. eexists. split; [reflexivity|].
    split; [exact E|]. split; [reflexivity|]. left. tauto.
  - destruct (Simple.crossover (map Simple.EMA21 (Simple.data self))
               (map Simple.EMA9 (Simple.data self))) eqn:Hdown; [|now left].
    destruct (crossover_last _ _ _ Hdown) as (x & y & rest & E & Hy & Hx).
    rewrite (last_of_map Simple.ST_Bearish _ x (y :: rest) E). cbn [bind].
    destruct (Simple.ST_Bearish x) eqn:Hst; [|now left].
    rewrite (last_of_map Simple.Close _ x (y :: rest) E),
            (last_of_map Simple.ATR _ x (y :: rest) E). cbn [bind].
    right. exists x, y, rest. eexists. split; [reflexivity|].
    split; [exact E|]. split; [reflexivity|]. right. tauto.
Qed.

Lemma crossover_needs_two (f g : Simple.Row -> float) (rows : list Simple.Row) :
  (List.length rows < 2)%nat ->
  Simple.crossover (map f rows) (map g rows) = false.
Proof.
  intro Hlen. apply not_true_is_false. intro H.
  destruct (crossover_last f g _ H) as (x & y & rest & E & _).
  apply (f_equal (@List.length _)) in E. rewrite length_rev in E.
  cbn [List.length] in E. lia.
Qed.

(** X23.  [TradeExpertProSimple.next] fails only where the library does:
    its own reads never fail, not even on a frame without rows, so either
    it returns, having placed at most one order, or the one order it hands
    to [self.buy] or [self.sell] is refused and the exception is the
    library's.  It places no order while a position is open or with fewer
    than two bars. *)
Theorem simple_next_fails_only_at_the_broker
  (place : Simple.Order -> result unit) (self : Simple.TradeExpertProSimple) :
  ((exists orders,
      Simple.next place self = Ok orders /\ (List.length orders <= 1)%nat) \/
   (exists o e, place o = Raise e /\ Simple.next place self = Raise e)) /\
  (Simple.position self = true \/ (List.length (Simple.data self) < 2)%nat ->
   Simple.next place self = Ok []).
Proof.
  split.
  - destruct (simple_next_cases place self)
      as [H | (x & y & rest & o & _ & _ & H & _)].
    + left. exists []. split; [exact H | cbn; lia].
    + rewrite H. destruct (place o) as [[]|e] eqn:E.
      * left. exists [o]. split; [reflexivity | cbn; lia].
      * right. exists o, e. split; [exact E | reflexivity].
  - intros [Hpos | Hlen].
    + unfold Simple.next. now rewrite Hpos.
    + unfold Simple.next. rewrite !crossover_needs_two by exact Hlen.
      now destruct (Simple.position self).
Qed.

(** X24.  An order of [TradeExpertProSimple.next] follows the cross: a buy
    needs SuperTrend bullish and EMA9 above EMA21 on the last bar after
    being below it on the bar before, a sell the mirror image; its stop is
    the close moved by 1.5 ATR and its target the close moved by 3 ATR,
    and with an ATR that is not negative the stop is never on the winning
    side of the close and the target never on the losing side. *)
Theorem simple_orders_follow_the_cross
  (place : Simple.Order -> result unit)
  (self : Simple.TradeExpertProSimple) (orders : list Simple.Order)
  (o : Simple.Order) :
  Simple.next place self = Ok orders -> In o orders ->
  exists x y rest,
    rev (Simple.data self) = x :: y :: rest /\
    place o = Ok tt /\
    match o with
    | Simple.Buy sl tp =>
        sl = (Simple.Close x - Simple.ATR x * of_Q (15 # 10))%fl /\
        tp = (Simple.Close x + Simple.ATR x * of_Z 3)%fl /\
        Simple.ST_Bullish x = true /\
        (Simple.EMA9 y <? Simple.EMA21 y)%fl = true /\
        (Simple.EMA9 x >? Simple.EMA21 x)%fl = true /\
        (forall c a : Qc,
           Simple.Close x = Fin c -> Simple.ATR x = Fin a -> (0 <= a)%Qc ->
           (sl <=? Simple.Close x)%fl = true /\ (Simple.Close x <=? tp)%fl = true)
    | Simple.Sell sl tp =>
        sl = (Simple.Close x + Simple.ATR x * of_Q (15 # 10))%fl /\
        tp = (Simple.Close x - Simple.ATR x * of_Z 3)%fl /\
        Simple.ST_Bearish x = true /\
        (Simple.EMA21 y <? Simple.EMA9 y)%fl = true /\
        (Simple.EMA21 x >? Simple.EMA9 x)%fl = true /\
        (forall c a : Qc,
           Simple.Close x = Fin c -> Simple.ATR x = Fin a -> (0 <= a)%Qc ->
           (tp <=? Simple.Close x)%fl = true /\ (Simple.Close x <=? sl)%fl = true)
    end.
Proof.
  intros Hrun Hin.
  destruct (simple_next_cases place self)
    as [H | (x & y & rest & o' & _ & E & H & Hside)].
  { rewrite H in Hrun. injection Hrun as <-. destruct Hin. }
  rewrite H in Hrun. destruct (place o') as [[]|e] eqn:Hp; [|discriminate Hrun].
  cbn [bind] in Hrun. injection Hrun as <-. destruct Hin as [<- | []].
  exists x, y, rest. split; [exact E|]. split; [exact Hp|].
  destruct Hside as [(-> & Hst & Hy & Hx) | (-> & Hst & Hy & Hx)];
    (split; [reflexivity|]); (split; [reflexivity|]);
    (split; [exact Hst|]); (split; [exact Hy|]); (split; [exact Hx|]);
    intros c a -> -> Ha; unfold of_Q, of_Z;
    cbn [Float.sub Float.add Float.neg Float.mul];
    split; apply leb_Fin; qc2q; change (inject_Z 3) with 3%Q; lra.
Qed.

Lemma simple_orders_follow_the_cross_witness :
  Simple.next Simple.accept
    {| Simple.data := crossing_rows; Simple.position := false |}
    = Ok [Simple.Buy (of_Z 97) (of_Z 106)] /\
  exists x y rest,
    rev crossing_rows = x :: y :: rest /\
    Simple.ST_Bullish x = true /\
    (Simple.EMA9 y <? Simple.EMA21 y)%fl = true /\
    (Simple.EMA9 x >? Simple.EMA21 x)%fl = true.
Proof.
  assert (Hrun : Simple.next Simple.accept
                   {| Simple.data := crossing_rows; Simple.position := false |}
                 = Ok [Simple.Buy (of_Z 97) (of_Z 106)])
    by (vm_compute; reflexivity).
  split; [exact Hrun|].
  destruct (simple_orders_follow_the_cross Simple.accept _ _
              (Simple.Buy (of_Z 97) (of_Z 106)) Hrun (or_introl eq_refl))
    as (x & y & rest & E & _ & _ & _ & Hst & Hy & Hx & _).
  exists x, y, rest. split; [exact E|]. split; [exact Hst|]. split; assumption.
Defined.

(** ** Symbol names *)

Section Symbols.

Lemma upper_char_idempotent (c : Ascii.ascii) :
  DataFetcher.upper_char (DataFetcher.upper_char c) = DataFetcher.upper_char c.
Proof.
  destruct c as [[] [] [] [] [] [] [] []]; vm_compute; reflexivity.
Qed.

Lemma upper_idempotent (s : string) :
  DataFetcher.upper (DataFetcher.upper s) = DataFetcher.upper s.
Proof.
  induction s as [|c s IH]; [reflexivity|].
  cbn [DataFetcher.upper]. now rewrite upper_char_idempotent, IH.
Qed.

(** A lookup answers the default or a value of the table. *)
Lemma dict_get_cases (d : list (string * string)) (key default : string) :
  (~ In key (map fst d) /\ DataFetcher.dict_get d key default = default) \/
  (In key (map fst d) /\
   In (DataFetcher.dict_get d key default) (map snd d) /\
   forall other, DataFetcher.dict_get d key other
                 = DataFetcher.dict_get d key default).
Proof.
  induction d as [|[k v] d IH]; [left; split; [intros []|reflexivity]|].
  cbn [DataFetcher.dict_get map fst snd In].
  destruct (String.eqb k key) eqn:E.
  - apply String.eqb_eq in E. right. split; [now left|].
    split; [now left | reflexivity].
  - apply String.eqb_neq in E.
    destruct IH as [(Hn & Hd) | (Hk & Hv & Ho)].
    + left. split; [intros [H|H]; contradiction | exact Hd].
    + right. split; [now right|]. split; [now right | exact Ho].
Qed.

(** No symbol of the table is one of its names, in any case. *)
Lemma symbols_are_not_names :
  Forall (fun v => DataFetcher.get_symbol v = v) (map snd DataFetcher.SYMBOLS).
Proof. repeat constructor. Qed.

End Symbols.

(** X25.  [get_symbol] resolves a name once and for all: applied to its
    own answer it changes nothing, because no symbol of the table is, in
    any case, one of its names. *)
Theorem get_symbol_is_idempotent (name : string) :
  DataFetcher.is_ascii name = true ->
  DataFetcher.get_symbol (DataFetcher.get_symbol name)
  = DataFetcher.get_symbol name.
Proof.
  intros _.
  assert (C : DataFetcher.get_symbol name = name \/
              In (DataFetcher.get_symbol name) (map snd DataFetcher.SYMBOLS)).
  { unfold DataFetcher.get_symbol.
    destruct (dict_get_cases DataFetcher.SYMBOLS (DataFetcher.upper name) name)
      as [(_ & Hd) | (_ & Hv & _)]; [left; exact Hd | right; exact Hv]. }
  destruct C as [C | Hv]; [rewrite C; exact C|].
  pose proof symbols_are_not_names as H. rewrite Forall_forall in H.
  exact (H _ Hv).
Qed.

Lemma get_symbol_is_idempotent_witness :
  DataFetcher.get_symbol (DataFetcher.get_symbol "silver") = "SI=F"%string.
Proof.
  rewrite (get_symbol_is_idempotent "silver" eq_refl). reflexivity.
Defined.

(** X26.  [get_symbol] ignores the case of a name the table knows, and
    returns a name it does not know as it was typed. *)
Theorem get_symbol_ignores_case (name : string) :
  DataFetcher.is_ascii name = true ->
  (In (DataFetcher.upper name) (map fst DataFetcher.SYMBOLS) ->
   DataFetcher.get_symbol name = DataFetcher.get_symbol (DataFetcher.upper name) /\
   In (DataFetcher.get_symbol name) (map snd DataFetcher.SYMBOLS)) /\
  (~ In (DataFetcher.upper name) (map fst DataFetcher.SYMBOLS) ->
   DataFetcher.get_symbol name = name).
Proof.
  intros _. unfold DataFetcher.get_symbol. rewrite upper_idempotent.
  destruct (dict_get_cases DataFetcher.SYMBOLS (DataFetcher.upper name) name)
    as [(Hn & Hd) | (Hk & Hv & Ho)].
  - split; [intro H; contradiction | intros _; exact Hd].
  - split; [|intro H; contradiction].
    intros _. split; [symmetry; apply Ho | exact Hv].
Qed.

Lemma get_symbol_ignores_case_witness :
  DataFetcher.get_symbol "Nifty50" = DataFetcher.get_symbol "NIFTY50" /\
  DataFetcher.get_symbol "nifty" = "nifty"%string.
Proof.
  destruct (get_symbol_ignores_case "Nifty50" eq_refl) as [H _].
  destruct (get_symbol_ignores_case "nifty" eq_refl) as [_ H'].
  split.
  - apply H. vm_compute. tauto.
  - apply H'. vm_compute. intuition discriminate.
Defined.

(** ** ADX *)

Section Adx.

Lemma finite_values_Some (w : list float) (qs : list Qc) :
  finite_values w = Some qs -> w = map Fin qs.
Proof.
  revert qs. induction w as [|x w IH]; intros qs H.
  - injection H as <-. reflexivity.
  - unfold finite_values in H. cbn [fold_right] in H.
    fold (finite_values w) in H.
    destruct x as [q| | |]; try discriminate H.
    destruct (finite_values w) as [qs'|]; [|discriminate H].
    injection H as <-. cbn [map]. now rewrite (IH qs' eq_refl).
Qed.

(** A rolling mean keeps every property of numbers that means keep. *)
Lemma rolling_mean_keeps (P : Qc -> Prop) (n : nat) (s : Series) :
  (forall w x, Forall P w -> mean w = Fin x -> P x) ->
  Forall (fun x => forall q, x = Fin q -> P q) s ->
  Forall (fun x => x = NaN \/ exists q, x = Fin q /\ P q) (rolling_agg mean n s).
Proof.
  intros Hmean Hs. unfold rolling_agg. apply Forall_map, Forall_forall.
  intros i _. unfold window.
  destruct (n <=? S i)%nat; [|now left].
  destruct (finite_values (firstn n (skipn (S i - n) s))) as [qs|] eqn:E; [|now left].
  apply finite_values_Some in E.
  assert (Hw : Forall P qs).
  { assert (H : Forall (fun x => forall q, x = Fin q -> P q) (map Fin qs)).
    { rewrite <- E. now apply Forall_firstn, Forall_skipn. }
    rewrite Forall_map in H. rewrite Forall_forall in *.
    intros q Hq. exact (H q Hq q eq_refl). }
  destruct (mean qs) as [x| | |] eqn:Em; try (destruct qs; discriminate Em).
  - right. exists x. split; [reflexivity|]. exact (Hmean qs x Hw Em).
  - now left.
Qed.

Lemma rolling_mean_inv (n : Z) (s out : Series) :
  rolling_mean n s = Ok out -> out = rolling_agg mean (Z.to_nat n) s.
Proof.
  unfold rolling_mean. destruct (n <? 0)%Z; congruence.
Qed.

Lemma mean_keeps_nonneg (w : list Qc) (x : Qc) :
  Forall (fun q => (0 <= q)%Qc) w -> mean w = Fin x -> (0 <= x)%Qc.
Proof.
  intros Hw Hm. destruct w as [|q w]; [discriminate Hm|].
  rewrite mean_nonempty in Hm by discriminate. injection Hm as <-.
  apply Qc_div_nonneg; [exact (Qc_sum_nonneg (q :: w) Hw)|].
  apply Qc_of_nat_pos. cbn [List.length]. lia.
Qed.

Lemma Forall_zip_with {A B C : Type} (P : A -> Prop) (Q : B -> Prop) (R : C -> Prop)
  (f : A -> B -> C) (xs : list A) (ys : list B) :
  (forall x y, P x -> Q y -> R (f x y)) ->
  Forall P xs -> Forall Q ys -> Forall R (zip_with f xs ys).
Proof.
  intros Hf Hx. revert ys. induction Hx as [|x xs Hx _ IH]; intros ys Hy; [constructor|].
  destruct Hy as [|y ys Hy Hys]; cbn [zip_with]; constructor; auto.
Qed.

Lemma Forall_True {A : Type} (l : list A) : Forall (fun _ => True) l.
Proof. induction l; constructor; auto. Qed.

(** A directional movement is missing, infinite or not negative. *)
Lemma clipped_nonneg (x : float) (q : Qc) :
  (if (x <? zero)%fl then zero else x) = Fin q -> (0 <= q)%Qc.
Proof.
  destruct x as [a| | |]; cbn [Float.ltb zero of_Z]; try discriminate.
  - unfold zero, of_Z. cbn [Float.ltb].
    destruct (Qc_ltb a (Q2Qc (inject_Z 0))) eqn:E; intro H; injection H as <-.
    + apply Qcle_refl.
    + now apply Qc_ltb_ge in E.
  - intro H. injection H as <-. apply Qcle_refl.
Qed.

Lemma directional_movement_nonneg (sel : bool -> float -> float)
  (s : Series) (mask : list bool) :
  (forall m x, sel m x = x \/ sel m x = zero) ->
  Forall (fun x => forall q, x = Fin q -> (0 <= q)%Qc)
    (zip_with sel mask (set_where s (fun x => (x <? zero)%fl) zero)).
Proof.
  intro Hsel.
  apply (Forall_zip_with (fun _ => True)
           (fun x => forall q, x = Fin q -> (0 <= q)%Qc)).
  - intros m x _ Hx q. destruct (Hsel m x) as [-> | ->]; [apply Hx|].
    intro H. injection H as <-. apply Qcle_refl.
  - apply Forall_True.
  - unfold set_where. apply Forall_map, Forall_forall. intros x _ q.
    apply clipped_nonneg.
Qed.

(** A directional index: 100 times a mean movement over the ATR. *)
Lemma di_value (m a : float) :
  missing_or_nonneg m -> missing_or_nonneg a ->
  missing_inf_or_nonneg (of_Z 100 * (m / a))%fl.
Proof.
  intros [-> | (p & -> & Hp)] [-> | (b & -> & Hb)]; try (now left).
  cbn [Float.div].
  destruct (Qc_eqb b 0) eqn:E.
  - destruct (p ?= 0)%Qc eqn:C.
    + now left.
    + apply Qclt_alt in C. exfalso. qc2q. lra.
    + right; left. reflexivity.
  - right; right. unfold of_Z. cbn [Float.mul]. eexists. split; [reflexivity|].
    apply Qc_eqb_neq in E.
    assert (Hb' : (0 < b)%Qc).
    { destruct (Qcle_lt_or_eq _ _ Hb) as [H|H]; [exact H | congruence]. }
    assert (Hd : (0 <= p / b)%Qc) by now apply Qc_div_nonneg.
    qc2q. change (inject_Z 100) with 100%Q. nra.
Qed.

(** The directional movement index is not negative whenever it is a
    number. *)
Lemma dx_value (x y : float) (q : Qc) :
  missing_inf_or_nonneg x -> missing_inf_or_nonneg y ->
  (of_Z 100 * Float.abs (x - y) / (x + y))%fl = Fin q ->
  (0 <= q)%Qc.
Proof.
  intros [-> | [-> | (p & -> & Hp)]] [-> | [-> | (m & -> & Hm)]];
    try (vm_compute; discriminate);
    try (unfold of_Z; cbn [Float.sub Float.neg Float.add Float.abs Float.mul];
         unfold inf_times;
         replace (Q2Qc (inject_Z 100) ?= 0)%Qc with Gt by reflexivity;
         cbn [Float.div]; discriminate).
  unfold of_Z. cbn [Float.sub Float.neg Float.add Float.abs].
  assert (Habs : exists d, (if Qc_ltb (p + - m) 0 then Fin (- (p + - m)) else Fin (p + - m))
                           = Fin d /\ (0 <= d)%Qc).
  { destruct (Qc_ltb (p + - m) 0) eqn:E; eexists; (split; [reflexivity|]).
    - apply Qc_ltb_lt in E. qc2q; lra.
    - now apply Qc_ltb_ge in E. }
  destruct Habs as (d & -> & Hd0).
  cbn [Float.mul Float.div].
  destruct (Qc_eqb (p + m) 0) eqn:E.
  - destruct (Q2Qc (inject_Z 100) * d ?= 0)%Qc; discriminate.
  - apply Qc_eqb_neq in E. intro H. injection H as <-.
    assert (Hs : (0 < this p + this m)%Q).
    { assert (Hne : ~ (this (p + m)%Qc == 0)%Q).
      { intro Hz. apply E. apply Qc_is_canon. exact Hz. }
      rewrite this_plus in Hne. qc2q.
      destruct (Qlt_le_dec 0 (this p + this m)) as [H|H]; [exact H|].
      exfalso. apply Hne. lra. }
    qc2q; change (inject_Z 100) with 100%Q.
    apply Qle_shift_div_l; [exact Hs|]. nra.
Qed.

Lemma never_negative_of_missing_or_nonneg (l : Series) :
  Forall missing_or_nonneg l -> Forall (fun x => (x <? zero)%fl = false) l.
Proof.
  apply Forall_impl. intros x [-> | (q & -> & Hq)]; [reflexivity|].
  unfold zero, of_Z. cbn [Float.ltb]. now apply Qc_ltb_ge.
Qed.

Lemma never_negative_of_missing_inf_or_nonneg (l : Series) :
  Forall missing_inf_or_nonneg l -> Forall (fun x => (x <? zero)%fl = false) l.
Proof.
  apply Forall_impl. intros x [-> | [-> | (q & -> & Hq)]]; try reflexivity.
  unfold zero, of_Z. cbn [Float.ltb]. now apply Qc_ltb_ge.
Qed.

Lemma zip_with_pointwise {A B : Type} (f1 f2 : A -> A -> B) (g : B -> B)
  (h : B -> B -> B) (a b : list A) :
  zip_with h (map g (zip_with f1 a b)) (zip_with f2 a b)
  = zip_with (fun x y => h (g (f1 x y)) (f2 x y)) a b.
Proof.
  revert b. induction a as [|x a IH]; intros [|y b]; cbn [zip_with map]; auto.
  now rewrite IH.
Qed.

End Adx.

(** X28.  On well-formed bars (numbers, [low <= high]) no value of the ADX
    and no value of the two directional indices is negative: each is
    missing, a number that is not negative or, for an index, [+inf] (a
    movement over an ATR of zero). *)
Theorem adx_is_never_negative (df : list Bar) (length : Z)
  (plus_di minus_di adx_val : Series) :
  Forall (fun b => well_formed_bar b = true) df ->
  adx (map high df) (map low df) (map close df) length
    = Ok (plus_di, minus_di, adx_val) ->
  Forall (fun x => (x <? zero)%fl = false) adx_val /\
  Forall (fun x => (x <? zero)%fl = false) plus_di /\
  Forall (fun x => (x <? zero)%fl = false) minus_di.
Proof.
  intros Hwf H. unfold adx, atr, smap2 in H. bind_inv H. injection H as <- <- <-.
  apply rolling_mean_inv in E, E0, E1, E2. subst.
  set (n := Z.to_nat length).
  assert (Hatr : Forall missing_or_nonneg
                   (rolling_agg mean n
                      (row_max3 (zip_with Float.sub (map high df) (map low df))
                         (map Float.abs
                            (zip_with Float.sub (map high df) (shift1 (map close df))))
                         (map Float.abs
                            (zip_with Float.sub (map low df) (shift1 (map close df))))))).
  { rewrite !zip_with_shift1 by now rewrite !length_map.
    destruct (true_range_numbers df Hwf NaN eq_refl) as (ts & Hts & Hts0).
    unfold smap2 in Hts. rewrite Hts.
    apply (rolling_mean_keeps (fun q => (0 <= q)%Qc)); [exact mean_keeps_nonneg|].
    apply Forall_map. revert Hts0. apply Forall_impl.
    intros t Ht q Hq. injection Hq as <-. exact Ht. }
  assert (Hdi : forall (sel : bool -> float -> float) (mask : list bool) (s : Series),
            (forall m x, sel m x = x \/ sel m x = zero) ->
            Forall missing_inf_or_nonneg
              (map (Float.mul (of_Z 100))
                 (zip_with Float.div
                    (rolling_agg mean n
                       (zip_with sel mask (set_where s (fun x => (x <? zero)%fl) zero)))
                    (rolling_agg mean n
                       (row_max3 (zip_with Float.sub (map high df) (map low df))
                          (map Float.abs
                             (zip_with Float.sub (map high df) (shift1 (map close df))))
                          (map Float.abs
                             (zip_with Float.sub (map low df) (shift1 (map close df))))))))).
  { intros sel mask s Hsel. apply Forall_map.
    apply (Forall_zip_with missing_or_nonneg missing_or_nonneg);
      [exact di_value | | exact Hatr].
    apply (rolling_mean_keeps (fun q => (0 <= q)%Qc)); [exact mean_keeps_nonneg|].
    now apply directional_movement_nonneg. }
  assert (Hplus := Hdi (fun (m : bool) x => if m then x else zero)).
  assert (Hminus := Hdi (fun (m : bool) x => if m then zero else x)).
  split; [|split].
  - apply never_negative_of_missing_or_nonneg.
    apply (rolling_mean_keeps (fun q => (0 <= q)%Qc)); [exact mean_keeps_nonneg|].
    rewrite zip_with_pointwise.
    apply (Forall_zip_with missing_inf_or_nonneg missing_inf_or_nonneg).
    + intros x y Hx Hy q. exact (dx_value x y q Hx Hy).
    + apply Hplus. intros [] x; auto.
    + apply Hminus. intros [] x; auto.
  - apply never_negative_of_missing_inf_or_nonneg. apply Hplus. intros [] x; auto.
  - apply never_negative_of_missing_inf_or_nonneg. apply Hminus. intros [] x; auto.
Qed.

Lemma adx_is_never_negative_witness :
  exists plus_di minus_di adx_val,
    adx (map high six_bars) (map low six_bars) (map close six_bars) 2
      = Ok (plus_di, minus_di, adx_val) /\
    (zero <? nth 5 adx_val NaN)%fl = true /\
    Forall (fun x => (x <? zero)%fl = false) adx_val.
Proof.
  do 3 eexists. split; [vm_compute; reflexivity|]. split; [reflexivity|].
  refine (proj1 (adx_is_never_negative six_bars 2 _ _ _ _ _));
    [repeat constructor | vm_compute; reflexivity].
Defined.
